(** * sudoku-py: the game-session engine of [sudoku.py]

    A shallow embedding of the engine part of the single-file Tkinter
    Sudoku (score, coins, difficulty unlocks, skins): the puzzle catalog,
    the save file loader, the board, the scoring rules, the completion
    bonus, the difficulty gate and the skin shop, followed by the
    properties of the design document that are checked against them.

    Conventions of the embedding.
    - Python [int] is [Z]; a [time.time()] stamp is a rational [Q] (every
      float is one; the rounding of the float subtraction is not modelled).
    - Python lists are [list] with stdpp's lookup and insert; an index out
      of range raises [IndexError], which is written out at each access.
    - A method of [SudokuApp] is a computation in the monad [M]: it reads
      and writes the fields of [self] and may raise; a raised exception
      keeps the mutations done before it (Tk reports the exception of a
      callback and the main loop goes on).
    - [time.time()] and [random.choice] are inputs of the callback that
      uses them: a stamp [now : Q], a draw [rnd : nat].
    - Of the widgets, the text and the state of the 81 entries, the three
      label variables the engine writes and the message boxes are kept;
      colours, the clock label and window geometry are left out, and so is
      [save_state], which writes [state_data] to disk, swallows its errors
      and changes nothing in memory.
    - A Python [str] is a [string] of code points below 256, one
      character of the [string] for each code point: the character
      [ascii_of_nat 178] is the superscript two U+00B2. [isdigit],
      [strip] and [int] follow Python on these code points; a text with
      a code point from 256 on is not represented. *)

From Stdlib Require Import ZArith QArith Qround String Ascii List Lia DecimalString.
From stdpp Require Import gmap strings list.

Set Warnings "-register-all".
Local Open Scope Z_scope.

(* ------------------------------------------------------------------ *)
(** ** Python helpers *)

(** [int(ch)] for a one-character string: a decimal digit, or [ValueError]. *)
Definition digit_of_ascii (ch : ascii) : option Z :=
  let n := Z.of_nat (nat_of_ascii ch) in
  if (48 <=? n) && (n <=? 57) then Some (n - 48) else None.

(** The decimal digits [0] to [9] only: what [int] reads. *)
Fixpoint all_digits (s : string) : bool :=
  match s with
  | EmptyString => true
  | String ch s' =>
      match digit_of_ascii ch with
      | Some _ => all_digits s'
      | None => false
      end
  end.

(** The characters [str.isdigit()] accepts among the code points below
    256: the decimal digits, and the superscripts two (178), three (179)
    and one (185), which are digits without being decimal. *)
Definition is_digit_char (ch : ascii) : bool :=
  let n := nat_of_ascii ch in
  ((48 <=? n)%nat && (n <=? 57)%nat) || (n =? 178)%nat || (n =? 179)%nat
  || (n =? 185)%nat.

Fixpoint all_digit_chars (s : string) : bool :=
  match s with
  | EmptyString => true
  | String ch s' => is_digit_char ch && all_digit_chars s'
  end.

(** [str.isdigit()]: non-empty, and every character a digit. *)
Definition isdigit (s : string) : bool :=
  match s with
  | EmptyString => false
  | _ => all_digit_chars s
  end.

(** The decimal value of a text of decimal digits. *)
Fixpoint int_acc (acc : Z) (s : string) : Z :=
  match s with
  | EmptyString => acc
  | String ch s' =>
      match digit_of_ascii ch with
      | Some d => int_acc (10 * acc + d) s'
      | None => acc
      end
  end.

Definition int_of_text (s : string) : Z := int_acc 0 s.

(** The number of digits [int] converts: CPython's default
    [sys.int_info.default_max_str_digits]. *)
Definition max_str_digits : Z := 4300.

(** [int(text)] for a text that [isdigit()] accepts, [None] being its
    [ValueError]: the decimal value when every character is a decimal
    digit; an error for a digit that is not decimal (a superscript), and
    for more than 4300 digits, leading zeros counted. *)
Definition py_int (s : string) : option Z :=
  match s with
  | EmptyString => None
  | _ =>
      if all_digits s && (Z.of_nat (String.length s) <=? max_str_digits)
      then Some (int_of_text s) else None
  end.

(** [str.strip()]: the white space of [str.isspace()] is removed at both
    ends; below 256 these are the code points 9 to 13, 28 to 32, 133 and
    160. *)
Definition isspace (ch : ascii) : bool :=
  let n := nat_of_ascii ch in
  ((9 <=? n)%nat && (n <=? 13)%nat) || ((28 <=? n)%nat && (n <=? 32)%nat)
  || (n =? 133)%nat || (n =? 160)%nat.

Fixpoint lstrip (s : string) : string :=
  match s with
  | EmptyString => EmptyString
  | String ch s' => if isspace ch then lstrip s' else s
  end.

Fixpoint rstrip (s : string) : string :=
  match s with
  | EmptyString => EmptyString
  | String ch s' =>
      match rstrip s' with
      | EmptyString => if isspace ch then EmptyString else String ch EmptyString
      | r => String ch r
      end
  end.

Definition strip (s : string) : string := rstrip (lstrip s).

(** [str(n)] for an [int]. *)
Definition str (n : Z) : string := NilZero.string_of_int (Z.to_int n).

(** [int(x)] for a float: truncation toward zero. *)
Definition int_of_float (x : Q) : Z :=
  if Qle_bool 0 x then Qfloor x else Qceiling x.

(** [x in l] for a list of strings. *)
Definition str_in (x : string) (l : list string) : bool :=
  existsb (String.eqb x) l.

(** [d[k]] and [d.get(k, dflt)] for a constant table written as a dict
    literal; the pairs are kept in the order of the literal. *)
Fixpoint assoc {A} (k : string) (d : list (string * A)) : option A :=
  match d with
  | [] => None
  | (k', v) :: d' => if String.eqb k k' then Some v else assoc k d'
  end.

(** [l.index(x)]. *)
Fixpoint index_of (x : string) (l : list string) : option nat :=
  match l with
  | [] => None
  | y :: l' => if String.eqb x y then Some 0%nat else S <$> index_of x l'
  end.

(** [random.choice(l)] with the draw [rnd]: the element at [rnd] modulo
    the length, so that the draws [0 .. len(l)-1] hit each element once. *)
Definition choice {A} (rnd : nat) (l : list A) : option A :=
  l !! (rnd mod length l)%nat.

(* ------------------------------------------------------------------ *)
(** ** Constant tables *)

Definition PUZZLES : list (string * list (string * string)) :=
  [ ("Easy",
     [ ("530070000600195000098000060800060003400803001700020006060000280000419005000080079",
        "534678912672195348198342567859761423426853791713924856961537284287419635345286179");
       ("040000000060105000009030070008302900700000004006708100010080600000406090000000050",
        "541697832867145329239831476418362957753219864926758143314985672582476391697123548") ]);
    ("Medium",
     [ ("000260701680070090190004500820100040004602900050003028009300074040050036703018000",
        "435269781682571493197834562826195347374682915951743628519326874248957136763418259");
       ("030000080006000107000009030040007500700060004003500070020100000904000600010000020",
        "137645289496832157582719436249317568751968324863524971628153794974281653315476892") ]);
    ("Hard",
     [ ("000000907000420180000705026100904000050000040000507009920108000034059000507000000",
        "812653947573492186496715326169934852258176943734527619925168734384259761567341298");
       ("300000000005009000200504000000700000000000030040000006000000105000030000000201000",
        "397126584415389672286574319163798452872465931549812736638947125721653948954231867") ]) ]%string.

(** The keys of [SKINS], in the order of the literal; the palettes
    themselves are colours and are not needed. *)
Definition SKINS : list string := ["Classic"; "Ocean"; "Sunset"; "Forest"]%string.

Definition SKIN_PRICES : list (string * Z) :=
  [ ("Ocean", 60); ("Sunset", 60); ("Forest", 60) ]%string.

Definition grid_index (r c : nat) : nat := (r * 9 + c)%nat.

(** [parse_grid(s)]: [None] is the [ValueError] of [int(ch)]. *)
Fixpoint parse_grid (s : string) : option (list Z) :=
  match s with
  | EmptyString => Some []
  | String ch s' =>
      match digit_of_ascii ch with
      | Some d => cons d <$> parse_grid s'
      | None => None
      end
  end.

(* ------------------------------------------------------------------ *)
(** ** State persistence: [DEFAULT_SAVE] and [load_state] *)

(** What [json.load] can return. *)
Inductive json :=
| JNull
| JBool (b : bool)
| JInt (z : Z)
| JFloat (q : Q)
| JStr (s : string)
| JArr (l : list json)
| JObj (m : gmap string json).

(** What reading [SAVE_PATH] comes to: the file does not exist; [open]
    or [json.load] raises; [json.load] returns a value. *)
Inductive save_file :=
| Missing
| Unreadable
| Loads (data : json).

Definition DEFAULT_ITEMS : list (string * json) :=
  [ ("coins", JInt 0);
    ("unlocked", JArr [JStr "Easy"]);
    ("owned_skins", JArr [JStr "Classic"]);
    ("active_skin", JStr "Classic") ]%string.

Definition DEFAULT_SAVE : gmap string json := list_to_map DEFAULT_ITEMS.

(** [sub in s] for two strings. *)
Fixpoint is_prefix (p s : string) : bool :=
  match p, s with
  | EmptyString, _ => true
  | String a p', String b s' => if Ascii.eqb a b then is_prefix p' s' else false
  | String _ _, EmptyString => false
  end.

Fixpoint is_substring (p s : string) : bool :=
  is_prefix p s ||
  match s with
  | EmptyString => false
  | String _ s' => is_substring p s'
  end.

Definition is_str (k : string) (v : json) : bool :=
  match v with
  | JStr s => String.eqb k s
  | _ => false
  end.

(** [k in data] for a string [k]: key membership for a dict, element
    membership for a list, substring for a string; [None] is the
    [TypeError] of a value that is not a container. *)
Definition json_contains (k : string) (data : json) : option bool :=
  match data with
  | JObj m => Some (bool_decide (is_Some (m !! k)))
  | JArr l => Some (existsb (is_str k) l)
  | JStr s => Some (is_substring k s)
  | JNull | JBool _ | JInt _ | JFloat _ => None
  end.

(** [data[k] = v] for a string [k]: only a dict takes it; [None] is the
    [TypeError] of the others. *)
Definition json_setitem (k : string) (v : json) (data : json) : option json :=
  match data with
  | JObj m => Some (JObj (<[k:=v]> m))
  | _ => None
  end.

(** The loop [for k, v in DEFAULT_SAVE.items(): if k not in data: data[k] = v]. *)
Fixpoint ensure_keys (items : list (string * json)) (data : json) : option json :=
  match items with
  | [] => Some data
  | (k, v) :: items' =>
      match json_contains k data with
      | None => None
      | Some true => ensure_keys items' data
      | Some false =>
          match json_setitem k v data with
          | None => None
          | Some data' => ensure_keys items' data'
          end
      end
  end.

(** [load_state()]. It runs once, in [__init__], when [DEFAULT_SAVE] is
    still as the module wrote it. *)
Definition load_state (f : save_file) : json :=
  match f with
  | Missing => JObj DEFAULT_SAVE
  | Unreadable => JObj DEFAULT_SAVE
  | Loads data =>
      match ensure_keys DEFAULT_ITEMS data with
      | Some data' => data'
      | None => JObj DEFAULT_SAVE
      end
  end.

(* ------------------------------------------------------------------ *)
(** ** The application state *)

(** [state_data] of a well-formed save: the four fields with the types
    the engine uses them at. *)
Record save := {
  save_coins : Z;
  unlocked : list string;
  owned_skins : list string;
  active_skin : string
}.

(** The typed view of a value returned by [load_state]. *)
Definition json_strings (v : json) : option (list string) :=
  match v with
  | JArr l => mapM (fun x => match x with JStr s => Some s | _ => None end) l
  | _ => None
  end.

Definition save_of_json (v : json) : option save :=
  match v with
  | JObj m =>
      match m !! "coins"%string, m !! "unlocked"%string,
            m !! "owned_skins"%string, m !! "active_skin"%string with
      | Some (JInt c), Some u, Some o, Some (JStr a) =>
          u' ← json_strings u; o' ← json_strings o;
          Some {| save_coins := c; unlocked := u'; owned_skins := o'; active_skin := a |}
      | _, _, _, _ => None
      end
  | _ => None
  end.

(** A [tk.Entry]: its text and whether its state is "disabled". Tk
    ignores [delete] and [insert] on a disabled entry. *)
Record entry := { text : string; disabled : bool }.

Definition entry_config (d : bool) (e : entry) : entry :=
  {| text := text e; disabled := d |}.

(** [e.delete(0, tk.END)] *)
Definition entry_delete (e : entry) : entry :=
  if disabled e then e else {| text := ""; disabled := false |}.

(** [e.insert(0, s)] *)
Definition entry_insert (s : string) (e : entry) : entry :=
  if disabled e then e else {| text := s +:+ text e; disabled := false |}.

Inductive dialog_kind := showinfo | showwarning | showerror.

Record dialog := { kind : dialog_kind; title : string; message : string }.

Record app := {
  state_data : save;
  skin : string;                   (* the key of [SKINS] whose palette is loaded *)
  current_diff : string;
  score : Z;
  coins : Z;
  start_time : option Q;
  last_correct_time : option Q;
  timer_running : bool;
  selected : nat * nat;
  given_mask : list bool;
  puzzle : list Z;
  solution : list Z;
  cells : list (list entry);
  score_var : string;
  coins_var : string;
  info_var : string;
  dialogs : list dialog            (* the message boxes shown, oldest first *)
}.

Definition put_state_data (v : save) (st : app) : app :=
  {| state_data := v; skin := skin st; current_diff := current_diff st;
     score := score st; coins := coins st; start_time := start_time st;
     last_correct_time := last_correct_time st;
     timer_running := timer_running st; selected := selected st;
     given_mask := given_mask st; puzzle := puzzle st;
     solution := solution st; cells := cells st; score_var := score_var st;
     coins_var := coins_var st; info_var := info_var st;
     dialogs := dialogs st |}.

Definition put_skin (v : string) (st : app) : app :=
  {| state_data := state_data st; skin := v; current_diff := current_diff st;
     score := score st; coins := coins st; start_time := start_time st;
     last_correct_time := last_correct_time st;
     timer_running := timer_running st; selected := selected st;
     given_mask := given_mask st; puzzle := puzzle st;
     solution := solution st; cells := cells st; score_var := score_var st;
     coins_var := coins_var st; info_var := info_var st;
     dialogs := dialogs st |}.

Definition put_current_diff (v : string) (st : app) : app :=
  {| state_data := state_data st; skin := skin st; current_diff := v;
     score := score st; coins := coins st; start_time := start_time st;
     last_correct_time := last_correct_time st;
     timer_running := timer_running st; selected := selected st;
     given_mask := given_mask st; puzzle := puzzle st;
     solution := solution st; cells := cells st; score_var := score_var st;
     coins_var := coins_var st; info_var := info_var st;
     dialogs := dialogs st |}.

Definition put_score (v : Z) (st : app) : app :=
  {| state_data := state_data st; skin := skin st;
     current_diff := current_diff st; score := v; coins := coins st;
     start_time := start_time st; last_correct_time := last_correct_time st;
     timer_running := timer_running st; selected := selected st;
     given_mask := given_mask st; puzzle := puzzle st;
     solution := solution st; cells := cells st; score_var := score_var st;
     coins_var := coins_var st; info_var := info_var st;
     dialogs := dialogs st |}.

Definition put_coins (v : Z) (st : app) : app :=
  {| state_data := state_data st; skin := skin st;
     current_diff := current_diff st; score := score st; coins := v;
     start_time := start_time st; last_correct_time := last_correct_time st;
     timer_running := timer_running st; selected := selected st;
     given_mask := given_mask st; puzzle := puzzle st;
     solution := solution st; cells := cells st; score_var := score_var st;
     coins_var := coins_var st; info_var := info_var st;
     dialogs := dialogs st |}.

Definition put_start_time (v : option Q) (st : app) : app :=
  {| state_data := state_data st; skin := skin st;
     current_diff := current_diff st; score := score st; coins := coins st;
     start_time := v; last_correct_time := last_correct_time st;
     timer_running := timer_running st; selected := selected st;
     given_mask := given_mask st; puzzle := puzzle st;
     solution := solution st; cells := cells st; score_var := score_var st;
     coins_var := coins_var st; info_var := info_var st;
     dialogs := dialogs st |}.

Definition put_last_correct_time (v : option Q) (st : app) : app :=
  {| state_data := state_data st; skin := skin st;
     current_diff := current_diff st; score := score st; coins := coins st;
     start_time := start_time st; last_correct_time := v;
     timer_running := timer_running st; selected := selected st;
     given_mask := given_mask st; puzzle := puzzle st;
     solution := solution st; cells := cells st; score_var := score_var st;
     coins_var := coins_var st; info_var := info_var st;
     dialogs := dialogs st |}.

Definition put_timer_running (v : bool) (st : app) : app :=
  {| state_data := state_data st; skin := skin st;
     current_diff := current_diff st; score := score st; coins := coins st;
     start_time := start_time st; last_correct_time := last_correct_time st;
     timer_running := v; selected := selected st;
     given_mask := given_mask st; puzzle := puzzle st;
     solution := solution st; cells := cells st; score_var := score_var st;
     coins_var := coins_var st; info_var := info_var st;
     dialogs := dialogs st |}.

Definition put_selected (v : nat * nat) (st : app) : app :=
  {| state_data := state_data st; skin := skin st;
     current_diff := current_diff st; score := score st; coins := coins st;
     start_time := start_time st; last_correct_time := last_correct_time st;
     timer_running := timer_running st; selected := v;
     given_mask := given_mask st; puzzle := puzzle st;
     solution := solution st; cells := cells st; score_var := score_var st;
     coins_var := coins_var st; info_var := info_var st;
     dialogs := dialogs st |}.

Definition put_given_mask (v : list bool) (st : app) : app :=
  {| state_data := state_data st; skin := skin st;
     current_diff := current_diff st; score := score st; coins := coins st;
     start_time := start_time st; last_correct_time := last_correct_time st;
     timer_running := timer_running st; selected := selected st;
     given_mask := v; puzzle := puzzle st; solution := solution st;
     cells := cells st; score_var := score_var st; coins_var := coins_var st;
     info_var := info_var st; dialogs := dialogs st |}.

Definition put_puzzle (v : list Z) (st : app) : app :=
  {| state_data := state_data st; skin := skin st;
     current_diff := current_diff st; score := score st; coins := coins st;
     start_time := start_time st; last_correct_time := last_correct_time st;
     timer_running := timer_running st; selected := selected st;
     given_mask := given_mask st; puzzle := v; solution := solution st;
     cells := cells st; score_var := score_var st; coins_var := coins_var st;
     info_var := info_var st; dialogs := dialogs st |}.

Definition put_solution (v : list Z) (st : app) : app :=
  {| state_data := state_data st; skin := skin st;
     current_diff := current_diff st; score := score st; coins := coins st;
     start_time := start_time st; last_correct_time := last_correct_time st;
     timer_running := timer_running st; selected := selected st;
     given_mask := given_mask st; puzzle := puzzle st; solution := v;
     cells := cells st; score_var := score_var st; coins_var := coins_var st;
     info_var := info_var st; dialogs := dialogs st |}.

Definition put_cells (v : list (list entry)) (st : app) : app :=
  {| state_data := state_data st; skin := skin st;
     current_diff := current_diff st; score := score st; coins := coins st;
     start_time := start_time st; last_correct_time := last_correct_time st;
     timer_running := timer_running st; selected := selected st;
     given_mask := given_mask st; puzzle := puzzle st;
     solution := solution st; cells := v; score_var := score_var st;
     coins_var := coins_var st; info_var := info_var st;
     dialogs := dialogs st |}.

Definition put_score_var (v : string) (st : app) : app :=
  {| state_data := state_data st; skin := skin st;
     current_diff := current_diff st; score := score st; coins := coins st;
     start_time := start_time st; last_correct_time := last_correct_time st;
     timer_running := timer_running st; selected := selected st;
     given_mask := given_mask st; puzzle := puzzle st;
     solution := solution st; cells := cells st; score_var := v;
     coins_var := coins_var st; info_var := info_var st;
     dialogs := dialogs st |}.

Definition put_coins_var (v : string) (st : app) : app :=
  {| state_data := state_data st; skin := skin st;
     current_diff := current_diff st; score := score st; coins := coins st;
     start_time := start_time st; last_correct_time := last_correct_time st;
     timer_running := timer_running st; selected := selected st;
     given_mask := given_mask st; puzzle := puzzle st;
     solution := solution st; cells := cells st; score_var := score_var st;
     coins_var := v; info_var := info_var st; dialogs := dialogs st |}.

Definition put_info_var (v : string) (st : app) : app :=
  {| state_data := state_data st; skin := skin st;
     current_diff := current_diff st; score := score st; coins := coins st;
     start_time := start_time st; last_correct_time := last_correct_time st;
     timer_running := timer_running st; selected := selected st;
     given_mask := given_mask st; puzzle := puzzle st;
     solution := solution st; cells := cells st; score_var := score_var st;
     coins_var := coins_var st; info_var := v; dialogs := dialogs st |}.

Definition put_dialogs (v : list dialog) (st : app) : app :=
  {| state_data := state_data st; skin := skin st;
     current_diff := current_diff st; score := score st; coins := coins st;
     start_time := start_time st; last_correct_time := last_correct_time st;
     timer_running := timer_running st; selected := selected st;
     given_mask := given_mask st; puzzle := puzzle st;
     solution := solution st; cells := cells st; score_var := score_var st;
     coins_var := coins_var st; info_var := info_var st; dialogs := v |}.

Definition put_save_coins (v : Z) (sd : save) : save :=
  {| save_coins := v; unlocked := unlocked sd; owned_skins := owned_skins sd;
     active_skin := active_skin sd |}.

Definition put_unlocked (v : list string) (sd : save) : save :=
  {| save_coins := save_coins sd; unlocked := v; owned_skins := owned_skins sd;
     active_skin := active_skin sd |}.

Definition put_owned_skins (v : list string) (sd : save) : save :=
  {| save_coins := save_coins sd; unlocked := unlocked sd; owned_skins := v;
     active_skin := active_skin sd |}.

Definition put_active_skin (v : string) (sd : save) : save :=
  {| save_coins := save_coins sd; unlocked := unlocked sd;
     owned_skins := owned_skins sd; active_skin := v |}.

(* ------------------------------------------------------------------ *)
(** ** The monad of the methods of [SudokuApp] *)

Inductive exn := IndexError | KeyError | ValueError.

Inductive outcome (A : Type) :=
| Ok (a : A) (st : app)
| Raise (e : exn) (st : app).
Arguments Ok {A} a st.
Arguments Raise {A} e st.

(** The state a callback leaves behind, whether it returned or raised. *)
Definition final {A} (o : outcome A) : app :=
  match o with
  | Ok _ st => st
  | Raise _ st => st
  end.

Definition M (A : Type) : Type := app -> outcome A.

Definition ret {A} (a : A) : M A := fun st => Ok a st.

Definition bind {A B} (m : M A) (k : A -> M B) : M B :=
  fun st =>
    match m st with
    | Ok a st' => k a st'
    | Raise e st' => Raise e st'
    end.

Declare Scope M_scope.
Delimit Scope M_scope with M.
Bind Scope M_scope with M.
Notation "x ← y ; z" := (bind y (fun x => z)) (only parsing) : M_scope.
Notation "x ;; z" := (bind x (fun _ => z)) (only parsing) : M_scope.
Local Open Scope M_scope.

Definition raise {A} (e : exn) : M A := fun st => Raise e st.
Definition get : M app := fun st => Ok st st.
Definition modify (f : app -> app) : M unit := fun st => Ok tt (f st).

(** An access that raises [e] when it has no result. *)
Definition orelse {A} (e : exn) (o : option A) : M A :=
  match o with
  | Some a => ret a
  | None => raise e
  end.

(** [l[i]] *)
Definition item {A} (l : list A) (i : nat) : M A := orelse IndexError (l !! i).

Fixpoint for_each {A} (l : list A) (body : A -> M unit) : M unit :=
  match l with
  | [] => ret tt
  | x :: l' => body x ;; for_each l' body
  end.

(** [l[i] = v] *)
Definition list_set {A} (i : nat) (v : A) (l : list A) : option (list A) :=
  if (i <? length l)%nat then Some (<[i:=v]> l) else None.

(** [self.cells[r][c]] *)
Definition cell_get (r c : nat) : M entry :=
  st ← get;
  row ← item (cells st) r;
  item row c.

(** A method call on the widget [self.cells[r][c]], which changes it in place. *)
Definition cell_modify (r c : nat) (f : entry -> entry) : M unit :=
  st ← get;
  row ← item (cells st) r;
  e ← item row c;
  modify (put_cells (<[r := <[c := f e]> row]> (cells st))).

Definition show (k : dialog_kind) (t msg : string) : M unit :=
  modify (fun st => put_dialogs (dialogs st ++ [{| kind := k; title := t; message := msg |}]) st).

(* ------------------------------------------------------------------ *)
(** ** Game logic *)

Definition nl : string := String (ascii_of_nat 10) EmptyString.

Definition BONUS : list (string * Z) :=
  [ ("Easy", 20); ("Medium", 40); ("Hard", 60) ]%string.

Definition order : list string := ["Easy"; "Medium"; "Hard"]%string.

(** One round of the double loop of [populate_grid]. *)
Definition populate_cell (r c : nat) : M unit :=
  cell_modify r c (entry_config false) ;;
  cell_modify r c entry_delete ;;
  st ← get;
  v ← item (puzzle st) (grid_index r c);
  if negb (v =? 0)
  then cell_modify r c (entry_insert (str v)) ;;
       cell_modify r c (entry_config true)
  else ret tt.

Definition populate_grid (now : Q) : M unit :=
  for_each (seq 0 9) (fun r => for_each (seq 0 9) (fun c => populate_cell r c)) ;;
  modify (put_selected (0%nat, 0%nat)) ;;
  modify (put_last_correct_time (Some now)).

Definition start_timer (now : Q) : M unit :=
  modify (put_start_time (Some now)) ;;
  modify (put_timer_running true).

Definition stop_timer : M unit := modify (put_timer_running false).

(** [new_game] once [random.choice] has picked [(puzzle, solution)];
    [t_grid] and [t_timer] are the two readings of the clock. *)
Definition new_game_with (rec : string * string) (t_grid t_timer : Q) : M unit :=
  pz ← orelse ValueError (parse_grid rec.1);
  modify (put_puzzle pz) ;;
  sol ← orelse ValueError (parse_grid rec.2);
  modify (put_solution sol) ;;
  modify (fun st => put_given_mask (map (fun v => negb (v =? 0)) (puzzle st)) st) ;;
  modify (put_score 0) ;;
  modify (fun st => put_score_var ("Score: " +:+ str (score st)) st) ;;
  modify (put_info_var "Fill cells. Faster correct checks = more points!") ;;
  populate_grid t_grid ;;
  start_timer t_timer.

Definition new_game (diff : string) (rnd : nat) (t_grid t_timer : Q) : M unit :=
  records ← orelse KeyError (assoc diff PUZZLES);
  rec ← orelse IndexError (choice rnd records);
  new_game_with rec t_grid t_timer.

Definition on_select (r c : nat) : M unit := modify (put_selected (r, c)).

(** The user edits the entry at [(r, c)] (keys, paste): a disabled entry
    keeps its text. [on_key], which trims what a key press leaves in the
    entry, is one such edit. *)
Definition entry_typed (r c : nat) (s : string) : M unit :=
  cell_modify r c (fun e => if disabled e then e else {| text := s; disabled := false |}).

Definition clear_selected : M unit :=
  st ← get;
  let '(r, c) := selected st in
  given ← item (given_mask st) (grid_index r c);
  if given then ret tt else cell_modify r c entry_delete.

(** [all(self.puzzle[i] == self.solution[i] for i in range(81))]: it
    stops at the first difference. *)
Fixpoint all_equal (idxs : list nat) (p s : list Z) : option bool :=
  match idxs with
  | [] => Some true
  | i :: idxs' =>
      match p !! i, s !! i with
      | Some a, Some b => if a =? b then all_equal idxs' p s else Some false
      | _, _ => None
      end
  end.

Definition is_completed : M bool :=
  st ← get;
  orelse IndexError (all_equal (seq 0 81) (puzzle st) (solution st)).

Definition on_win : M unit :=
  stop_timer ;;
  st ← get;
  let diff := current_diff st in
  bonus ← orelse KeyError (assoc diff BONUS);
  modify (fun st => put_coins (coins st + bonus) st) ;;
  modify (fun st => put_state_data (put_save_coins (coins st) (state_data st)) st) ;;
  modify (fun st => put_coins_var ("Coins: " +:+ str (coins st)) st) ;;
  i ← orelse ValueError (index_of diff order);
  unlock_msg ←
    (match order !! (i + 1)%nat with
     | Some next_diff =>
         st ← get;
         if negb (str_in next_diff (unlocked (state_data st)))
         then modify (fun st => put_state_data
                        (put_unlocked (unlocked (state_data st) ++ [next_diff])
                           (state_data st)) st) ;;
              ret (nl +:+ "Unlocked: " +:+ next_diff +:+ "!")
         else ret ""
     | None => ret ""
     end);
  st ← get;
  show showinfo "You win!"
    ("You completed " +:+ diff +:+ "!" +:+ nl +:+ "Score: " +:+ str (score st)
       +:+ nl +:+ "+" +:+ str bonus +:+ " coins." +:+ unlock_msg).

(** [if self.is_completed(): self.on_win()], the last two lines of
    [check_selected] and of [give_hint]. *)
Definition check_win : M unit :=
  done ← is_completed;
  if done then on_win else ret tt.

(** [self.last_correct_time or now] *)
Definition or_now (last : option Q) (now : Q) : Q :=
  match last with
  | Some t => if Qeq_bool t 0 then now else t
  | None => now
  end.

(** The points of a correct entry checked at [now]. *)
Definition points (last : option Q) (now : Q) : Z :=
  Z.max 1 (20 - int_of_float (now - or_now last now)).

Definition check_selected (now : Q) : M unit :=
  st ← get;
  let '(r, c) := selected st in
  let idx := grid_index r c in
  given ← item (given_mask st) idx;
  if given then modify (put_info_var "This is a given cell.")
  else
    e ← cell_get r c;
    let text := strip (text e) in
    if String.eqb text "" || negb (isdigit text)
    then modify (put_info_var "Enter a digit (1-9).")
    else
      guess ← orelse ValueError (py_int text);
      sol ← item (solution st) idx;
      if guess =? sol
      then
        let pts := points (last_correct_time st) now in
        modify (put_last_correct_time (Some now)) ;;
        modify (fun st => put_score (score st + pts) st) ;;
        modify (fun st => put_coins (coins st + pts / 5) st) ;;
        modify (fun st => put_state_data (put_save_coins (coins st) (state_data st)) st) ;;
        modify (fun st => put_score_var ("Score: " +:+ str (score st)) st) ;;
        modify (fun st => put_coins_var ("Coins: " +:+ str (coins st)) st) ;;
        cell_modify r c (entry_config true) ;;
        st ← get;
        pz ← orelse IndexError (list_set idx guess (puzzle st));
        modify (put_puzzle pz) ;;
        st ← get;
        gm ← orelse IndexError (list_set idx true (given_mask st));
        modify (put_given_mask gm) ;;
        check_win
      else
        modify (fun st => put_score (Z.max 0 (score st - 1)) st) ;;
        modify (fun st => put_score_var ("Score: " +:+ str (score st)) st) ;;
        modify (put_info_var "Wrong. Try again.")
  .

(** [[i for i in range(81) if not self.given_mask[i]]] *)
Fixpoint unsolved (idxs : list nat) (mask : list bool) : option (list nat) :=
  match idxs with
  | [] => Some []
  | i :: idxs' =>
      match mask !! i with
      | Some true => unsolved idxs' mask
      | Some false => cons i <$> unsolved idxs' mask
      | None => None
      end
  end.

Definition give_hint (rnd : nat) : M unit :=
  st ← get;
  empties ← orelse IndexError (unsolved (seq 0 81) (given_mask st));
  match empties with
  | [] => ret tt
  | _ :: _ =>
      i ← orelse IndexError (choice rnd empties);
      let r := (i / 9)%nat in
      let c := (i mod 9)%nat in
      val ← item (solution st) i;
      cell_modify r c entry_delete ;;
      cell_modify r c (entry_insert (str val)) ;;
      cell_modify r c (entry_config true) ;;
      st ← get;
      pz ← orelse IndexError (list_set i val (puzzle st));
      modify (put_puzzle pz) ;;
      st ← get;
      gm ← orelse IndexError (list_set i true (given_mask st));
      modify (put_given_mask gm) ;;
      modify (fun st => put_score (Z.max 0 (score st - 5)) st) ;;
      modify (fun st => put_score_var ("Score: " +:+ str (score st)) st) ;;
      check_win
  end.

(** [on_diff_change], which runs once the combobox has written the
    selected value to [current_diff]. *)
Definition on_diff_change (rnd : nat) (t_grid t_timer : Q) : M unit :=
  st ← get;
  let diff := current_diff st in
  if negb (str_in diff (unlocked (state_data st)))
  then
    show showinfo "Locked"
      (diff +:+ " is locked. Finish the previous difficulty to unlock.") ;;
    allowed ← orelse IndexError (last (unlocked (state_data st)));
    modify (put_current_diff allowed)
  else new_game diff rnd t_grid t_timer.

(** Picking [diff] in the difficulty combobox. *)
Definition select_difficulty (diff : string) (rnd : nat) (t_grid t_timer : Q) : M unit :=
  modify (put_current_diff diff) ;;
  on_diff_change rnd t_grid t_timer.

(** The "New Game" button. *)
Definition new_game_button (rnd : nat) (t_grid t_timer : Q) : M unit :=
  st ← get;
  new_game (current_diff st) rnd t_grid t_timer.

(* ------------------------------------------------------------------ *)
(** ** Shop *)

Inductive shop_button := Activate | Buy (price : Z).

(** The rows [open_shop] builds: a skin and the button next to it. *)
Definition shop_row (st : app) (name : string) : string * shop_button :=
  if String.eqb name "Classic" then (name, Activate)
  else
    let owned := str_in name (owned_skins (state_data st)) in
    let price := default 0 (assoc name SKIN_PRICES) in
    if owned then (name, Activate) else (name, Buy price).

Definition open_shop (st : app) : list (string * shop_button) :=
  map (shop_row st) SKINS.

Definition buy_skin (name : string) (price : Z) : M unit :=
  st ← get;
  if coins st <? price
  then show showwarning "Not enough coins" "You don't have enough coins."
  else
    modify (fun st => put_coins (coins st - price) st) ;;
    modify (fun st => put_state_data (put_save_coins (coins st) (state_data st)) st) ;;
    modify (fun st => put_state_data
              (put_owned_skins (owned_skins (state_data st) ++ [name]) (state_data st)) st) ;;
    modify (fun st => put_coins_var ("Coins: " +:+ str (coins st)) st) ;;
    show showinfo "Purchased" ("You bought '" +:+ name +:+ "'!").

Definition set_skin (name : string) : M unit :=
  st ← get;
  if negb (str_in name (owned_skins (state_data st)))
  then show showerror "Locked" "You don't own this skin yet."
  else
    modify (fun st => put_state_data (put_active_skin name (state_data st)) st) ;;
    (if str_in name SKINS then ret tt else raise KeyError) ;;
    modify (put_skin name).

(** The click on a button of a shop window. A window stays as it was
    built: [buy_skin] closes the one it was called from and opens a new
    one, the others keep their buttons. *)
Definition shop_click (name : string) (b : shop_button) : M unit :=
  match b with
  | Activate => set_skin name
  | Buy price => buy_skin name price
  end.

(* ------------------------------------------------------------------ *)
(** ** Start-up and the event loop *)

Definition blank_entry : entry := {| text := ""; disabled := false |}.

(** [__init__] from the loaded save, up to the first [new_game]. *)
Definition init_fields (sd : save) : app :=
  {| state_data := sd; skin := active_skin sd; current_diff := "Easy";
     score := 0; coins := save_coins sd; start_time := None;
     last_correct_time := None; timer_running := false;
     selected := (0%nat, 0%nat); given_mask := replicate 81 false;
     puzzle := replicate 81 0; solution := replicate 81 0;
     cells := replicate 9 (replicate 9 blank_entry);
     score_var := "Score: 0"; coins_var := "Coins: " +:+ str (save_coins sd);
     info_var := "Tip: Select a cell, type 1-9, then click 'Check Selected'.";
     dialogs := [] |}.

Definition init (sd : save) (rnd : nat) (t_grid t_timer : Q) : outcome unit :=
  if str_in (active_skin sd) SKINS          (* SKINS[state_data["active_skin"]] *)
  then new_game "Easy" rnd t_grid t_timer (init_fields sd)
  else Raise KeyError (init_fields sd).

(** What the user can do with the main window and the shop. *)
Inductive action :=
| Select (r c : nat)
| Type_ (r c : nat) (s : string)
| Check (now : Q)
| Clear
| Hint (rnd : nat)
| NewGame (rnd : nat) (t_grid t_timer : Q)
| Difficulty (diff : string) (rnd : nat) (t_grid t_timer : Q)
| Shop (name : string) (b : shop_button).

Definition callback (a : action) : M unit :=
  match a with
  | Select r c => on_select r c
  | Type_ r c s => entry_typed r c s
  | Check now => check_selected now
  | Clear => clear_selected
  | Hint rnd => give_hint rnd
  | NewGame rnd t1 t2 => new_game_button rnd t1 t2
  | Difficulty d rnd t1 t2 => select_difficulty d rnd t1 t2
  | Shop name b => shop_click name b
  end.

(** The main loop: the callbacks run one after the other, and one that
    raises leaves its state to the next. *)
Fixpoint run (acts : list action) (st : app) : app :=
  match acts with
  | [] => st
  | a :: acts' => run acts' (final (callback a st))
  end.

(** The actions that leave the board of the game in play in place. *)
Definition in_game (a : action) : bool :=
  match a with
  | NewGame _ _ _ | Difficulty _ _ _ _ => false
  | _ => true
  end.

(* ------------------------------------------------------------------ *)
(** ** The key filter, the clock text and the saved file *)

(** [ch[-1]], for a [ch] that is not empty. *)
Fixpoint last_char (s : string) : string :=
  match s with
  | EmptyString => EmptyString
  | String ch s' =>
      match s' with
      | EmptyString => String ch EmptyString
      | String _ _ => last_char s'
      end
  end.

(** [on_key(r, c, ev)], with [ev.keysym] and [ev.char]. *)
Definition on_key (r c : nat) (keysym ch : string) : M unit :=
  if str_in keysym ["BackSpace"; "Delete"]%string then ret tt
  else if negb (isdigit ch) || String.eqb ch "0"
  then cell_modify r c entry_delete
  else
    let val := last_char ch in
    cell_modify r c entry_delete ;;
    cell_modify r c (entry_insert val).

(** [f"{n:02d}"] *)
Definition pad2 (n : Z) : string :=
  let s := str n in
  if (String.length s <? 2)%nat then "0" +:+ s else s.

Definition format_time (seconds : Q) : string :=
  let m := int_of_float seconds / 60 in
  let s := int_of_float seconds mod 60 in
  pad2 m +:+ ":" +:+ pad2 s.

(** The dict [state_data] of a typed save, as [json.dump] writes it and
    [json.load] reads it back. *)
Definition json_of_save (sd : save) : json :=
  JObj (list_to_map
          [ ("coins", JInt (save_coins sd));
            ("unlocked", JArr (JStr <$> unlocked sd));
            ("owned_skins", JArr (JStr <$> owned_skins sd));
            ("active_skin", JStr (active_skin sd)) ]%string).

(** The callbacks that raise along a run, each with the state it was
    called in. *)
Fixpoint raised (acts : list action) (st : app) : list (action * app) :=
  match acts with
  | [] => []
  | a :: acts' =>
      match callback a st with
      | Ok _ st' => raised acts' st'
      | Raise _ st' => (a, st) :: raised acts' st'
      end
  end.

(** The callbacks run one after the other, stopping at the first that
    raises. *)
Fixpoint run_strict (acts : list action) (st : app) : outcome unit :=
  match acts with
  | [] => Ok tt st
  | a :: acts' =>
      match callback a st with
      | Ok _ st' => run_strict acts' st'
      | Raise e st' => Raise e st'
      end
  end.

(* ------------------------------------------------------------------ *)
(** ** The vocabulary of the properties *)

(** What a callback of the game leaves alone once the entry is scored:
    the score, the stamp, the board, the selection and the grid. *)
Definition session_of (st0 st : app) : Prop :=
  score st = score st0 /\ last_correct_time st = last_correct_time st0 /\
  given_mask st = given_mask st0 /\ puzzle st = puzzle st0 /\
  solution st = solution st0 /\ cells st = cells st0 /\
  selected st = selected st0 /\ current_diff st = current_diff st0.

(** The completion bonus an entry brings: that of the selected difficulty
    when the board is complete with it, nothing otherwise. *)
Definition win_bonus (diff : string) (pz sol : list Z) : Z :=
  match all_equal (seq 0 81) pz sol with
  | Some true => default 0 (assoc diff BONUS)
  | _ => 0
  end.

(** The number [check_selected] reads in the selected entry: the value
    [int] gives for the stripped text, when the text is made of digits
    and [int] accepts it. *)
Definition read_guess (st : app) : option Z :=
  let '(r, c) := selected st in
  match cells st !! r ≫= (.!! c) with
  | Some e =>
      let text := strip (text e) in
      if String.eqb text "" || negb (isdigit text) then None else py_int text
  | None => None
  end.

(** The index of the selected cell. *)
Definition selected_index (st : app) : nat :=
  grid_index (selected st).1 (selected st).2.

(** [delta] of [check_selected]. *)
Definition delta (st : app) (now : Q) : Q :=
  (now - or_now (last_correct_time st) now)%Q.

(** The shape of the board between two callbacks: 81 cells in the three
    lists, 9 rows of 9 entries. *)
Definition board_ok (st : app) : Prop :=
  length (given_mask st) = 81%nat /\ length (puzzle st) = 81%nat /\
  length (solution st) = 81%nat /\ length (cells st) = 9%nat /\
  Forall (fun row => length row = 9%nat) (cells st).

(** The cells a hint can reveal: those whose mask is unset. *)
Definition unsolved_cells (st : app) : list nat :=
  filter (fun i => given_mask st !! i = Some false) (seq 0 81).

(** The grid has an entry at [(r, c)]. *)
Definition has_cell (r c : nat) (cs : list (list entry)) : Prop :=
  exists row e, cs !! r = Some row /\ row !! c = Some e.

(** The invariant of a puzzle record: a digit that is filled in is the
    digit of the solution. *)
Definition record_inv (pz sol : list Z) : Prop :=
  forall i v, pz !! i = Some v -> v <> 0 -> sol !! i = Some v.

(** Its test on a given record. *)
Fixpoint record_ok (pz sol : list Z) : bool :=
  match pz, sol with
  | [], _ => true
  | v :: pz', [] => (v =? 0) && record_ok pz' []
  | v :: pz', s :: sol' => ((v =? 0) || (v =? s)) && record_ok pz' sol'
  end.

(** The invariant of the board: a cell whose mask is set holds the digit
    of the solution. *)
Definition board_inv (st : app) : Prop :=
  forall i, given_mask st !! i = Some true ->
            exists v, puzzle st !! i = Some v /\ solution st !! i = Some v.

(** The board of a game in play: the solution is [sol], the cells that
    were given in [mask0] are still given, and the invariant holds. *)
Definition locked_in (mask0 : list bool) (sol : list Z) (st : app) : Prop :=
  solution st = sol /\
  (forall i, mask0 !! i = Some true -> given_mask st !! i = Some true) /\
  board_inv st.

(** The records of [PUZZLES] whose filled digits are those of their
    solution: the first Easy one and the first Medium one. In the four
    others a filled digit differs from the solution. *)
Definition catalog_check : list (string * list bool) :=
  map (fun kv =>
         (kv.1, map (fun rec : string * string =>
                       match parse_grid rec.1, parse_grid rec.2 with
                       | Some pz, Some sol => record_ok pz sol
                       | _, _ => false
                       end) kv.2))
      PUZZLES.

(** Nine rows of nine entries. *)
Definition grid_ok (cs : list (list entry)) : Prop :=
  length cs = 9%nat /\ Forall (fun row => length row = 9%nat) cs.

(** The invariant of [unlocked]: a prefix of the order of the tiers that
    starts with Easy. *)
Definition unlocked_ok (u : list string) : Prop :=
  u <> [] /\ u `prefix_of` order.

(** [d] is the highest tier of [u] in the order of the tiers. *)
Definition highest_unlocked (u : list string) (d : string) : Prop :=
  In d u /\
  forall x, In x u ->
    exists rx rd, index_of x order = Some rx /\ index_of d order = Some rd /\
                  (rx <= rd)%nat.

(** The tier after [d] in the order of the tiers. *)
Definition successor (d : string) : option string :=
  match index_of d order with
  | Some i => order !! (i + 1)%nat
  | None => None
  end.

(** The entry at [(r, c)] of the grid. *)
Definition cell_at (cs : list (list entry)) (r c : nat) : option entry :=
  cs !! r ≫= (.!! c).

(** The grid with the entry at [(r, c)] replaced. *)
Definition upd (r c : nat) (e : entry) (cs : list (list entry)) : list (list entry) :=
  match cs !! r with
  | Some row => <[r := <[c := e]> row]> cs
  | None => cs
  end.

(** The entry [populate_grid] leaves for a cell that holds [v]. *)
Definition populated (v : Z) : entry :=
  if negb (v =? 0) then {| text := str v; disabled := true |}
  else {| text := ""; disabled := false |}.

(** An entry is disabled exactly when its cell is given. *)
Definition widgets_ok (st : app) : Prop :=
  forall r c e, (r < 9)%nat -> (c < 9)%nat -> cell_at (cells st) r c = Some e ->
                given_mask st !! grid_index r c = Some (disabled e).

(** A save the application can start from. *)
Definition save_ok (sd : save) : Prop :=
  unlocked_ok (unlocked sd) /\ 0 <= save_coins sd /\
  In (active_skin sd) (owned_skins sd) /\ In (active_skin sd) SKINS.

(** The state between two callbacks of a running application. *)
Definition sound (st : app) : Prop :=
  board_ok st /\ widgets_ok st /\
  ((selected st).1 < 9)%nat /\ ((selected st).2 < 9)%nat /\
  unlocked_ok (unlocked (state_data st)) /\
  In (current_diff st) (unlocked (state_data st)) /\
  coins st = save_coins (state_data st) /\ 0 <= coins st /\ 0 <= score st /\
  In (active_skin (state_data st)) (owned_skins (state_data st)) /\
  In (active_skin (state_data st)) SKINS /\
  skin st = active_skin (state_data st).

(** The actions the widgets can send: a cell of the grid, a skin of the
    catalog. *)
Definition valid (a : action) : bool :=
  match a with
  | Select r c | Type_ r c _ => (r <? 9)%nat && (c <? 9)%nat
  | Shop name _ => str_in name SKINS
  | _ => true
  end.

(** The stripped text of the selected entry. *)
Definition selected_text (st : app) : option string :=
  let '(r, c) := selected st in
  (fun e => strip (text e)) <$> cell_at (cells st) r c.

(** The superscript digits below 256: [isdigit()] accepts them and
    [int] refuses them. *)
Definition superscripts : list string :=
  [ String (ascii_of_nat 178) EmptyString;
    String (ascii_of_nat 179) EmptyString;
    String (ascii_of_nat 185) EmptyString ].

(** A text of ASCII characters, at most 4300 of them. *)
Fixpoint ascii_text (s : string) : bool :=
  match s with
  | EmptyString => true
  | String ch s' => (nat_of_ascii ch <? 128)%nat && ascii_text s'
  end.

Definition plain_text (s : string) : bool :=
  ascii_text s && (Z.of_nat (String.length s) <=? max_str_digits).

(** The actions of [valid] in which what is typed is such a text. *)
Definition plain (a : action) : bool :=
  valid a &&
  match a with
  | Type_ _ _ s => plain_text s
  | _ => true
  end.

(** The entries that can be edited hold such texts. *)
Definition texts_plain (st : app) : Prop :=
  forall r c e, cell_at (cells st) r c = Some e -> disabled e = false ->
                plain_text (text e) = true.

(** The given cell [i] holds [a] where the solution has [b]. *)
Definition spoiled (i : nat) (a b : Z) (st : app) : Prop :=
  (i < 81)%nat /\ given_mask st !! i = Some true /\
  puzzle st !! i = Some a /\ solution st !! i = Some b.

(** A board with such a cell, the tiers [u] unlocked and the clock in
    state [t]. *)
Definition stuck (i : nat) (a b : Z) (u : list string) (t : bool) (st : app) : Prop :=
  spoiled i a b st /\ unlocked (state_data st) = u /\ timer_running st = t.

(** The test of [board_inv] on the 81 cells. *)
Definition board_inv_test (st : app) : bool :=
  forallb (fun i =>
             match given_mask st !! i with
             | Some true =>
                 match puzzle st !! i, solution st !! i with
                 | Some a, Some b => a =? b
                 | _, _ => false
                 end
             | _ => true
             end) (seq 0 81).

(* ------------------------------------------------------------------ *)
(** ** Sample states *)

(** The save of a first start. *)
Definition fresh_save : save :=
  {| save_coins := 0; unlocked := ["Easy"%string];
     owned_skins := ["Classic"%string]; active_skin := "Classic" |}.

(** The first Easy puzzle, drawn when the application starts at time 100. *)
Definition opening : app := Eval vm_compute in final (init fresh_save 0 100 100).

(** The player has typed the right digit, 4, in row 0, column 2. *)
Definition right_guess : app :=
  Eval vm_compute in run [Select 0 2; Type_ 0 2 "4"] opening.

(** The player has typed a wrong digit in the same cell. *)
Definition wrong_guess : app :=
  Eval vm_compute in run [Select 0 2; Type_ 0 2 " 7 "] opening.

(** The same board with every cell given. *)
Definition all_given : app :=
  Eval vm_compute in put_given_mask (replicate 81 true) opening.

(** A start-up with Medium unlocked. *)
Definition medium_unlocked : app :=
  Eval vm_compute in
  final (init {| save_coins := 20; unlocked := ["Easy"; "Medium"]%string;
                 owned_skins := ["Classic"%string]; active_skin := "Classic" |}
           0 100 100).

(** Three purses in front of the shop: 40 coins, 100 coins, and 100
    coins with the Ocean skin bought before. *)
Definition poor_shopper : app :=
  init_fields {| save_coins := 40; unlocked := ["Easy"%string];
                 owned_skins := ["Classic"%string]; active_skin := "Classic" |}.

Definition rich_shopper : app :=
  init_fields {| save_coins := 100; unlocked := ["Easy"%string];
                 owned_skins := ["Classic"%string]; active_skin := "Classic" |}.

Definition ocean_owner : app :=
  init_fields {| save_coins := 100; unlocked := ["Easy"%string];
                 owned_skins := ["Classic"; "Ocean"]%string; active_skin := "Classic" |}.

(** A session on a fresh save: the player completes the first Easy
    puzzle with hints (Medium unlocks, 20 coins), asks for a new game,
    which is an Easy one again, picks Hard in the combobox, which is
    refused, and completes the Easy board in play with hints. *)
Definition first_win : app := run (repeat (Hint 0) 51) opening.

Definition easy_again : app :=
  run [NewGame 0 200 200; Difficulty "Hard" 0 300 300] first_win.

Definition second_win : app := run (repeat (Hint 0) 51) easy_again.

(* ================================================================== *)
(** * Properties *)

(** ** Reasoning about callbacks *)

(** [stable I m]: the callback [m] keeps [I], whether it returns or raises. *)
Definition stable {A} (I : app -> Prop) (m : M A) : Prop :=
  forall st, I st -> I (final (m st)).

Lemma final_bind {A B} (m : M A) (k : A -> M B) st :
  final (bind m k st) =
  match m st with
  | Ok a st' => final (k a st')
  | Raise _ st' => st'
  end.
Proof. unfold bind. destruct (m st); reflexivity. Qed.

Section Stable.
Context (I : app -> Prop).

Lemma stable_ret {A} (a : A) : stable I (ret a).
Proof. intros st H. exact H. Qed.

Lemma stable_raise {A} e : stable I (@raise A e).
Proof. intros st H. exact H. Qed.

Lemma stable_get : stable I get.
Proof. intros st H. exact H. Qed.

Lemma stable_orelse {A} e (o : option A) : stable I (orelse e o).
Proof. destruct o; [apply stable_ret | apply stable_raise]. Qed.

Lemma stable_item {A} (l : list A) i : stable I (item l i).
Proof. apply stable_orelse. Qed.

Lemma stable_bind {A B} (m : M A) (k : A -> M B) :
  stable I m -> (forall a, stable I (k a)) -> stable I (bind m k).
Proof.
  intros Hm Hk st H. rewrite final_bind.
  specialize (Hm st H). destruct (m st) as [a st'|e st']; simpl in Hm.
  - apply Hk, Hm.
  - exact Hm.
Qed.

Lemma stable_modify f : (forall st, I st -> I (f st)) -> stable I (modify f).
Proof. intros Hf st H. apply Hf, H. Qed.

Lemma stable_for_each {A} (l : list A) body :
  (forall x, stable I (body x)) -> stable I (for_each l body).
Proof.
  intros Hb. induction l as [|x l IH]; simpl.
  - apply stable_ret.
  - apply stable_bind; [apply Hb | intros _; exact IH].
Qed.

Lemma stable_if {A} (b : bool) (m1 m2 : M A) :
  stable I m1 -> stable I m2 -> stable I (if b then m1 else m2).
Proof. destruct b; auto. Qed.
End Stable.

(** One step of a proof of stability: a bind, a loop, a branch. *)
Ltac stable_step :=
  lazymatch goal with
  | |- stable _ (bind _ _) => apply stable_bind; [| intros ? ]
  | |- stable _ (for_each _ _) => apply stable_for_each; intros ?
  | |- stable _ (let '(_, _) := ?p in _) => destruct p
  | |- stable _ (match ?o with Some _ => _ | None => _ end) => destruct o
  | |- stable _ (if _ then _ else _) => apply stable_if
  | |- stable _ (ret _) => apply stable_ret
  | |- stable _ (raise _) => apply stable_raise
  | |- stable _ get => apply stable_get
  | |- stable _ (orelse _ _) => apply stable_orelse
  | |- stable _ (item _ _) => apply stable_item
  | |- stable _ (modify _) => apply stable_modify; intros ? ?
  end.

Lemma cell_modify_stable I r c f :
  (forall st v, I st -> I (put_cells v st)) -> stable I (cell_modify r c f).
Proof.
  intros H. unfold cell_modify. repeat stable_step. apply H. assumption.
Qed.

Lemma show_stable I k t msg :
  (forall st v, I st -> I (put_dialogs v st)) -> stable I (show k t msg).
Proof. intros H. unfold show. stable_step. apply H. assumption. Qed.

(* ------------------------------------------------------------------ *)
(** ** SaveStore: [load_state] *)

Lemma ensure_keys_dict (items : list (string * json)) (m : gmap string json) :
  ensure_keys items (JObj m) = Some (JObj (m ∪ list_to_map items)).
Proof.
  revert m. induction items as [|[k v] items IH]; intros m; simpl.
  - by rewrite (right_id_L ∅ (∪)).
  - destruct (m !! k) as [w|] eqn:Hk.
    + rewrite bool_decide_eq_true_2 by eauto. rewrite IH. do 2 f_equal.
      apply map_eq. intros j. rewrite !lookup_union.
      destruct (decide (k = j)) as [<-|Hne].
      * rewrite Hk, lookup_insert_eq. by destruct (list_to_map items !! k).
      * by rewrite lookup_insert_ne.
    + rewrite bool_decide_eq_false_2 by (intros [? ?]; congruence).
      simpl. rewrite IH. do 2 f_equal.
      apply map_eq. intros j. rewrite !lookup_union.
      destruct (decide (k = j)) as [<-|Hne].
      * rewrite Hk, !lookup_insert_eq. by destruct (list_to_map items !! k).
      * by rewrite !lookup_insert_ne.
Qed.

(** A file that holds a JSON value without members comes to the default. *)
Lemma load_state_scalar (v : json) :
  json_contains "coins" v = None -> load_state (Loads v) = JObj DEFAULT_SAVE.
Proof. intros H. simpl. by rewrite H. Qed.

(** C5. [load_state] returns the default save (coins 0, unlocked [Easy],
    owned skins [Classic], active skin Classic) when the save file is
    absent and when reading or parsing it raises; when the file holds a
    JSON object, every member it has is returned unchanged and exactly
    the ones of the four fields it lacks are filled from the default. *)
Theorem load_state_defaults_and_backfill :
  load_state Missing = JObj DEFAULT_SAVE /\
  load_state Unreadable = JObj DEFAULT_SAVE /\
  save_of_json (JObj DEFAULT_SAVE) =
    Some {| save_coins := 0; unlocked := ["Easy"%string];
            owned_skins := ["Classic"%string]; active_skin := "Classic" |} /\
  (forall k, is_Some (DEFAULT_SAVE !! k) <->
             k ∈ ["coins"; "unlocked"; "owned_skins"; "active_skin"]%string) /\
  forall m : gmap string json,
    load_state (Loads (JObj m)) = JObj (m ∪ DEFAULT_SAVE) /\
    forall k, (m ∪ DEFAULT_SAVE) !! k =
              match m !! k with
              | Some v => Some v
              | None => DEFAULT_SAVE !! k
              end.
Proof.
  split; [reflexivity|]. split; [reflexivity|]. split; [reflexivity|].
  split.
  - intros k. unfold DEFAULT_SAVE. rewrite <- elem_of_dom.
    rewrite dom_list_to_map_L. simpl. set_solver.
  - intros m. split.
    + unfold load_state. by rewrite ensure_keys_dict.
    + intros k. rewrite lookup_union. by destruct (m !! k), (DEFAULT_SAVE !! k).
Qed.

(* ------------------------------------------------------------------ *)
(** ** ShopEngine: [open_shop], [buy_skin], [set_skin] *)

Lemma str_in_In x l : str_in x l = true <-> In x l.
Proof.
  unfold str_in. rewrite existsb_exists. split.
  - intros (y & Hy & Heq). apply String.eqb_eq in Heq. by subst.
  - intros H. exists x. split; [done | apply String.eqb_refl].
Qed.

(** C6. With fewer coins than the price, [buy_skin] only shows the "Not
    enough coins" warning: coins and owned skins stay as they are. With
    enough coins it takes exactly the price and appends the skin to the
    owned skins. *)
Theorem buy_skin_checks_balance (st : app) (name : string) (price : Z) :
  (coins st < price ->
   buy_skin name price st =
     Ok tt (put_dialogs (dialogs st ++ [{| kind := showwarning;
                                          title := "Not enough coins";
                                          message := "You don't have enough coins." |}]) st)
   /\ coins (final (buy_skin name price st)) = coins st
   /\ state_data (final (buy_skin name price st)) = state_data st) /\
  (price <= coins st ->
   exists st', buy_skin name price st = Ok tt st'
   /\ coins st' = coins st - price
   /\ save_coins (state_data st') = coins st - price
   /\ owned_skins (state_data st') = owned_skins (state_data st) ++ [name]
   /\ unlocked (state_data st') = unlocked (state_data st)
   /\ active_skin (state_data st') = active_skin (state_data st)).
Proof.
  split; intros H.
  - assert (Hlt : (coins st <? price) = true) by (apply Z.ltb_lt; exact H).
    unfold buy_skin, bind, get, show, modify. rewrite Hlt. simpl. auto.
  - assert (Hge : (coins st <? price) = false) by (apply Z.ltb_ge; exact H).
    unfold buy_skin, bind, get, show, modify. rewrite Hge.
    eexists. split; [reflexivity|]. simpl. auto.
Qed.

Lemma buy_skin_checks_balance_witness :
  (coins (final (buy_skin "Ocean" 60 poor_shopper)) = 40 /\
   owned_skins (state_data (final (buy_skin "Ocean" 60 poor_shopper))) = ["Classic"%string]) /\
  (exists st', buy_skin "Ocean" 60 rich_shopper = Ok tt st' /\ coins st' = 40 /\
               owned_skins (state_data st') = ["Classic"; "Ocean"]%string).
Proof.
  split.
  - destruct (buy_skin_checks_balance poor_shopper "Ocean" 60) as [Hlow _].
    destruct Hlow as (_ & Hc & Hs); [simpl; lia|].
    rewrite Hc, Hs. split; reflexivity.
  - destruct (buy_skin_checks_balance rich_shopper "Ocean" 60) as [_ Hhigh].
    destruct Hhigh as (st' & Hrun & Hc & _ & Ho & _); [simpl; lia|].
    exists st'. split; [exact Hrun|]. split; [exact Hc | exact Ho].
Defined.

(** [buy_skin] has no test of ownership. Called for a skin that is
    owned, with the coins for it, it takes the price again and appends
    the skin a second time. *)
Lemma buy_skin_owned_pays_again :
  str_in "Ocean" (owned_skins (state_data ocean_owner)) = true /\
  coins ocean_owner = 100 /\
  coins (final (buy_skin "Ocean" 60 ocean_owner)) = 40 /\
  owned_skins (state_data (final (buy_skin "Ocean" 60 ocean_owner))) =
    ["Classic"; "Ocean"; "Ocean"]%string.
Proof. repeat split. Qed.

Lemma shop_row_owned st name :
  str_in name (owned_skins (state_data st)) = true ->
  shop_row st name = (name, Activate).
Proof.
  intros H. unfold shop_row. rewrite H. by destruct (String.eqb name "Classic").
Qed.

Lemma set_skin_keeps_purse name :
  forall c sd,
    stable (fun st => coins st = c /\ save_coins (state_data st) = save_coins sd /\
                      owned_skins (state_data st) = owned_skins sd /\
                      unlocked (state_data st) = unlocked sd) (set_skin name).
Proof.
  intros c sd. unfold set_skin.
  repeat stable_step; try assumption.
  apply show_stable. intros; assumption.
Qed.

(** The test of ownership is made where the shop window is built: for a
    skin that is owned, [open_shop] puts no Buy button, and the Activate
    button it puts next to a skin of the catalog leads to [set_skin],
    which leaves the coins and the owned skins as they are. *)
Theorem shop_offers_no_buy_for_owned (st : app) (name : string) :
  str_in name (owned_skins (state_data st)) = true ->
  (forall price, ~ In (name, Buy price) (open_shop st)) /\
  (In name SKINS -> In (name, Activate) (open_shop st)) /\
  coins (final (shop_click name Activate st)) = coins st /\
  save_coins (state_data (final (shop_click name Activate st))) =
    save_coins (state_data st) /\
  owned_skins (state_data (final (shop_click name Activate st))) =
    owned_skins (state_data st).
Proof.
  intros Howned. split; [|split].
  - intros price Hin. unfold open_shop in Hin. apply in_map_iff in Hin.
    destruct Hin as (n & Hrow & _).
    assert (n = name) as ->.
    { unfold shop_row in Hrow.
      destruct (String.eqb n "Classic"); [congruence|].
      destruct (str_in n _); congruence. }
    rewrite shop_row_owned in Hrow by exact Howned. discriminate.
  - intros Hin. unfold open_shop. apply in_map_iff.
    exists name. split; [apply shop_row_owned, Howned | exact Hin].
  - pose proof (set_skin_keeps_purse name (coins st) (state_data st) st) as H.
    simpl in H. destruct H as (Hc & Hs & Ho & _); auto.
Qed.

Lemma shop_offers_no_buy_for_owned_witness :
  ~ In ("Ocean"%string, Buy 60) (open_shop ocean_owner) /\
  In ("Ocean"%string, Activate) (open_shop ocean_owner) /\
  coins (final (shop_click "Ocean" Activate ocean_owner)) = 100.
Proof.
  destruct (shop_offers_no_buy_for_owned ocean_owner "Ocean") as (Hbuy & Hact & Hc & _).
  - reflexivity.
  - split; [apply Hbuy|]. split; [apply Hact; simpl; auto | exact Hc].
Defined.

Lemma open_shop_buy st name price :
  In (name, Buy price) (open_shop st) ->
  In name SKINS /\ price = 60 /\
  str_in name (owned_skins (state_data st)) = false.
Proof.
  unfold open_shop, SKINS. simpl. unfold shop_row. simpl.
  intros [H|[H|[H|[H|[]]]]]; try discriminate H;
    match type of H with
    | context [str_in ?n ?l] => destruct (str_in n l) eqn:Hown
    end; try discriminate H;
    injection H as <- <-; auto 10.
Qed.

(** C1. A purchase of an owned skin is not refused by [buy_skin], and a
    Buy button reaches it: with two shop windows built while the skin is
    not owned, the Buy button of the first buys the skin, after which
    [open_shop] offers no Buy button for it; the Buy button of the second
    window, built before, still calls [buy_skin], which takes the price
    again and appends the skin a second time. *)
Theorem stale_buy_button_charges_twice (st : app) (name : string) (price : Z) :
  In (name, Buy price) (open_shop st) ->
  2 * price <= coins st ->
  let st1 := final (shop_click name (Buy price) st) in
  let st2 := final (shop_click name (Buy price) st1) in
  valid (Shop name (Buy price)) = true /\
  shop_click name (Buy price) st = Ok tt st1 /\
  In name (owned_skins (state_data st1)) /\
  (forall p, ~ In (name, Buy p) (open_shop st1)) /\
  shop_click name (Buy price) st1 = Ok tt st2 /\
  coins st2 = coins st - 2 * price /\
  owned_skins (state_data st2) = owned_skins (state_data st) ++ [name; name].
Proof.
  intros Hbtn Hcoins st1 st2.
  destruct (open_shop_buy st name price Hbtn) as (Hname & -> & Hnot).
  assert (H1 : (coins st <? 60) = false) by (apply Z.ltb_ge; lia).
  assert (Hrun1 : shop_click name (Buy 60) st = Ok tt st1).
  { unfold st1. simpl. unfold buy_skin, bind, get, show, modify. by rewrite H1. }
  assert (Hc1 : coins st1 = coins st - 60 /\
                owned_skins (state_data st1) = owned_skins (state_data st) ++ [name]).
  { unfold st1. simpl. unfold buy_skin, bind, get, show, modify. rewrite H1. by split. }
  destruct Hc1 as [Hc1 Ho1].
  assert (H2 : (coins st1 <? 60) = false) by (apply Z.ltb_ge; lia).
  assert (Hown1 : In name (owned_skins (state_data st1))).
  { rewrite Ho1. apply in_or_app. right. by left. }
  split; [exact (proj2 (str_in_In name SKINS) Hname)|]. split; [exact Hrun1|].
  split; [exact Hown1|]. split.
  { intros p Hp. apply open_shop_buy in Hp as (_ & _ & Hp).
    apply str_in_In in Hown1. congruence. }
  assert (Hrun2 : shop_click name (Buy 60) st1 = Ok tt st2).
  { unfold st2. simpl. unfold buy_skin, bind, get, show, modify. by rewrite H2. }
  split; [exact Hrun2|].
  unfold st2. simpl. unfold buy_skin, bind, get, show, modify. rewrite H2. simpl.
  rewrite Hc1, Ho1, <- app_assoc. split; [lia | reflexivity].
Qed.

Lemma stale_buy_button_charges_twice_witness :
  let st := init_fields {| save_coins := 120; unlocked := ["Easy"%string];
                           owned_skins := ["Classic"%string];
                           active_skin := "Classic" |} in
  let st2 := run [Shop "Ocean" (Buy 60); Shop "Ocean" (Buy 60)] st in
  coins st2 = 0 /\
  owned_skins (state_data st2) = ["Classic"; "Ocean"; "Ocean"]%string.
Proof.
  intros st st2.
  assert (Hbtn : In ("Ocean"%string, Buy 60) (open_shop st))
    by (vm_compute; auto).
  assert (Hcoins : 2 * 60 <= coins st) by (vm_compute; discriminate).
  destruct (stale_buy_button_charges_twice st "Ocean" 60 Hbtn Hcoins)
    as (_ & _ & _ & _ & _ & Hc & Ho).
  split; [exact Hc | exact Ho].
Defined.

(* ------------------------------------------------------------------ *)
(** ** ProgressionEngine: [on_win] and [check_win] *)

(** From here on [simpl] leaves the callbacks and the table look-ups
    folded; they are unfolded by name where a proof steps through them. *)
Arguments on_win : simpl never.
Arguments check_win : simpl never.
Arguments is_completed : simpl never.
Arguments str : simpl never.
Arguments points : simpl never.
Arguments strip : simpl never.
Arguments assoc : simpl never.
Arguments index_of : simpl never.
Arguments str_in : simpl never.
Arguments all_equal : simpl never.
Arguments unsolved : simpl never.
Arguments choice : simpl never.
Arguments isdigit : simpl never.
Arguments int_of_text : simpl never.
Arguments py_int : simpl never.

Lemma on_win_session st0 : stable (session_of st0) on_win.
Proof.
  unfold on_win, stop_timer, session_of.
  repeat stable_step; try assumption.
  all: apply show_stable; intros; assumption.
Qed.

Lemma is_completed_stable I : stable I is_completed.
Proof. unfold is_completed. repeat stable_step. Qed.

Lemma check_win_session st0 : stable (session_of st0) check_win.
Proof.
  unfold check_win. stable_step; [apply is_completed_stable|].
  stable_step; [apply on_win_session | apply stable_ret].
Qed.

Lemma on_win_coins st :
  coins (final (on_win st)) = coins st + default 0 (assoc (current_diff st) BONUS) /\
  save_coins (state_data (final (on_win st))) =
    match assoc (current_diff st) BONUS with
    | Some b => coins st + b
    | None => save_coins (state_data st)
    end.
Proof.
  unfold on_win, stop_timer.
  rewrite final_bind; simpl. rewrite final_bind; simpl. rewrite final_bind.
  destruct (assoc (current_diff st) BONUS) as [b|]; simpl; [|split; [lia | reflexivity]].
  rewrite final_bind; simpl. rewrite final_bind; simpl. rewrite final_bind; simpl.
  match goal with
  | |- context [final (?m ?s)] =>
      assert (Hst : stable (fun x => coins x = coins st + b /\
                                     save_coins (state_data x) = coins st + b) m)
  end.
  { repeat stable_step; try assumption.
    all: try (apply show_stable; intros; assumption).
    all: simpl; tauto. }
  apply Hst. simpl. auto.
Qed.

Lemma check_win_coins st :
  coins (final (check_win st)) =
  coins st + win_bonus (current_diff st) (puzzle st) (solution st).
Proof.
  unfold check_win, win_bonus, is_completed.
  rewrite final_bind; simpl. unfold bind at 1. simpl.
  destruct (all_equal _ _ _) as [[|]|]; simpl; try lia.
  apply on_win_coins.
Qed.

(* ------------------------------------------------------------------ *)
(** ** BoardState and ScoringEngine: [check_selected] *)

(** C8. On a cell whose [given_mask] is set, [check_selected] only writes
    "This is a given cell." to the info label: the board, the mask, the
    score, the coins, the save and the stamp of the last correct entry
    are the ones it found. *)
Theorem check_given_cell_changes_nothing (st : app) (now : Q) :
  given_mask st !! selected_index st = Some true ->
  check_selected now st = Ok tt (put_info_var "This is a given cell." st) /\
  let st' := final (check_selected now st) in
  puzzle st' = puzzle st /\ given_mask st' = given_mask st /\
  solution st' = solution st /\ score st' = score st /\ coins st' = coins st /\
  state_data st' = state_data st /\
  last_correct_time st' = last_correct_time st /\ cells st' = cells st.
Proof.
  unfold selected_index. intros Hgiven.
  assert (Hrun : check_selected now st = Ok tt (put_info_var "This is a given cell." st)).
  { unfold check_selected, bind, get, item, orelse. destruct (selected st) as [r c].
    simpl in Hgiven. rewrite Hgiven. reflexivity. }
  split; [exact Hrun|]. rewrite Hrun. simpl. repeat split.
Qed.

Lemma int_of_float_nonneg (x : Q) : (0 <= x)%Q -> int_of_float x = Qfloor x.
Proof.
  intros H. unfold int_of_float.
  apply Qle_bool_iff in H. by rewrite H.
Qed.

Lemma or_now_set (t now : Q) : ~ (t == 0)%Q -> or_now (Some t) now = t.
Proof.
  intros H. unfold or_now. destruct (Qeq_bool t 0) eqn:E; [|reflexivity].
  apply Qeq_bool_iff in E. contradiction.
Qed.

Lemma list_set_Some {A} (i : nat) (v : A) (l : list A) :
  (i < length l)%nat -> list_set i v l = Some (<[i:=v]> l).
Proof. intros H. unfold list_set. apply Nat.ltb_lt in H. by rewrite H. Qed.

Lemma list_set_None {A} (i : nat) (v : A) (l : list A) :
  (length l <= i)%nat -> list_set i v l = None.
Proof. intros H. unfold list_set. apply Nat.ltb_ge in H. by rewrite H. Qed.

(** The equations a callback is run with. *)
Lemma bind_assoc {A B C} (m : M A) (k : A -> M B) (k' : B -> M C) st :
  bind (bind m k) k' st = bind m (fun a => bind (k a) k') st.
Proof. unfold bind. by destruct (m st). Qed.

Lemma bind_ret {A B} (a : A) (k : A -> M B) st : bind (ret a) k st = k a st.
Proof. reflexivity. Qed.

Lemma bind_raise {A B} e (k : A -> M B) st : bind (raise e) k st = Raise e st.
Proof. reflexivity. Qed.

Lemma bind_get {B} (k : app -> M B) st : bind get k st = k st st.
Proof. reflexivity. Qed.

Lemma bind_modify {B} f (k : unit -> M B) st : bind (modify f) k st = k tt (f st).
Proof. reflexivity. Qed.

Lemma bind_orelse {A B} e (o : option A) a (k : A -> M B) st :
  o = Some a -> bind (orelse e o) k st = k a st.
Proof. intros ->. reflexivity. Qed.

Lemma bind_orelse_None {A B} e (o : option A) (k : A -> M B) st :
  o = None -> bind (orelse e o) k st = Raise e st.
Proof. intros ->. reflexivity. Qed.

Lemma bind_item {A B} (l : list A) i a (k : A -> M B) st :
  l !! i = Some a -> bind (item l i) k st = k a st.
Proof. apply bind_orelse. Qed.

Lemma bind_cell_get {B} r c row e (k : entry -> M B) st :
  cells st !! r = Some row -> row !! c = Some e ->
  bind (cell_get r c) k st = k e st.
Proof.
  intros Hr Hc. unfold cell_get.
  rewrite bind_assoc, bind_get. rewrite bind_assoc, (bind_item _ _ _ _ _ Hr).
  by rewrite (bind_item _ _ _ _ _ Hc).
Qed.

Lemma bind_cell_modify {B} r c f row e (k : unit -> M B) st :
  cells st !! r = Some row -> row !! c = Some e ->
  bind (cell_modify r c f) k st =
  k tt (put_cells (<[r := <[c := f e]> row]> (cells st)) st).
Proof.
  intros Hr Hc. unfold cell_modify.
  rewrite bind_assoc, bind_get. rewrite bind_assoc, (bind_item _ _ _ _ _ Hr).
  rewrite bind_assoc, (bind_item _ _ _ _ _ Hc). by rewrite bind_modify.
Qed.

(** The steps that need no fact about the state. *)
Ltac run_step :=
  first [ rewrite bind_assoc | rewrite bind_get | rewrite bind_modify
        | rewrite bind_ret | rewrite bind_raise ];
  cbv beta.
Ltac run_steps := repeat run_step.

(** The correct branch of [check_selected], up to the test of completion. *)
Lemma check_selected_correct (st : app) (now : Q) (g : Z) :
  given_mask st !! selected_index st = Some false ->
  read_guess st = Some g ->
  solution st !! selected_index st = Some g ->
  (selected_index st < length (puzzle st))%nat ->
  exists st1,
    check_selected now st = check_win st1 /\
    score st1 = score st + points (last_correct_time st) now /\
    coins st1 = coins st + points (last_correct_time st) now / 5 /\
    last_correct_time st1 = Some now /\
    puzzle st1 = <[selected_index st := g]> (puzzle st) /\
    given_mask st1 = <[selected_index st := true]> (given_mask st) /\
    solution st1 = solution st /\ current_diff st1 = current_diff st.
Proof.
  unfold selected_index, read_guess. intros Hmask Hread Hsol Hlen.
  destruct (selected st) as [r c] eqn:Hsel. simpl in *.
  destruct (cells st !! r) as [row|] eqn:Hrow; [|discriminate]. simpl in Hread.
  destruct (row !! c) as [e|] eqn:He; [|discriminate].
  destruct (String.eqb (strip (text e)) "" || negb (isdigit (strip (text e))))
    eqn:Htext; [discriminate|].
  pose proof (list_set_Some _ g _ Hlen) as Hset.
  pose proof (list_set_Some _ true _ (lookup_lt_Some _ _ _ Hmask)) as Hset'.
  eexists. split.
  - unfold check_selected. run_steps. rewrite Hsel.
    rewrite (bind_item _ _ _ _ _ Hmask). cbv beta iota.
    rewrite (bind_cell_get _ _ _ _ _ _ Hrow He). cbv beta. rewrite Htext.
    rewrite (bind_orelse _ _ _ _ _ Hread). cbv beta.
    rewrite (bind_item _ _ _ _ _ Hsol). cbv beta. rewrite Z.eqb_refl.
    run_steps. erewrite bind_cell_modify by (simpl; eassumption).
    run_steps. rewrite bind_orelse with (a := <[grid_index r c := g]> (puzzle st))
      by (simpl; exact Hset).
    run_steps. rewrite bind_orelse with (a := <[grid_index r c := true]> (given_mask st))
      by (simpl; exact Hset').
    run_steps. reflexivity.
  - simpl. repeat split.
Qed.

(** C2. A correct entry checked at [now], [delta] seconds (not negative)
    after the last correct one, is worth [max 1 (20 - floor delta)] points:
    the score goes up by the points, the coins by [points // 5] (and by
    the completion bonus when the entry completes the board), and the
    stamp of the last correct entry becomes [now]. [delta] is [now] minus
    the stored stamp, for a stamp that is set and is not zero. *)
Theorem correct_entry_scoring (st : app) (now : Q) (g : Z) :
  given_mask st !! selected_index st = Some false ->
  read_guess st = Some g ->
  solution st !! selected_index st = Some g ->
  (selected_index st < length (puzzle st))%nat ->
  (0 <= delta st now)%Q ->
  let pts := Z.max 1 (20 - Qfloor (delta st now)) in
  let st' := final (check_selected now st) in
  (forall t, last_correct_time st = Some t -> ~ (t == 0)%Q ->
             delta st now = (now - t)%Q) /\
  1 <= pts <= 20 /\
  score st' = score st + pts /\
  coins st' = coins st + pts / 5
              + win_bonus (current_diff st)
                  (<[selected_index st := g]> (puzzle st)) (solution st) /\
  last_correct_time st' = Some now /\
  puzzle st' = <[selected_index st := g]> (puzzle st) /\
  given_mask st' = <[selected_index st := true]> (given_mask st).
Proof.
  intros Hmask Hread Hsol Hlen Hdelta pts st'.
  unfold selected_index, read_guess in *.
  split.
  { intros t Ht Hnz. unfold delta. by rewrite Ht, or_now_set. }
  assert (Hpts : points (last_correct_time st) now = pts).
  { unfold points, pts. f_equal. f_equal. apply int_of_float_nonneg, Hdelta. }
  split.
  { unfold pts. pose proof (Qfloor_resp_le 0 (delta st now) Hdelta) as Hfl.
    change (Qfloor 0) with 0 in Hfl. lia. }
  destruct (check_selected_correct st now g Hmask Hread Hsol Hlen)
    as (st1 & Hrun & Hscore & Hcoins & Hlast & Hpz & Hgm & Hso & Hdiff).
  subst st'. rewrite Hrun.
  destruct (check_win_session st1 st1) as (-> & -> & -> & -> & _).
  { repeat split. }
  rewrite check_win_coins, Hscore, Hcoins, Hlast, Hpz, Hgm, Hso, Hdiff, Hpts.
  repeat split.
Qed.

(** These states are the values of the runs they are named after. *)
Lemma opening_is_start_up : opening = final (init fresh_save 0 100 100).
Proof. vm_compute. reflexivity. Qed.

Lemma right_guess_is_typed : right_guess = run [Select 0 2; Type_ 0 2 "4"] opening.
Proof. vm_compute. reflexivity. Qed.

Lemma wrong_guess_is_typed : wrong_guess = run [Select 0 2; Type_ 0 2 " 7 "] opening.
Proof. vm_compute. reflexivity. Qed.

Lemma correct_entry_scoring_witness :
  score (final (check_selected (2071 # 20) right_guess)) = 17 /\
  coins (final (check_selected (2071 # 20) right_guess)) = 3 /\
  last_correct_time (final (check_selected (2071 # 20) right_guess)) = Some (2071 # 20).
Proof.
  assert (H1 : given_mask right_guess !! selected_index right_guess = Some false)
    by reflexivity.
  assert (H2 : read_guess right_guess = Some 4) by reflexivity.
  assert (H3 : solution right_guess !! selected_index right_guess = Some 4)
    by reflexivity.
  assert (H4 : (selected_index right_guess < length (puzzle right_guess))%nat)
    by (vm_compute; lia).
  assert (H5 : (0 <= delta right_guess (2071 # 20))%Q)
    by (vm_compute; discriminate).
  destruct (correct_entry_scoring right_guess (2071 # 20) 4 H1 H2 H3 H4 H5)
    as (_ & _ & Hs & Hc & Hl & _).
  rewrite Hs, Hc, Hl. repeat split.
Defined.

Lemma check_given_cell_changes_nothing_witness :
  check_selected 101 opening = Ok tt (put_info_var "This is a given cell." opening).
Proof.
  apply (check_given_cell_changes_nothing opening 101). reflexivity.
Defined.

(* ------------------------------------------------------------------ *)
(** ** The score is never negative *)

Ltac unfold_callbacks :=
  unfold callback, select_difficulty, new_game_button, on_diff_change, new_game,
    new_game_with, populate_grid, populate_cell, start_timer, check_selected,
    give_hint, clear_selected, check_win, is_completed, on_win, stop_timer,
    on_select, entry_typed, shop_click, buy_skin, set_skin, cell_get,
    cell_modify, show.

Ltac stable_auto :=
  repeat first
    [ stable_step
    | lazymatch goal with
      | |- stable _ (match ?x with _ => _ end) => destruct x
      end ].

Lemma callback_score (a : action) : stable (fun st => 0 <= score st) (callback a).
Proof.
  destruct a; unfold_callbacks; stable_auto; simpl; try assumption; try lia.
  unfold points; lia.
Qed.

Lemma run_score (acts : list action) (st : app) :
  0 <= score st -> 0 <= score (run acts st).
Proof.
  revert st. induction acts as [|a acts IH]; intros st H; simpl; [exact H|].
  apply IH, callback_score, H.
Qed.

(** The wrong branch of [check_selected]. *)
Lemma check_selected_wrong (st : app) (now : Q) (g s : Z) :
  given_mask st !! selected_index st = Some false ->
  read_guess st = Some g ->
  solution st !! selected_index st = Some s ->
  g <> s ->
  check_selected now st =
    Ok tt (put_info_var "Wrong. Try again."
             (put_score_var ("Score: " +:+ str (Z.max 0 (score st - 1)))
                (put_score (Z.max 0 (score st - 1)) st))).
Proof.
  unfold selected_index, read_guess. intros Hmask Hread Hsol Hne.
  destruct (selected st) as [r c] eqn:Hsel. simpl in *.
  destruct (cells st !! r) as [row|] eqn:Hrow; [|discriminate]. simpl in Hread.
  destruct (row !! c) as [e|] eqn:He; [|discriminate].
  destruct (String.eqb (strip (text e)) "" || negb (isdigit (strip (text e))))
    eqn:Htext; [discriminate|].
  apply Z.eqb_neq in Hne.
  unfold check_selected. run_steps. rewrite Hsel.
  rewrite (bind_item _ _ _ _ _ Hmask). cbv beta iota.
  rewrite (bind_cell_get _ _ _ _ _ _ Hrow He). cbv beta. rewrite Htext.
  rewrite (bind_orelse _ _ _ _ _ Hread). cbv beta.
  rewrite (bind_item _ _ _ _ _ Hsol). cbv beta. rewrite Hne.
  run_steps. reflexivity.
Qed.

(* ------------------------------------------------------------------ *)
(** ** Hints *)

Lemma board_ok_has_cell st r c :
  board_ok st -> (r < 9)%nat -> (c < 9)%nat -> has_cell r c (cells st).
Proof.
  intros (_ & _ & _ & Hlen & Hrows) Hr Hc.
  destruct (lookup_lt_is_Some_2 (cells st) r) as [row Hrow]; [lia|].
  rewrite Forall_forall in Hrows.
  assert (Hl : length row = 9%nat).
  { apply Hrows. eapply list_elem_of_lookup_2, Hrow. }
  destruct (lookup_lt_is_Some_2 row c) as [e He]; [lia|].
  exists row, e. auto.
Qed.

Lemma cell_modify_runs {B} r c f (k : unit -> M B) st :
  has_cell r c (cells st) ->
  exists cs, has_cell r c cs /\ length cs = length (cells st) /\
             bind (cell_modify r c f) k st = k tt (put_cells cs st).
Proof.
  intros (row & e & Hrow & He).
  exists (<[r := <[c := f e]> row]> (cells st)). split; [|split].
  - exists (<[c := f e]> row), (f e). split.
    + apply list_lookup_insert_eq. eapply lookup_lt_Some, Hrow.
    + apply list_lookup_insert_eq. eapply lookup_lt_Some, He.
  - apply length_insert.
  - apply (bind_cell_modify _ _ _ _ _ _ _ Hrow He).
Qed.

(** A widget call on an entry that is there. *)
Ltac run_cell H :=
  match goal with
  | |- context [bind (cell_modify ?r ?c ?f) ?k ?s] =>
      let cs := fresh "cs" in
      let Hc := fresh "Hc" in
      let Hl := fresh "Hl" in
      let E := fresh "E" in
      destruct (cell_modify_runs r c f k s H) as (cs & Hc & Hl & E);
      rewrite E; clear E
  end.

Lemma unsolved_filter (idxs : list nat) (mask : list bool) :
  (forall i, i ∈ idxs -> (i < length mask)%nat) ->
  unsolved idxs mask = Some (filter (fun i => mask !! i = Some false) idxs).
Proof.
  induction idxs as [|i idxs IH]; intros Hlt; [reflexivity|].
  assert (Hi : (i < length mask)%nat) by (apply Hlt; left).
  destruct (lookup_lt_is_Some_2 mask i Hi) as [g Hg].
  change (unsolved (i :: idxs) mask) with
    (match mask !! i with
     | Some true => unsolved idxs mask
     | Some false => cons i <$> unsolved idxs mask
     | None => None
     end).
  rewrite Hg, IH by (intros j Hj; apply Hlt; right; exact Hj).
  rewrite filter_cons. destruct g; case_decide; simpl; congruence.
Qed.

Lemma choice_Some {A} (rnd : nat) (l : list A) :
  l <> [] -> exists x, choice rnd l = Some x /\ x ∈ l.
Proof.
  intros Hne. unfold choice.
  assert (Hlt : (rnd mod length l < length l)%nat).
  { apply Nat.mod_upper_bound. destruct l; [done | simpl; lia]. }
  destruct (lookup_lt_is_Some_2 l _ Hlt) as [x Hx].
  exists x. split; [exact Hx | eapply list_elem_of_lookup_2, Hx].
Qed.

Lemma choice_elem {A} (rnd : nat) (l : list A) x :
  choice rnd l = Some x -> x ∈ l.
Proof. unfold choice. apply list_elem_of_lookup_2. Qed.

(** The reveal of [give_hint], up to the test of completion. *)
Lemma give_hint_reveals (st : app) (rnd : nat) (empties : list nat) (i : nat) (v : Z) :
  unsolved (seq 0 81) (given_mask st) = Some empties ->
  choice rnd empties = Some i ->
  solution st !! i = Some v ->
  has_cell (i / 9) (i mod 9) (cells st) ->
  (i < length (puzzle st))%nat ->
  (i < length (given_mask st))%nat ->
  exists st1,
    give_hint rnd st = check_win st1 /\
    puzzle st1 = <[i := v]> (puzzle st) /\
    given_mask st1 = <[i := true]> (given_mask st) /\
    score st1 = Z.max 0 (score st - 5) /\
    solution st1 = solution st /\ coins st1 = coins st /\
    state_data st1 = state_data st /\ current_diff st1 = current_diff st /\
    last_correct_time st1 = last_correct_time st /\
    length (cells st1) = length (cells st).
Proof.
  intros Hun Hch Hsol Hcell Hpz Hgm.
  unfold give_hint. run_steps.
  rewrite (bind_orelse _ _ _ _ _ Hun). cbv beta.
  destruct empties as [|i0 rest].
  { unfold choice in Hch. by rewrite lookup_nil in Hch. }
  rewrite (bind_orelse _ _ _ _ _ Hch). cbv beta zeta.
  rewrite (bind_item _ _ _ _ _ Hsol). cbv beta.
  run_cell Hcell. run_cell Hc. run_cell Hc0.
  run_steps.
  rewrite bind_orelse with (a := <[i := v]> (puzzle st))
    by (simpl; apply list_set_Some, Hpz).
  run_steps.
  rewrite bind_orelse with (a := <[i := true]> (given_mask st))
    by (simpl; apply list_set_Some, Hgm).
  run_steps. eexists. split; [reflexivity|].
  simpl. repeat split. simpl in *. congruence.
Qed.

Lemma give_hint_nothing_left (st : app) (rnd : nat) :
  unsolved (seq 0 81) (given_mask st) = Some [] -> give_hint rnd st = Ok tt st.
Proof.
  intros Hun. unfold give_hint. run_steps.
  rewrite (bind_orelse _ _ _ _ _ Hun). reflexivity.
Qed.

Lemma choice_small {A} (k : nat) (l : list A) :
  (k < length l)%nat -> choice k l = l !! k.
Proof. intros H. unfold choice. by rewrite Nat.mod_small. Qed.

Lemma unsolved_cells_run (st : app) :
  board_ok st -> unsolved (seq 0 81) (given_mask st) = Some (unsolved_cells st).
Proof.
  intros (Hgm & _). apply unsolved_filter.
  intros i Hi. apply elem_of_seq in Hi. lia.
Qed.

Lemma elem_of_unsolved_cells (st : app) (i : nat) :
  board_ok st -> i ∈ unsolved_cells st <-> given_mask st !! i = Some false.
Proof.
  intros (Hgm & _). unfold unsolved_cells.
  rewrite list_elem_of_filter, elem_of_seq. split; [tauto|].
  intros H. split; [exact H|]. apply lookup_lt_Some in H. lia.
Qed.

(** The pick of [give_hint] on a board of 81 cells: the reveal and the
    penalty, in one call. *)
Lemma give_hint_pick (st : app) (rnd i : nat) :
  board_ok st -> choice rnd (unsolved_cells st) = Some i ->
  given_mask st !! i = Some false /\
  exists v, solution st !! i = Some v /\
    puzzle (final (give_hint rnd st)) = <[i := v]> (puzzle st) /\
    given_mask (final (give_hint rnd st)) = <[i := true]> (given_mask st) /\
    score (final (give_hint rnd st)) = Z.max 0 (score st - 5).
Proof.
  intros Hok Hch. pose proof Hok as (Hgm & Hpz & Hsol & _).
  pose proof (proj1 (elem_of_unsolved_cells st i Hok) (choice_elem _ _ _ Hch)) as Hi.
  pose proof (lookup_lt_Some _ _ _ Hi) as Hlt.
  split; [exact Hi|].
  destruct (lookup_lt_is_Some_2 (solution st) i) as [v Hv]; [lia|].
  exists v. split; [exact Hv|].
  assert (Hcell : has_cell (i / 9) (i mod 9) (cells st)).
  { apply board_ok_has_cell; [exact Hok | |].
    - apply Nat.Div0.div_lt_upper_bound. lia.
    - apply Nat.mod_upper_bound. lia. }
  destruct (give_hint_reveals st rnd _ i v (unsolved_cells_run st Hok) Hch Hv Hcell)
    as (st1 & Hrun & Hp & Hm & Hs & _); [lia | lia|].
  rewrite Hrun.
  destruct (check_win_session st1 st1) as (Hs' & _ & Hm' & Hp' & _).
  { repeat split. }
  rewrite Hs', Hm', Hp'. auto.
Qed.

(** C10. On a board of 81 cells, [give_hint] draws among the cells whose
    [given_mask] is unset, each of them being the pick of exactly one draw
    below their number. When there is none, it returns with the state it
    found: no reveal, no penalty. When it picks [i], it puts the solution
    digit in the puzzle at [i], sets the mask at [i] and takes
    [max 0 (score - 5)] for the score, all in the same call. *)
Theorem hint_reveals_and_charges_together (st : app) (rnd : nat) :
  board_ok st ->
  let empties := unsolved_cells st in
  unsolved (seq 0 81) (given_mask st) = Some empties /\
  (forall i, given_mask st !! i = Some false ->
     exists k, (k < length empties)%nat /\ choice k empties = Some i /\
       forall k', (k' < length empties)%nat -> choice k' empties = Some i -> k' = k) /\
  ((forall i, (i < 81)%nat -> given_mask st !! i = Some true) ->
   give_hint rnd st = Ok tt st) /\
  match choice rnd empties with
  | None =>
      (forall i, (i < 81)%nat -> given_mask st !! i = Some true) /\
      give_hint rnd st = Ok tt st
  | Some i =>
      given_mask st !! i = Some false /\
      exists v, solution st !! i = Some v /\
        let st' := final (give_hint rnd st) in
        puzzle st' = <[i := v]> (puzzle st) /\
        given_mask st' = <[i := true]> (given_mask st) /\
        score st' = Z.max 0 (score st - 5)
  end.
Proof.
  intros Hok empties. subst empties.
  pose proof Hok as (Hgm & _).
  pose proof (unsolved_cells_run st Hok) as Hun.
  assert (Hin : forall i, i ∈ unsolved_cells st <-> given_mask st !! i = Some false)
    by (intros i; apply elem_of_unsolved_cells, Hok).
  assert (Hnd : NoDup (unsolved_cells st)) by apply NoDup_filter, NoDup_seq.
  assert (Hnone : unsolved_cells st = [] ->
                  forall i, (i < 81)%nat -> given_mask st !! i = Some true).
  { intros He i Hi.
    destruct (lookup_lt_is_Some_2 (given_mask st) i) as [g Hg]; [lia|].
    destruct g; [exact Hg|]. apply Hin in Hg.
    rewrite He in Hg. by apply elem_of_nil in Hg. }
  assert (Hall_nil : (forall i, (i < 81)%nat -> given_mask st !! i = Some true) ->
                     unsolved_cells st = []).
  { intros Hall. destruct (unsolved_cells st) as [|i l] eqn:He; [reflexivity|].
    assert (Hi : i ∈ i :: l) by left.
    apply Hin in Hi.
    pose proof (lookup_lt_Some _ _ _ Hi) as Hlt.
    rewrite Hall in Hi by lia. discriminate. }
  split; [exact Hun|]. split; [|split].
  - intros i Hi. apply Hin, list_elem_of_lookup in Hi. destruct Hi as [k Hk].
    pose proof (lookup_lt_Some _ _ _ Hk) as Hlt.
    exists k. split; [exact Hlt|]. split; [by rewrite choice_small|].
    intros k' Hlt' Hk'. rewrite choice_small in Hk' by exact Hlt'.
    eapply NoDup_lookup; eauto.
  - intros Hall. apply give_hint_nothing_left.
    by rewrite Hun, (Hall_nil Hall).
  - destruct (choice rnd (unsolved_cells st)) as [i|] eqn:Hch.
    + apply give_hint_pick; assumption.
    + assert (He : unsolved_cells st = []).
      { destruct (unsolved_cells st) as [|i l] eqn:He; [reflexivity|].
        destruct (choice_Some rnd (i :: l)) as (x & Hx & _); [done|]. congruence. }
      split; [apply Hnone, He|].
      apply give_hint_nothing_left. by rewrite Hun, He.
Qed.

Lemma hint_reveals_and_charges_together_witness :
  give_hint 7 all_given = Ok tt all_given /\
  score (final (give_hint 7 (put_score 12 opening))) = 7 /\
  puzzle (final (give_hint 7 opening)) !! 11%nat = Some 2.
Proof.
  assert (Hok : forall sc gm, length gm = 81%nat ->
                  board_ok (put_score sc (put_given_mask gm opening))).
  { intros sc gm Hgm. unfold board_ok. simpl. split; [exact Hgm|].
    repeat split. repeat constructor. }
  split; [|split].
  - destruct (hint_reveals_and_charges_together all_given 7) as (_ & _ & Hnoop & _).
    + apply (Hok 0 (replicate 81 true)). reflexivity.
    + apply Hnoop. intros i Hi. apply (lookup_replicate_2 81 true i Hi).
  - pose proof (hint_reveals_and_charges_together (put_score 12 opening) 7) as H.
    destruct H as (_ & _ & _ & H); [apply (Hok 12 (given_mask opening)); reflexivity|].
    change (choice 7 _) with (Some 11%nat) in H.
    destruct H as (_ & v & _ & _ & _ & ->). reflexivity.
  - pose proof (hint_reveals_and_charges_together opening 7) as H.
    destruct H as (_ & _ & _ & H); [apply (Hok 0 (given_mask opening)); reflexivity|].
    change (choice 7 _) with (Some 11%nat) in H.
    destruct H as (_ & v & Hv & -> & _).
    change (solution opening !! 11%nat) with (Some 2) in Hv.
    injection Hv as <-. reflexivity.
Defined.

(** C7. The score is never negative: it is not after start-up, and no
    sequence of callbacks makes it so. A wrong guess takes
    [max 0 (score - 1)] for the score and a hint that reveals a cell
    [max 0 (score - 5)], so that from 0 both leave 0. *)
Theorem score_never_negative :
  (forall sd rnd t_grid t_timer acts,
     0 <= score (run acts (final (init sd rnd t_grid t_timer)))) /\
  (forall st acts, 0 <= score st -> 0 <= score (run acts st)) /\
  (forall st now g s,
     given_mask st !! selected_index st = Some false ->
     read_guess st = Some g ->
     solution st !! selected_index st = Some s ->
     g <> s ->
     score (final (check_selected now st)) = Z.max 0 (score st - 1) /\
     (score st = 0 -> score (final (check_selected now st)) = 0)) /\
  (forall st rnd i,
     board_ok st ->
     given_mask st !! i = Some false ->
     score (final (give_hint rnd st)) = Z.max 0 (score st - 5) /\
     (score st = 0 -> score (final (give_hint rnd st)) = 0)).
Proof.
  split; [|split; [|split]].
  - intros sd rnd t1 t2 acts. apply run_score. unfold init.
    destruct (str_in (active_skin sd) SKINS); [|simpl; lia].
    apply (callback_score (NewGame rnd t1 t2) (init_fields sd)). simpl. lia.
  - intros st acts. apply run_score.
  - intros st now g s Hmask Hread Hsol Hne.
    rewrite (check_selected_wrong st now g s Hmask Hread Hsol Hne). simpl. lia.
  - intros st rnd i Hok Hi.
    apply (elem_of_unsolved_cells st i Hok) in Hi.
    destruct (choice_Some rnd (unsolved_cells st)) as (j & Hch & _).
    { intros He. rewrite He in Hi. by apply elem_of_nil in Hi. }
    destruct (give_hint_pick st rnd j Hok Hch) as (_ & v & _ & _ & _ & ->). lia.
Qed.

Lemma score_never_negative_witness :
  0 <= score (run [Check 101; Hint 3; Check 102; Hint 0] wrong_guess) /\
  score (final (check_selected 101 wrong_guess)) = 0 /\
  score (final (give_hint 3 (put_score 3 opening))) = 0.
Proof.
  destruct score_never_negative as (_ & Hrun & Hwrong & Hhint).
  split; [|split].
  - apply Hrun. simpl. lia.
  - assert (Hne : 7 <> 4) by lia.
    destruct (Hwrong wrong_guess 101%Q 7 4 eq_refl eq_refl eq_refl Hne) as [_ H0].
    apply H0. reflexivity.
  - assert (Hok : board_ok (put_score 3 opening)).
    { unfold board_ok. repeat split. repeat constructor. }
    assert (Hm : given_mask (put_score 3 opening) !! 2%nat = Some false) by reflexivity.
    destruct (Hhint (put_score 3 opening) 3%nat 2%nat Hok Hm) as [-> _].
    reflexivity.
Defined.

(* ------------------------------------------------------------------ *)
(** ** The board invariant *)

Lemma record_ok_inv pz sol : record_ok pz sol = true -> record_inv pz sol.
Proof.
  revert sol. induction pz as [|v pz IH]; intros sol H i w Hi Hw.
  - by rewrite lookup_nil in Hi.
  - destruct sol as [|s sol]; simpl in H; apply andb_true_iff in H as [Hv Hrest].
    + apply Z.eqb_eq in Hv. destruct i as [|i]; simpl in Hi.
      * congruence.
      * exfalso. pose proof (IH [] Hrest i w Hi Hw) as Hn. by rewrite lookup_nil in Hn.
    + destruct i as [|i]; simpl in *.
      * injection Hi as ->. apply orb_true_iff in Hv as [Hv|Hv]; apply Z.eqb_eq in Hv.
        -- contradiction.
        -- by subst.
      * eapply IH; eauto.
Qed.

Lemma locked_in_same mask0 sol st st' :
  puzzle st' = puzzle st -> given_mask st' = given_mask st ->
  solution st' = solution st -> locked_in mask0 sol st -> locked_in mask0 sol st'.
Proof.
  intros Hp Hm Hs (H1 & H2 & H3). unfold locked_in, board_inv.
  rewrite Hp, Hm, Hs. auto.
Qed.

Lemma locked_in_commit mask0 sol st st' i v :
  locked_in mask0 sol st ->
  solution st !! i = Some v ->
  (i < length (puzzle st))%nat -> (i < length (given_mask st))%nat ->
  puzzle st' = <[i := v]> (puzzle st) ->
  given_mask st' = <[i := true]> (given_mask st) ->
  solution st' = solution st ->
  locked_in mask0 sol st'.
Proof.
  intros (H1 & H2 & H3) Hv Hlp Hlm Hp Hm Hs. unfold locked_in, board_inv.
  rewrite Hp, Hm, Hs. split; [exact H1|]. split.
  - intros j Hj. destruct (decide (i = j)) as [<-|Hne].
    + by apply list_lookup_insert_eq.
    + rewrite list_lookup_insert_ne by exact Hne. auto.
  - intros j Hj. destruct (decide (i = j)) as [<-|Hne].
    + exists v. split; [by apply list_lookup_insert_eq | exact Hv].
    + rewrite list_lookup_insert_ne in Hj by exact Hne.
      rewrite list_lookup_insert_ne by exact Hne. auto.
Qed.

Lemma locked_in_session mask0 sol st st' :
  session_of st st' -> locked_in mask0 sol st -> locked_in mask0 sol st'.
Proof.
  intros (_ & _ & Hm & Hp & Hs & _). by apply locked_in_same.
Qed.

Lemma check_win_locked mask0 sol st :
  locked_in mask0 sol st -> locked_in mask0 sol (final (check_win st)).
Proof.
  apply locked_in_session. apply (check_win_session st st). repeat split.
Qed.

(** The leaves of the case analyses below. *)
Ltac locked_leaf H :=
  simpl; first [ exact H | eapply locked_in_same; [| | | exact H]; reflexivity ].

Ltac run_item :=
  match goal with
  | |- context [bind (item ?l ?i) ?k ?s] =>
      let Hi := fresh "Hitem" in
      destruct (l !! i) eqn:Hi;
      [ rewrite (bind_item l i _ k s Hi)
      | unfold item at 1; rewrite (bind_orelse_None IndexError _ k s Hi) ];
      cbv beta
  end.

Ltac run_orelse :=
  match goal with
  | |- context [bind (orelse ?e ?o) ?k ?s] =>
      let Ho := fresh "Hor" in
      destruct o eqn:Ho;
      [ rewrite (bind_orelse e _ _ k s eq_refl)
      | rewrite (bind_orelse_None e _ k s eq_refl) ];
      cbv beta
  end.

Lemma check_selected_locked mask0 sol now :
  stable (locked_in mask0 sol) (check_selected now).
Proof.
  intros st H. unfold check_selected. run_steps.
  destruct (selected st) as [r c].
  run_item; [|locked_leaf H].
  destruct b; [locked_leaf H|].
  unfold cell_get. run_steps.
  run_item; [|locked_leaf H]. run_item; [|locked_leaf H].
  destruct (_ || _); [locked_leaf H|].
  run_orelse; [|locked_leaf H].
  run_item; [|locked_leaf H].
  destruct (_ =? _) eqn:Hguess; [|run_steps; locked_leaf H].
  apply Z.eqb_eq in Hguess. run_steps.
  erewrite bind_cell_modify by (simpl; eassumption). run_steps.
  destruct (decide (grid_index r c < length (puzzle st))%nat) as [Hlt|Hge].
  - match goal with
    | |- context [list_set ?i ?g (puzzle _)] =>
        rewrite bind_orelse with (a := <[i := g]> (puzzle st))
          by (simpl; apply list_set_Some, Hlt)
    end.
    run_steps.
    rewrite bind_orelse with (a := <[grid_index r c := true]> (given_mask st))
      by (simpl; eapply list_set_Some, lookup_lt_Some; eassumption).
    run_steps. apply check_win_locked.
    eapply locked_in_commit with (i := grid_index r c); try exact H; try reflexivity.
    + rewrite Hguess. eassumption.
    + exact Hlt.
    + eapply lookup_lt_Some; eassumption.
  - rewrite bind_orelse_None by (simpl; apply list_set_None; lia).
    locked_leaf H.
Qed.

Lemma unsolved_elem (idxs : list nat) (mask : list bool) (l : list nat) i :
  unsolved idxs mask = Some l -> i ∈ l -> mask !! i = Some false.
Proof.
  revert l. induction idxs as [|j idxs IH]; intros l.
  - intros [= <-] Hi. by apply elem_of_nil in Hi.
  - change (unsolved (j :: idxs) mask) with
      (match mask !! j with
       | Some true => unsolved idxs mask
       | Some false => cons j <$> unsolved idxs mask
       | None => None
       end).
    destruct (mask !! j) as [[|]|] eqn:Hj; [apply IH | | discriminate].
    destruct (unsolved idxs mask) as [l'|]; [|discriminate].
    intros [= <-] Hi. apply elem_of_cons in Hi as [->|Hi]; [exact Hj | eauto].
Qed.

Ltac run_cell_modify :=
  match goal with
  | |- context [bind (cell_modify ?r ?c ?f) ?k ?s] =>
      unfold cell_modify at 1; run_steps; run_item;
      [run_steps; run_item; [run_steps|]|]
  end.

Lemma give_hint_locked mask0 sol rnd :
  stable (locked_in mask0 sol) (give_hint rnd).
Proof.
  intros st H. unfold give_hint. run_steps.
  run_orelse; [|locked_leaf H]. rename l into empties, Hor into Hun.
  destruct empties as [|i0 rest]; [locked_leaf H|].
  destruct (choice rnd (i0 :: rest)) as [i|] eqn:Hch;
    [ rewrite (bind_orelse _ _ _ _ _ eq_refl)
    | rewrite (bind_orelse_None _ _ _ _ eq_refl); locked_leaf H ].
  cbv beta zeta.
  pose proof (unsolved_elem _ _ _ _ Hun (choice_elem _ _ _ Hch)) as Hi.
  run_item; [|locked_leaf H].
  run_cell_modify; [|locked_leaf H|locked_leaf H].
  run_cell_modify; [|locked_leaf H|locked_leaf H].
  run_cell_modify; [|locked_leaf H|locked_leaf H].
  destruct (decide (i < length (puzzle st))%nat) as [Hlt|Hge].
  - rewrite bind_orelse with (a := <[i := z]> (puzzle st))
      by (simpl; apply list_set_Some, Hlt).
    run_steps.
    rewrite bind_orelse with (a := <[i := true]> (given_mask st))
      by (simpl; eapply list_set_Some, lookup_lt_Some; eassumption).
    run_steps. apply check_win_locked.
    eapply locked_in_commit with (i := i); try exact H; try reflexivity.
    + eassumption.
    + exact Hlt.
    + eapply lookup_lt_Some; eassumption.
  - rewrite bind_orelse_None by (simpl; apply list_set_None; lia).
    locked_leaf H.
Qed.

Lemma callback_locked mask0 sol (a : action) :
  in_game a = true -> stable (locked_in mask0 sol) (callback a).
Proof.
  destruct a; try discriminate; intros _; simpl.
  - unfold on_select. stable_step. locked_leaf H.
  - unfold entry_typed. apply cell_modify_stable. intros st v H. locked_leaf H.
  - apply check_selected_locked.
  - unfold clear_selected. stable_auto.
    apply cell_modify_stable. intros st v H. locked_leaf H.
  - apply give_hint_locked.
  - unfold shop_click, buy_skin, set_skin, show. stable_auto; locked_leaf H.
Qed.

Lemma run_locked mask0 sol (acts : list action) (st : app) :
  forallb in_game acts = true ->
  locked_in mask0 sol st -> locked_in mask0 sol (run acts st).
Proof.
  revert st. induction acts as [|a acts IH]; intros st Hall H; simpl; [exact H|].
  simpl in Hall. apply andb_true_iff in Hall as [Ha Hall].
  apply IH; [exact Hall|]. apply callback_locked; assumption.
Qed.

Lemma run_app (acts1 acts2 : list action) (st : app) :
  run (acts1 ++ acts2) st = run acts2 (run acts1 st).
Proof. revert st. induction acts1 as [|a acts1 IH]; intros st; simpl; auto. Qed.

(** The board [new_game] sets up from a record, whatever becomes of the grid. *)
Lemma new_game_with_board (rec : string * string) (pz sol : list Z) t_grid t_timer st0 :
  parse_grid rec.1 = Some pz -> parse_grid rec.2 = Some sol ->
  let st := final (new_game_with rec t_grid t_timer st0) in
  puzzle st = pz /\ solution st = sol /\
  given_mask st = map (fun v => negb (v =? 0)) pz /\ score st = 0.
Proof.
  intros Hpz Hsol. unfold new_game_with.
  rewrite (bind_orelse _ _ _ _ _ Hpz). run_steps.
  rewrite (bind_orelse _ _ _ _ _ Hsol). run_steps.
  match goal with
  | |- context [final (?m ?s)] =>
      assert (Hst : stable (fun x => puzzle x = pz /\ solution x = sol /\
                     given_mask x = map (fun v => negb (v =? 0)) pz /\ score x = 0) m)
  end.
  { unfold populate_grid, populate_cell, start_timer, cell_modify.
    stable_auto; simpl; assumption. }
  apply Hst. simpl. auto.
Qed.

Lemma new_game_with_inv (rec : string * string) (pz sol : list Z) t_grid t_timer st0 :
  parse_grid rec.1 = Some pz -> parse_grid rec.2 = Some sol -> record_inv pz sol ->
  board_inv (final (new_game_with rec t_grid t_timer st0)).
Proof.
  intros Hpz Hsol Hrec.
  destruct (new_game_with_board rec pz sol t_grid t_timer st0 Hpz Hsol)
    as (Hp & Hs & Hm & _).
  intros i Hi. rewrite Hm, list_lookup_fmap in Hi. rewrite Hp, Hs.
  destruct (pz !! i) as [v|] eqn:Hv; [|discriminate].
  simpl in Hi. exists v. split; [reflexivity|].
  apply (Hrec i v Hv). intros ->. discriminate.
Qed.

(** Every record of [PUZZLES] parses to two grids of 81 digits. *)
Lemma PUZZLES_records_parse diff records rec :
  assoc diff PUZZLES = Some records -> In rec records ->
  exists pz sol, parse_grid rec.1 = Some pz /\ parse_grid rec.2 = Some sol /\
                 length pz = 81%nat /\ length sol = 81%nat.
Proof.
  unfold assoc, PUZZLES.
  destruct (String.eqb diff "Easy").
  { intros [= <-] [<-|[<-|[]]]; do 2 eexists; repeat split; vm_compute; reflexivity. }
  destruct (String.eqb diff "Medium").
  { intros [= <-] [<-|[<-|[]]]; do 2 eexists; repeat split; vm_compute; reflexivity. }
  destruct (String.eqb diff "Hard").
  { intros [= <-] [<-|[<-|[]]]; do 2 eexists; repeat split; vm_compute; reflexivity. }
  discriminate.
Qed.

Lemma PUZZLES_record_ok_table :
  catalog_check =
  [ ("Easy", [true; false]); ("Medium", [true; false]); ("Hard", [false; false]) ]%string.
Proof. vm_compute. reflexivity. Qed.

(** C3. In a game started from a record whose filled digits are those of
    its solution, a cell whose [given_mask] is set holds the digit of the
    solution, and stays so: whatever the player does next on that board
    (select, type, check, clear, hint, shop), the mask of the cell stays
    set and its digit is the one of the solution. *)
Theorem given_cells_stay_solved
    (rec : string * string) (pz sol : list Z) (t_grid t_timer : Q) (st0 : app)
    (before after : list action) (i : nat) :
  parse_grid rec.1 = Some pz -> parse_grid rec.2 = Some sol ->
  record_inv pz sol ->
  forallb in_game (before ++ after) = true ->
  let st := final (new_game_with rec t_grid t_timer st0) in
  given_mask (run before st) !! i = Some true ->
  let st' := run (before ++ after) st in
  given_mask st' !! i = Some true /\
  solution st' = sol /\
  exists v, puzzle st' !! i = Some v /\ solution st' !! i = Some v.
Proof.
  intros Hpz Hsol Hrec Hall st Hi st'.
  rewrite forallb_app in Hall. apply andb_true_iff in Hall as [Hb Ha].
  assert (H0 : locked_in [] sol st).
  { split; [|split].
    - apply (new_game_with_board rec pz sol t_grid t_timer st0 Hpz Hsol).
    - intros j Hj. by rewrite lookup_nil in Hj.
    - apply (new_game_with_inv rec pz sol); assumption. }
  pose proof (run_locked [] sol before st Hb H0) as (Hs1 & _ & Hinv1).
  assert (H1 : locked_in (given_mask (run before st)) sol (run before st)).
  { split; [exact Hs1|]. split; [auto | exact Hinv1]. }
  pose proof (run_locked _ sol after _ Ha H1) as (Hs2 & Hkeep & Hinv2).
  subst st'. rewrite run_app. split; [apply Hkeep, Hi|]. split; [exact Hs2|].
  apply Hinv2, Hkeep, Hi.
Qed.

Lemma given_cells_stay_solved_witness :
  let rec := ("530070000600195000098000060800060003400803001700020006060000280000419005000080079",
              "534678912672195348198342567859761423426853791713924856961537284287419635345286179")%string in
  let st' := run ([Select 0 2; Type_ 0 2 "4"; Check 101] ++ [Clear; Type_ 0 2 "9"; Check 102; Hint 5])
               (final (new_game_with rec 100 100 (init_fields fresh_save))) in
  given_mask st' !! 2%nat = Some true /\ solution st' = solution opening /\
  exists v, puzzle st' !! 2%nat = Some v /\ solution st' !! 2%nat = Some v.
Proof.
  intros rec st'.
  assert (Hpz : parse_grid rec.1 = Some (puzzle opening)) by (vm_compute; reflexivity).
  assert (Hsol : parse_grid rec.2 = Some (solution opening)) by (vm_compute; reflexivity).
  assert (Hrec : record_inv (puzzle opening) (solution opening))
    by (apply record_ok_inv; vm_compute; reflexivity).
  assert (Hall : forallb in_game ([Select 0 2; Type_ 0 2 "4"; Check 101]
                                  ++ [Clear; Type_ 0 2 "9"; Check 102; Hint 5]) = true)
    by reflexivity.
  assert (Hgiven : given_mask (run [Select 0 2; Type_ 0 2 "4"; Check 101]
                     (final (new_game_with rec 100 100 (init_fields fresh_save))))
                   !! 2%nat = Some true)
    by (vm_compute; reflexivity).
  exact (given_cells_stay_solved rec (puzzle opening) (solution opening) 100 100
           (init_fields fresh_save) [Select 0 2; Type_ 0 2 "4"; Check 101]
           [Clear; Type_ 0 2 "9"; Check 102; Hint 5] 2 Hpz Hsol Hrec Hall Hgiven).
Defined.

(* ------------------------------------------------------------------ *)
(** ** A new game starts *)

Lemma bind_ret_r {A} (m : M A) st : bind m ret st = m st.
Proof. unfold bind. by destruct (m st). Qed.

Lemma cell_modify_grid {B} r c f (k : unit -> M B) st :
  grid_ok (cells st) -> (r < 9)%nat -> (c < 9)%nat ->
  exists cs, grid_ok cs /\ bind (cell_modify r c f) k st = k tt (put_cells cs st).
Proof.
  intros [Hlen Hrows] Hr Hc.
  destruct (lookup_lt_is_Some_2 (cells st) r) as [row Hrow]; [lia|].
  assert (Hl : length row = 9%nat).
  { rewrite Forall_forall in Hrows. apply Hrows.
    eapply list_elem_of_lookup_2, Hrow. }
  destruct (lookup_lt_is_Some_2 row c) as [e He]; [lia|].
  exists (<[r := <[c := f e]> row]> (cells st)). split.
  - split; [by rewrite length_insert|].
    apply Forall_insert; [exact Hrows | by rewrite length_insert].
  - apply (bind_cell_modify _ _ _ _ _ _ _ Hrow He).
Qed.

Ltac run_grid Hg :=
  match goal with
  | |- context [bind (cell_modify ?r ?c ?f) ?k ?s] =>
      let cs := fresh "cs" in
      let Hc := fresh "Hg" in
      let E := fresh "E" in
      destruct (cell_modify_grid r c f k s Hg) as (cs & Hc & E); [lia | lia |];
      rewrite E; clear E
  end.

Lemma populate_cell_returns r c st :
  (r < 9)%nat -> (c < 9)%nat -> grid_ok (cells st) -> length (puzzle st) = 81%nat ->
  exists cs, grid_ok cs /\ populate_cell r c st = Ok tt (put_cells cs st).
Proof.
  intros Hr Hc Hg Hlen. unfold populate_cell.
  destruct (lookup_lt_is_Some_2 (puzzle st) (grid_index r c)) as [v Hv].
  { unfold grid_index. lia. }
  run_grid Hg. run_grid Hg0. run_steps.
  rewrite bind_item with (a := v) by exact Hv. cbv beta.
  destruct (negb (v =? 0)).
  - run_grid Hg1. rewrite <- bind_ret_r. run_grid Hg2.
    exists cs2. split; [exact Hg3 | reflexivity].
  - exists cs0. split; [exact Hg1 | reflexivity].
Qed.

Lemma for_each_cons {A} (x : A) (l : list A) (body : A -> M unit) :
  for_each (x :: l) body = bind (body x) (fun _ => for_each l body).
Proof. reflexivity. Qed.

Lemma populate_row_returns r (cols : list nat) st :
  (r < 9)%nat -> Forall (fun c => (c < 9)%nat) cols ->
  grid_ok (cells st) -> length (puzzle st) = 81%nat ->
  exists cs, grid_ok cs /\
    for_each cols (fun c => populate_cell r c) st = Ok tt (put_cells cs st).
Proof.
  intros Hr Hcols. revert st. induction Hcols as [|c cols Hc _ IH]; intros st Hg Hlen.
  - exists (cells st). split; [exact Hg|]. by destruct st.
  - destruct (populate_cell_returns r c st Hr Hc Hg Hlen) as (cs & Hg' & Hrun).
    destruct (IH (put_cells cs st) Hg' Hlen) as (cs' & Hg'' & Hrun').
    exists cs'. split; [exact Hg''|].
    rewrite for_each_cons. unfold bind. rewrite Hrun. exact Hrun'.
Qed.

Lemma populate_rows_returns (rows : list nat) st :
  Forall (fun r => (r < 9)%nat) rows ->
  grid_ok (cells st) -> length (puzzle st) = 81%nat ->
  exists cs, grid_ok cs /\
    for_each rows (fun r => for_each (seq 0 9) (fun c => populate_cell r c)) st =
    Ok tt (put_cells cs st).
Proof.
  intros Hrows. revert st. induction Hrows as [|r rows Hr _ IH]; intros st Hg Hlen.
  - exists (cells st). split; [exact Hg|]. by destruct st.
  - destruct (populate_row_returns r (seq 0 9) st Hr) as (cs & Hg' & Hrun);
      [ apply Forall_forall; intros c Hc; apply elem_of_seq in Hc; lia
      | exact Hg | exact Hlen |].
    destruct (IH (put_cells cs st) Hg' Hlen) as (cs' & Hg'' & Hrun').
    exists cs'. split; [exact Hg''|].
    rewrite for_each_cons. unfold bind. rewrite Hrun. exact Hrun'.
Qed.

(** [new_game] returns, with the board of the record it drew. *)
Lemma new_game_with_returns (rec : string * string) (pz sol : list Z) t_grid t_timer st0 :
  parse_grid rec.1 = Some pz -> parse_grid rec.2 = Some sol ->
  length pz = 81%nat -> grid_ok (cells st0) ->
  exists st, new_game_with rec t_grid t_timer st0 = Ok tt st /\
    puzzle st = pz /\ solution st = sol /\
    given_mask st = map (fun v => negb (v =? 0)) pz /\ score st = 0 /\
    last_correct_time st = Some t_grid /\ grid_ok (cells st) /\
    current_diff st = current_diff st0 /\ state_data st = state_data st0 /\
    coins st = coins st0.
Proof.
  intros Hpz Hsol Hlen Hg. unfold new_game_with.
  rewrite (bind_orelse _ _ _ _ _ Hpz). run_steps.
  rewrite (bind_orelse _ _ _ _ _ Hsol). run_steps.
  unfold populate_grid, start_timer. run_steps.
  match goal with
  | |- context [bind (for_each ?rows ?body) ?k ?s] =>
      destruct (populate_rows_returns rows s) as (cs & Hg' & Hrun);
        [ apply Forall_forall; intros r Hr; apply elem_of_seq in Hr; lia
        | exact Hg | exact Hlen |];
      unfold bind at 1; rewrite Hrun
  end.
  run_steps. eexists. split; [reflexivity|]. simpl. repeat split; apply Hg'.
Qed.

Lemma choice_In {A} (rnd : nat) (l : list A) :
  l <> [] -> exists x, choice rnd l = Some x /\ In x l.
Proof.
  intros Hne. destruct (choice_Some rnd l Hne) as (x & Hx & Hin).
  exists x. split; [exact Hx | by apply list_elem_of_In].
Qed.

Lemma new_game_returns (diff : string) rnd t_grid t_timer st0 :
  In diff order -> grid_ok (cells st0) ->
  exists records rec pz sol st,
    assoc diff PUZZLES = Some records /\ In rec records /\
    parse_grid rec.1 = Some pz /\ parse_grid rec.2 = Some sol /\
    new_game diff rnd t_grid t_timer st0 = Ok tt st /\
    puzzle st = pz /\ solution st = sol /\
    given_mask st = map (fun v => negb (v =? 0)) pz /\ score st = 0 /\
    last_correct_time st = Some t_grid /\
    current_diff st = current_diff st0 /\ state_data st = state_data st0.
Proof.
  intros Hin Hg.
  assert (Hrec : exists records, assoc diff PUZZLES = Some records /\ records <> []).
  { simpl in Hin. destruct Hin as [<-|[<-|[<-|[]]]]; eexists; (split; [reflexivity | done]). }
  destruct Hrec as (records & Hass & Hne).
  destruct (choice_In rnd records Hne) as (rec & Hch & Hrin).
  destruct (PUZZLES_records_parse diff records rec Hass Hrin)
    as (pz & sol & Hpz & Hsol & Hlen & _).
  destruct (new_game_with_returns rec pz sol t_grid t_timer st0 Hpz Hsol Hlen Hg)
    as (st & Hrun & Hp & Hs & Hm & Hsc & Hl & _ & Hd & Hsd & _).
  exists records, rec, pz, sol, st.
  repeat (split; [assumption|]). split; [|auto 10].
  unfold new_game. rewrite (bind_orelse _ _ _ _ _ Hass). cbv beta.
  rewrite (bind_orelse _ _ _ _ _ Hch). exact Hrun.
Qed.

(* ------------------------------------------------------------------ *)
(** ** The difficulty gate *)

Lemma unlocked_ok_cases u :
  unlocked_ok u ->
  u = ["Easy"]%string \/ u = ["Easy"; "Medium"]%string \/ u = order.
Proof.
  intros [Hne [k Hk]]. unfold order in *.
  destruct u as [|a [|b [|c [|d u]]]]; simpl in Hk.
  - done.
  - injection Hk as <- _. auto.
  - injection Hk as <- <- _. auto.
  - injection Hk as <- <- <- _. auto.
  - discriminate.
Qed.

Lemma unlocked_ok_last u :
  unlocked_ok u -> exists d, last u = Some d /\ highest_unlocked u d.
Proof.
  intros H. apply unlocked_ok_cases in H as [->|[->| ->]]; eexists;
    (split; [reflexivity|]); (split; [simpl; auto|]); intros x Hx; simpl in Hx.
  - destruct Hx as [<-|[]]. exists 0%nat, 0%nat. auto.
  - destruct Hx as [<-|[<-|[]]]; [exists 0%nat, 1%nat | exists 1%nat, 1%nat]; auto.
  - destruct Hx as [<-|[<-|[<-|[]]]];
      [exists 0%nat, 2%nat | exists 1%nat, 2%nat | exists 2%nat, 2%nat]; auto.
Qed.

(** C9. With [unlocked] a prefix of [Easy, Medium, Hard]: picking a tier
    that is not unlocked shows the "Locked" box, sets the selection back
    to the highest unlocked tier and starts no game (the board and the
    score stay); picking an unlocked tier starts a new game on a record
    of that tier. *)
Theorem locked_tier_is_refused
    (st : app) (diff : string) (rnd : nat) (t_grid t_timer : Q) :
  unlocked_ok (unlocked (state_data st)) ->
  grid_ok (cells st) ->
  (str_in diff (unlocked (state_data st)) = false ->
   exists fallback,
     highest_unlocked (unlocked (state_data st)) fallback /\
     select_difficulty diff rnd t_grid t_timer st =
       Ok tt (put_current_diff fallback
                (put_dialogs
                   (dialogs st ++
                    [{| kind := showinfo; title := "Locked";
                        message := diff +:+ " is locked. Finish the previous difficulty to unlock." |}])
                   (put_current_diff diff st))) /\
     let st' := final (select_difficulty diff rnd t_grid t_timer st) in
     current_diff st' = fallback /\ puzzle st' = puzzle st /\
     solution st' = solution st /\ given_mask st' = given_mask st /\
     score st' = score st /\ last_correct_time st' = last_correct_time st) /\
  (str_in diff (unlocked (state_data st)) = true ->
   exists records rec pz sol st',
     assoc diff PUZZLES = Some records /\ In rec records /\
     parse_grid rec.1 = Some pz /\ parse_grid rec.2 = Some sol /\
     select_difficulty diff rnd t_grid t_timer st = Ok tt st' /\
     current_diff st' = diff /\ puzzle st' = pz /\ solution st' = sol /\
     given_mask st' = map (fun v => negb (v =? 0)) pz /\ score st' = 0 /\
     last_correct_time st' = Some t_grid).
Proof.
  intros Hu Hg. split; intros Hin.
  - destruct (unlocked_ok_last _ Hu) as (d & Hlast & Hhigh).
    assert (Hrun : select_difficulty diff rnd t_grid t_timer st =
       Ok tt (put_current_diff d
                (put_dialogs
                   (dialogs st ++
                    [{| kind := showinfo; title := "Locked";
                        message := diff +:+ " is locked. Finish the previous difficulty to unlock." |}])
                   (put_current_diff diff st)))).
    { unfold select_difficulty, on_diff_change, show. run_steps.
      simpl. rewrite Hin. simpl. run_steps.
      rewrite bind_orelse with (a := d) by (simpl; exact Hlast). reflexivity. }
    exists d. split; [exact Hhigh|]. split; [exact Hrun|].
    rewrite Hrun. simpl. repeat split.
  - assert (Hord : In diff order).
    { apply str_in_In in Hin.
      apply unlocked_ok_cases in Hu as [Hu|[Hu|Hu]]; rewrite Hu in Hin;
        simpl in *; tauto. }
    destruct (new_game_returns diff rnd t_grid t_timer (put_current_diff diff st) Hord Hg)
      as (records & rec & pz & sol & st' & Hass & Hrin & Hpz & Hsol & Hrun
          & Hp & Hs & Hm & Hsc & Hl & Hd & _).
    exists records, rec, pz, sol, st'.
    repeat (split; [assumption|]). split; [|auto 10].
    unfold select_difficulty, on_diff_change. run_steps.
    simpl. rewrite Hin. simpl. exact Hrun.
Qed.

Lemma medium_unlocked_is_start_up :
  medium_unlocked =
  final (init {| save_coins := 20; unlocked := ["Easy"; "Medium"]%string;
                 owned_skins := ["Classic"%string]; active_skin := "Classic" |}
           0 100 100).
Proof. vm_compute. reflexivity. Qed.

Lemma locked_tier_is_refused_witness :
  (exists fallback,
     highest_unlocked ["Easy"; "Medium"]%string fallback /\
     current_diff (final (select_difficulty "Hard" 1 200 200 medium_unlocked)) = fallback /\
     puzzle (final (select_difficulty "Hard" 1 200 200 medium_unlocked)) =
       puzzle medium_unlocked) /\
  exists st', select_difficulty "Medium" 1 200 200 medium_unlocked = Ok tt st' /\
              current_diff st' = "Medium"%string /\ score st' = 0.
Proof.
  assert (Hu : unlocked_ok (unlocked (state_data medium_unlocked))).
  { split; [discriminate|]. exists ["Hard"%string]. reflexivity. }
  assert (Hg : grid_ok (cells medium_unlocked)).
  { split; [reflexivity|]. repeat constructor. }
  split.
  - destruct (locked_tier_is_refused medium_unlocked "Hard" 1 200 200 Hu Hg) as [Hlocked _].
    destruct (Hlocked eq_refl) as (fb & Hhigh & _ & Hd & Hp & _).
    exists fb. split; [exact Hhigh|]. split; [exact Hd | exact Hp].
  - destruct (locked_tier_is_refused medium_unlocked "Medium" 1 200 200 Hu Hg) as [_ Hopen].
    destruct (Hopen eq_refl)
      as (records & rec & pz & sol & st' & _ & _ & _ & _ & Hrun & Hd & _ & _ & _ & Hs & _).
    exists st'. split; [exact Hrun|]. split; [exact Hd | exact Hs].
Defined.

(* ------------------------------------------------------------------ *)
(** ** The completion bonus *)

(** [on_win] pays the bonus of the difficulty that is selected when it
    runs, and unlocks the tier after that one; it pays at every call. *)
Lemma on_win_selected_tier (st : app) (d : string) (b : Z) :
  current_diff st = d -> assoc d BONUS = Some b ->
  let st' := final (on_win st) in
  coins st' = coins st + b /\
  save_coins (state_data st') = coins st + b /\
  unlocked (state_data st') =
    match successor d with
    | Some next =>
        if str_in next (unlocked (state_data st))
        then unlocked (state_data st)
        else unlocked (state_data st) ++ [next]
    | None => unlocked (state_data st)
    end.
Proof.
  intros Hd Hb. cbv zeta.
  assert (Hi : exists i, index_of d order = Some i).
  { revert Hb. unfold assoc, BONUS, index_of, order.
    destruct (String.eqb d "Easy"); [eauto|].
    destruct (String.eqb d "Medium"); [eauto|].
    destruct (String.eqb d "Hard"); [eauto | discriminate]. }
  destruct Hi as [i Hi]. unfold successor. rewrite Hi.
  unfold on_win, stop_timer, show. run_steps.
  rewrite bind_orelse with (a := b) by (simpl; rewrite Hd; exact Hb).
  run_steps.
  rewrite bind_orelse with (a := i) by (simpl; rewrite Hd; exact Hi).
  run_steps.
  destruct (order !! (i + 1)%nat) as [next|]; run_steps.
  - simpl. destruct (str_in next (unlocked (state_data st))); run_steps; simpl; auto.
  - simpl. auto.
Qed.

(** C4, on the code. After the refused pick of Hard the combobox shows
    Medium while the board in play is the Easy one; completing that Easy
    board pays the Medium bonus, 40 instead of 20, and unlocks Hard, with
    no Medium puzzle ever completed. *)
Theorem easy_board_pays_medium_bonus :
  unlocked (state_data first_win) = ["Easy"; "Medium"]%string /\
  coins first_win = 20 /\
  match assoc "Easy" PUZZLES with
  | Some (rec :: _) => parse_grid rec.1 = Some (puzzle easy_again) /\
                       parse_grid rec.2 = Some (solution easy_again)
  | _ => False
  end /\
  current_diff easy_again = "Medium"%string /\
  coins second_win = coins easy_again + 40 /\
  unlocked (state_data second_win) = ["Easy"; "Medium"; "Hard"]%string /\
  last (dialogs second_win) =
    Some {| kind := showinfo; title := "You win!";
            message := "You completed Medium!" +:+ nl +:+ "Score: 0" +:+ nl
                       +:+ "+40 coins." +:+ nl +:+ "Unlocked: Hard!" |}.
Proof. vm_compute. repeat split. Qed.

(* ================================================================== *)
(** * More properties of the code *)

(** ** Grids of digits *)

Lemma digit_of_ascii_range ch d : digit_of_ascii ch = Some d -> 0 <= d <= 9.
Proof.
  unfold digit_of_ascii.
  destruct (_ && _) eqn:E; [|discriminate]. intros [= <-].
  apply andb_true_iff in E as [H1 H2]. apply Z.leb_le in H1, H2. lia.
Qed.

(** X1. [parse_grid] gives one digit between 0 and 9 for each character; it
    raises exactly when a character is not a decimal digit. *)
Theorem parse_grid_shape (s : string) :
  (forall l, parse_grid s = Some l ->
             length l = String.length s /\ Forall (fun v => 0 <= v <= 9) l) /\
  (parse_grid s = None <-> all_digits s = false).
Proof.
  induction s as [|ch s [IHs IHn]]; simpl.
  - split; [intros l [= <-]; auto | split; discriminate].
  - destruct (digit_of_ascii ch) as [d|] eqn:Hd; [|split; [discriminate | tauto]].
    destruct (parse_grid s) as [l'|]; simpl.
    + split.
      * intros l [= <-]. destruct (IHs l' eq_refl) as [Hlen Hall]. simpl. split.
        -- by rewrite Hlen.
        -- constructor; [eapply digit_of_ascii_range, Hd | exact Hall].
      * split; [discriminate|]. intros H. apply IHn in H. discriminate.
    + split; [discriminate|]. split; [intros _; by apply IHn | reflexivity].
Qed.

(* ------------------------------------------------------------------ *)
(** ** Entries of the grid *)

Lemma grid_ok_cell_at cs r c :
  grid_ok cs -> (r < 9)%nat -> (c < 9)%nat -> is_Some (cell_at cs r c).
Proof.
  intros [Hlen Hrows] Hr Hc. unfold cell_at.
  destruct (lookup_lt_is_Some_2 cs r) as [row Hrow]; [lia|].
  rewrite Hrow. simpl. apply lookup_lt_is_Some_2.
  rewrite Forall_forall in Hrows. rewrite (Hrows row); [lia|].
  eapply list_elem_of_lookup_2, Hrow.
Qed.

Lemma cell_at_upd_eq cs r c e x :
  cell_at cs r c = Some e -> cell_at (upd r c x cs) r c = Some x.
Proof.
  unfold cell_at, upd. destruct (cs !! r) as [row|] eqn:Hrow; [|discriminate].
  simpl. intros He.
  rewrite list_lookup_insert_eq by (eapply lookup_lt_Some, Hrow). simpl.
  apply list_lookup_insert_eq. eapply lookup_lt_Some, He.
Qed.

Lemma cell_at_upd_ne cs r c r' c' x :
  (r', c') <> (r, c) -> cell_at (upd r c x cs) r' c' = cell_at cs r' c'.
Proof.
  intros Hne. unfold cell_at, upd.
  destruct (cs !! r) as [row|] eqn:Hrow; [|reflexivity].
  destruct (decide (r = r')) as [<-|Hr].
  - rewrite list_lookup_insert_eq by (eapply lookup_lt_Some, Hrow).
    rewrite Hrow. simpl. apply list_lookup_insert_ne. congruence.
  - by rewrite list_lookup_insert_ne.
Qed.

Lemma upd_upd cs r c x y : upd r c y (upd r c x cs) = upd r c y cs.
Proof.
  unfold upd. destruct (cs !! r) as [row|] eqn:Hrow; [|by rewrite Hrow].
  rewrite list_lookup_insert_eq by (eapply lookup_lt_Some, Hrow).
  by rewrite list_insert_insert_eq, list_insert_insert_eq.
Qed.

Lemma grid_ok_upd cs r c x : grid_ok cs -> grid_ok (upd r c x cs).
Proof.
  intros [Hlen Hrows]. unfold upd.
  destruct (cs !! r) as [row|] eqn:Hrow; [|by split].
  split; [by rewrite length_insert|].
  apply Forall_insert; [exact Hrows|]. rewrite length_insert.
  rewrite Forall_forall in Hrows. apply Hrows.
  eapply list_elem_of_lookup_2, Hrow.
Qed.

Lemma bind_cell_modify_upd {B} r c f e (k : unit -> M B) st :
  cell_at (cells st) r c = Some e ->
  bind (cell_modify r c f) k st = k tt (put_cells (upd r c (f e) (cells st)) st).
Proof.
  unfold cell_at, upd. destruct (cells st !! r) as [row|] eqn:Hrow; [|discriminate].
  simpl. intros He. apply (bind_cell_modify _ _ _ _ _ _ _ Hrow He).
Qed.

Lemma cell_modify_upd r c f e st :
  cell_at (cells st) r c = Some e ->
  cell_modify r c f st = Ok tt (put_cells (upd r c (f e) (cells st)) st).
Proof.
  intros He. rewrite <- bind_ret_r. by rewrite (bind_cell_modify_upd _ _ _ _ _ _ He).
Qed.

Lemma cell_modify_missing r c f st :
  cell_at (cells st) r c = None -> cell_modify r c f st = Raise IndexError st.
Proof.
  unfold cell_at, cell_modify. intros H. rewrite bind_get.
  destruct (cells st !! r) as [row|] eqn:Hrow.
  - rewrite (bind_item _ _ _ _ _ Hrow). simpl in H.
    unfold item. by rewrite (bind_orelse_None _ _ _ _ H).
  - unfold item. by rewrite (bind_orelse_None _ _ _ _ Hrow).
Qed.

(* ------------------------------------------------------------------ *)
(** ** The key filter *)

Lemma append_empty (s : string) : s +:+ "" = s.
Proof.
  induction s as [|a s IH]; [reflexivity|].
  change (String a s +:+ "") with (String a (s +:+ "")). by rewrite IH.
Qed.

Lemma entry_typed_upd r c t e st :
  cell_at (cells st) r c = Some e ->
  entry_typed r c t st =
    Ok tt (put_cells (upd r c (if disabled e then e
                               else {| text := t; disabled := false |}) (cells st)) st).
Proof. intros He. unfold entry_typed. by rewrite (cell_modify_upd _ _ _ _ _ He). Qed.

Lemma last_char_digit (ch : string) :
  isdigit ch = true ->
  isdigit (last_char ch) = true /\ String.length (last_char ch) = 1%nat.
Proof.
  destruct ch as [|a ch]; [discriminate|].
  change (isdigit (String a ch)) with (all_digit_chars (String a ch)).
  revert a. induction ch as [|b ch IH]; intros a Hd.
  - split; [exact Hd | reflexivity].
  - change (last_char (String a (String b ch))) with (last_char (String b ch)).
    apply IH. simpl in Hd. by apply andb_true_iff in Hd as [_ Hd].
Qed.

(** The one-character texts [isdigit()] accepts, zero apart. *)
Lemma one_digit_text (ch : string) :
  (String.length ch <= 1)%nat -> isdigit ch = true -> String.eqb ch "0" = false ->
  last_char ch = ch /\
  ((exists d, 1 <= d <= 9 /\ py_int ch = Some d) \/
   (In ch superscripts /\ py_int ch = None)).
Proof.
  destruct ch as [|a [|b ch]]; simpl; [discriminate | | lia].
  intros _ Hd Hz. split; [reflexivity|].
  destruct a as [[] [] [] [] [] [] [] []]; vm_compute in Hd; try discriminate Hd;
    vm_compute in Hz; try discriminate Hz;
    first [ left; eexists; split; [|vm_compute; reflexivity]; lia
          | right; split; [vm_compute; tauto | vm_compute; reflexivity] ].
Qed.

(** X2. After a key press [on_key] leaves the entry as [BackSpace] and
    [Delete] left it, or replaces its text: by the last character of the
    key's text when [isdigit()] accepts that text and it is not "0", by
    nothing otherwise, also for a key without a character. What is kept is
    one digit character; for a key of one character it is a digit of 1 to
    9, or a superscript digit, which [isdigit()] accepts and [int]
    refuses. What [on_key] does is one edit of the entry, and a disabled
    entry keeps its text. *)
Theorem on_key_filters_entry (st : app) (r c : nat) (keysym ch : string) (e : entry) :
  cell_at (cells st) r c = Some e ->
  (str_in keysym ["BackSpace"; "Delete"]%string = true ->
   on_key r c keysym ch st = Ok tt st) /\
  (str_in keysym ["BackSpace"; "Delete"]%string = false ->
   exists t,
     on_key r c keysym ch st = entry_typed r c t st /\
     t = (if isdigit ch && negb (String.eqb ch "0") then last_char ch else ""%string) /\
     (t = ""%string \/ isdigit t = true /\ String.length t = 1%nat) /\
     ((String.length ch <= 1)%nat -> t <> ""%string ->
      t = ch /\
      ((exists d, 1 <= d <= 9 /\ py_int t = Some d) \/
       (In t superscripts /\ py_int t = None))) /\
     cell_at (cells (final (on_key r c keysym ch st))) r c =
       Some (if disabled e then e else {| text := t; disabled := false |})).
Proof.
  intros He. split; intros Hk; unfold on_key; rewrite Hk; [reflexivity|].
  destruct (negb (isdigit ch) || String.eqb ch "0") eqn:Hbad.
  - exists ""%string. rewrite (entry_typed_upd _ _ _ _ _ He), (cell_modify_upd _ _ _ _ _ He).
    assert (Hsame : entry_delete e = if disabled e then e else {| text := ""; disabled := false |}).
    { unfold entry_delete. reflexivity. }
    rewrite Hsame. split; [reflexivity|]. split.
    { apply orb_true_iff in Hbad as [Hd|Hz].
      - apply negb_true_iff in Hd. by rewrite Hd.
      - rewrite Hz. simpl. by rewrite andb_false_r. }
    split; [by left|]. split; [intros _ Hne; by destruct Hne|].
    simpl. eapply cell_at_upd_eq, He.
  - apply orb_false_iff in Hbad as [Hd Hz]. apply negb_false_iff in Hd.
    destruct (last_char_digit ch Hd) as [Hld Hll].
    exists (last_char ch).
    rewrite (entry_typed_upd _ _ _ _ _ He), (bind_cell_modify_upd _ _ _ _ _ _ He).
    rewrite cell_modify_upd with (e := entry_delete e)
      by (simpl; eapply cell_at_upd_eq, He).
    simpl. rewrite upd_upd.
    assert (Hsame : entry_insert (last_char ch) (entry_delete e) =
                    if disabled e then e
                    else {| text := last_char ch; disabled := false |}).
    { unfold entry_insert, entry_delete. destruct e as [t [|]]; simpl; [reflexivity|].
      by rewrite append_empty. }
    rewrite Hsame. split; [reflexivity|]. split; [by rewrite Hd, Hz|].
    split; [right; auto|]. split.
    + intros Hlen _. destruct (one_digit_text ch Hlen Hd Hz) as [-> Hcases].
      split; [reflexivity | exact Hcases].
    + simpl. eapply cell_at_upd_eq, He.
Qed.

Lemma on_key_filters_entry_witness :
  cell_at (cells (final (on_key 0 2 "7" "7" opening))) 0 2 =
    Some {| text := "7"; disabled := false |} /\
  cell_at (cells (final (on_key 0 2 "twosuperior" (String (ascii_of_nat 178) "") opening))) 0 2 =
    Some {| text := String (ascii_of_nat 178) ""; disabled := false |} /\
  cell_at (cells (final (on_key 0 2 "Left" "" right_guess))) 0 2 =
    Some {| text := ""; disabled := false |} /\
  on_key 0 2 "BackSpace" "" right_guess = Ok tt right_guess.
Proof.
  split; [|split; [|split]].
  - destruct (on_key_filters_entry opening 0 2 "7" "7" _ eq_refl) as [_ H].
    destruct (H eq_refl) as (t & _ & -> & _ & _ & Hcell). exact Hcell.
  - destruct (on_key_filters_entry opening 0 2 "twosuperior"
                (String (ascii_of_nat 178) "") _ eq_refl) as [_ H].
    destruct (H eq_refl) as (t & _ & -> & _ & _ & Hcell). exact Hcell.
  - destruct (on_key_filters_entry right_guess 0 2 "Left" "" _ eq_refl) as [_ H].
    destruct (H eq_refl) as (t & _ & -> & _ & _ & Hcell). exact Hcell.
  - destruct (on_key_filters_entry right_guess 0 2 "BackSpace" "" _ eq_refl) as [H _].
    exact (H eq_refl).
Defined.

(* ------------------------------------------------------------------ *)
(** ** What [load_state] returns, file by file *)

Lemma DEFAULT_SAVE_keys k :
  is_Some (DEFAULT_SAVE !! k) <->
  In k ["coins"; "unlocked"; "owned_skins"; "active_skin"]%string.
Proof.
  unfold DEFAULT_SAVE. rewrite <- elem_of_dom, dom_list_to_map_L.
  rewrite <- list_elem_of_In. simpl. set_solver.
Qed.

Lemma ensure_keys_not_dict items data data' :
  (forall m, data <> JObj m) ->
  ensure_keys items data = Some data' ->
  data' = data /\ forall k v, In (k, v) items -> json_contains k data = Some true.
Proof.
  intros Hnd. induction items as [|[k v] items IH]; simpl.
  - intros [= <-]. split; [reflexivity | tauto].
  - destruct (json_contains k data) as [[|]|] eqn:Hk; [| |discriminate].
    + intros H. destruct (IH H) as [-> Hall]. split; [reflexivity|].
      intros k' v' [[= <- <-]|Hin]; [exact Hk | eauto].
    + destruct data; simpl; try discriminate. by destruct (Hnd m).
Qed.

(** X3. Whatever the save file holds, [load_state] returns an object with
    the four fields, with one exception: a JSON array or string in which
    Python's [in] finds the four names is returned as it is. *)
Theorem load_state_every_file (f : save_file) :
  (exists m, load_state f = JObj m /\
             forall k, In k ["coins"; "unlocked"; "owned_skins"; "active_skin"]%string ->
                       is_Some (m !! k)) \/
  (exists data, f = Loads data /\ load_state f = data /\
                ((exists l, data = JArr l) \/ (exists s, data = JStr s)) /\
                forall k, In k ["coins"; "unlocked"; "owned_skins"; "active_skin"]%string ->
                          json_contains k data = Some true).
Proof.
  assert (Hdefault : forall k,
            In k ["coins"; "unlocked"; "owned_skins"; "active_skin"]%string ->
            is_Some (DEFAULT_SAVE !! k)) by (intros k; apply DEFAULT_SAVE_keys).
  destruct f as [| |data]; [left; eexists; split; [reflexivity | exact Hdefault] ..|].
  destruct (ensure_keys DEFAULT_ITEMS data) as [data'|] eqn:Hrun.
  2: { left. exists DEFAULT_SAVE. unfold load_state. rewrite Hrun.
       split; [reflexivity | exact Hdefault]. }
  assert (Hload : load_state (Loads data) = data') by (unfold load_state; by rewrite Hrun).
  destruct data as [| b | z | q | s | l | m].
  1-4: discriminate.
  3: { left. rewrite ensure_keys_dict in Hrun. injection Hrun as <-.
       fold DEFAULT_SAVE in Hload.
       exists (m ∪ DEFAULT_SAVE). split; [exact Hload|].
       intros k Hk. rewrite lookup_union.
       destruct (Hdefault k Hk) as [v ->]. by destruct (m !! k). }
  all: right;
    match type of Hrun with
    | ensure_keys _ ?d = _ =>
        assert (Hnd : forall m, d <> JObj m) by (intros ?; discriminate);
        destruct (ensure_keys_not_dict _ d _ Hnd Hrun) as [-> Hall]
    end;
    eexists; split; [reflexivity|]; split; [exact Hload|]; split; [eauto|];
    intros k Hk; simpl in Hk;
    destruct Hk as [<-|[<-|[<-|[<-|[]]]]]; eapply Hall; simpl; eauto.
Qed.

Lemma json_strings_fmap (l : list string) : json_strings (JArr (JStr <$> l)) = Some l.
Proof.
  simpl. induction l as [|x l IH]; [reflexivity|].
  rewrite fmap_cons. simpl. rewrite IH. reflexivity.
Qed.

(** X4. A save that has the four fields goes through [load_state] unchanged:
    the dict of a typed save, written and read back, is that save. *)
Theorem complete_save_loads_back :
  (forall m : gmap string json,
     (forall k, In k ["coins"; "unlocked"; "owned_skins"; "active_skin"]%string ->
                is_Some (m !! k)) ->
     load_state (Loads (JObj m)) = JObj m) /\
  (forall sd : save,
     load_state (Loads (json_of_save sd)) = json_of_save sd /\
     save_of_json (load_state (Loads (json_of_save sd))) = Some sd).
Proof.
  assert (Hgen : forall m : gmap string json,
     (forall k, In k ["coins"; "unlocked"; "owned_skins"; "active_skin"]%string ->
                is_Some (m !! k)) ->
     load_state (Loads (JObj m)) = JObj m).
  { intros m Hm. unfold load_state. rewrite ensure_keys_dict. f_equal.
    fold DEFAULT_SAVE. apply map_eq. intros k. rewrite lookup_union.
    destruct (m !! k) as [v|] eqn:Hk; [by destruct (DEFAULT_SAVE !! k)|].
    destruct (DEFAULT_SAVE !! k) as [v|] eqn:Hd; [|reflexivity].
    assert (Hin : is_Some (DEFAULT_SAVE !! k)) by eauto.
    apply DEFAULT_SAVE_keys, Hm in Hin. rewrite Hk in Hin. by destruct Hin. }
  split; [exact Hgen|]. intros sd.
  assert (Hload : load_state (Loads (json_of_save sd)) = json_of_save sd).
  { apply Hgen. intros k Hk. simpl in Hk.
    destruct Hk as [<-|[<-|[<-|[<-|[]]]]]; eexists; reflexivity. }
  split; [exact Hload|]. rewrite Hload.
  unfold save_of_json, json_of_save.
  change (list_to_map _ !! "coins"%string) with (Some (JInt (save_coins sd))).
  change (list_to_map _ !! "unlocked"%string) with (Some (JArr (JStr <$> unlocked sd))).
  change (list_to_map _ !! "owned_skins"%string)
    with (Some (JArr (JStr <$> owned_skins sd))).
  change (list_to_map _ !! "active_skin"%string) with (Some (JStr (active_skin sd))).
  cbv beta iota. rewrite !json_strings_fmap. simpl. by destruct sd.
Qed.

Lemma complete_save_loads_back_witness :
  save_of_json (load_state (Loads (json_of_save (state_data ocean_owner)))) =
    Some (state_data ocean_owner).
Proof. apply complete_save_loads_back. Defined.

(* ------------------------------------------------------------------ *)
(** ** The clock text *)

Lemma pad2_two_digits (n : Z) :
  0 <= n < 100 ->
  String.length (pad2 n) = 2%nat /\
  (isdigit (pad2 n) = true /\ all_digits (pad2 n) = true) /\
  int_of_text (pad2 n) = n.
Proof.
  intros Hn.
  assert (Hall : forallb (fun k => let n := Z.of_nat k in
                            (String.length (pad2 n) =? 2)%nat
                            && (isdigit (pad2 n) && all_digits (pad2 n))
                            && (int_of_text (pad2 n) =? n)) (seq 0 100) = true)
    by (vm_compute; reflexivity).
  rewrite forallb_forall in Hall.
  specialize (Hall (Z.to_nat n)). rewrite Z2Nat.id in Hall by lia.
  assert (Hin : In (Z.to_nat n) (seq 0 100)) by (apply in_seq; lia).
  apply Hall in Hin. cbv zeta in Hin.
  apply andb_true_iff in Hin as [Hin H3]. apply andb_true_iff in Hin as [H1 H2].
  apply andb_true_iff in H2 as [H2 H2'].
  apply Nat.eqb_eq in H1. apply Z.eqb_eq in H3. auto.
Qed.

(** X5. Under a hundred minutes the clock text is two decimal digits of
    minutes, a colon and two decimal digits of seconds below 60, which
    together give back the whole seconds elapsed. *)
Theorem format_time_reads_back (seconds : Q) :
  (0 <= seconds)%Q -> Qfloor seconds < 6000 ->
  exists mm ss,
    format_time seconds = mm +:+ ":" +:+ ss /\
    String.length mm = 2%nat /\ String.length ss = 2%nat /\
    isdigit mm = true /\ isdigit ss = true /\
    all_digits mm = true /\ all_digits ss = true /\
    0 <= int_of_text ss < 60 /\
    60 * int_of_text mm + int_of_text ss = Qfloor seconds.
Proof.
  intros Hpos Hlt. unfold format_time.
  rewrite (int_of_float_nonneg _ Hpos).
  pose proof (Qfloor_resp_le 0 seconds Hpos) as H0. change (Qfloor 0) with 0 in H0.
  set (n := Qfloor seconds) in *.
  destruct (pad2_two_digits (n / 60)) as (Hm1 & [Hm2 Hm2'] & Hm3).
  { split; [apply Z.div_pos; lia | apply Z.div_lt_upper_bound; lia]. }
  destruct (pad2_two_digits (n mod 60)) as (Hs1 & [Hs2 Hs2'] & Hs3).
  { pose proof (Z.mod_pos_bound n 60). lia. }
  exists (pad2 (n / 60)), (pad2 (n mod 60)).
  rewrite Hm3, Hs3. repeat split; try assumption.
  - apply Z.mod_pos_bound. lia.
  - apply Z.mod_pos_bound. lia.
  - pose proof (Z.div_mod n 60). lia.
Qed.

Lemma format_time_reads_back_witness :
  exists mm ss, format_time (1255 # 10) = mm +:+ ":" +:+ ss /\
                60 * int_of_text mm + int_of_text ss = 125.
Proof.
  assert (Hpos : (0 <= 1255 # 10)%Q) by (vm_compute; discriminate).
  assert (Hlt : Qfloor (1255 # 10) < 6000) by (vm_compute; reflexivity).
  destruct (format_time_reads_back (1255 # 10) Hpos Hlt)
    as (mm & ss & Hf & _ & _ & _ & _ & _ & _ & _ & Hsum).
  exists mm, ss. split; [exact Hf | exact Hsum].
Defined.

(* ------------------------------------------------------------------ *)
(** ** A running application never raises *)

Lemma grid_index_inj r c r' c' :
  (c < 9)%nat -> (c' < 9)%nat -> grid_index r c = grid_index r' c' -> (r, c) = (r', c').
Proof. unfold grid_index. intros Hc Hc' H. f_equal; lia. Qed.

Lemma board_ok_grid st : board_ok st -> grid_ok (cells st).
Proof. intros (_ & _ & _ & H1 & H2). by split. Qed.

(** The mask and the grid after the entry at [(r, c)] and the mask at
    its index were written together. *)
Lemma widgets_upd cs (mask mask' : list bool) r c e' :
  (r < 9)%nat -> (c < 9)%nat ->
  (forall r' c' e, (r' < 9)%nat -> (c' < 9)%nat -> cell_at cs r' c' = Some e ->
                   mask !! grid_index r' c' = Some (disabled e)) ->
  is_Some (cell_at cs r c) ->
  mask' !! grid_index r c = Some (disabled e') ->
  (forall j, j <> grid_index r c -> mask' !! j = mask !! j) ->
  forall r' c' e, (r' < 9)%nat -> (c' < 9)%nat ->
                  cell_at (upd r c e' cs) r' c' = Some e ->
                  mask' !! grid_index r' c' = Some (disabled e).
Proof.
  intros Hr Hc Hw [e0 He0] Hnew Hold r' c' e Hr' Hc' He.
  destruct (decide ((r', c') = (r, c))) as [[= -> ->]|Hne].
  - rewrite (cell_at_upd_eq _ _ _ _ _ He0) in He. by injection He as <-.
  - rewrite cell_at_upd_ne in He by exact Hne.
    rewrite Hold; [eauto|]. intros Heq. apply Hne.
    by apply grid_index_inj.
Qed.

(** [sound] looks at some fields only. *)
Lemma sound_frame st st' :
  sound st ->
  given_mask st' = given_mask st -> puzzle st' = puzzle st ->
  solution st' = solution st -> cells st' = cells st -> selected st' = selected st ->
  state_data st' = state_data st -> current_diff st' = current_diff st ->
  coins st' = coins st -> 0 <= score st' -> skin st' = skin st ->
  sound st'.
Proof.
  unfold sound, board_ok, widgets_ok.
  intros H -> -> -> -> -> -> -> -> Hscore ->. tauto.
Qed.

Lemma sound_intro st :
  board_ok st -> widgets_ok st ->
  ((selected st).1 < 9)%nat -> ((selected st).2 < 9)%nat ->
  unlocked_ok (unlocked (state_data st)) ->
  In (current_diff st) (unlocked (state_data st)) ->
  coins st = save_coins (state_data st) -> 0 <= coins st -> 0 <= score st ->
  In (active_skin (state_data st)) (owned_skins (state_data st)) ->
  In (active_skin (state_data st)) SKINS ->
  skin st = active_skin (state_data st) ->
  sound st.
Proof. unfold sound. auto 15. Qed.

Lemma in_unlocked_order u d : unlocked_ok u -> In d u -> In d order.
Proof.
  intros Hu Hd. apply unlocked_ok_cases in Hu as [->|[->| ->]]; simpl in *; tauto.
Qed.

Lemma unlocked_ok_successor u d next :
  unlocked_ok u -> In d u -> successor d = Some next -> str_in next u = false ->
  unlocked_ok (u ++ [next]).
Proof.
  intros Hu Hd Hs Hn.
  assert (Hcases : (u = ["Easy"]%string /\ next = "Medium"%string) \/
                   (u = ["Easy"; "Medium"]%string /\ next = "Hard"%string)).
  { apply unlocked_ok_cases in Hu as [->|[->| ->]]; simpl in Hd.
    - destruct Hd as [<-|[]]. injection Hs as <-. auto.
    - destruct Hd as [<-|[<-|[]]]; injection Hs as <-; [discriminate | auto].
    - destruct Hd as [<-|[<-|[<-|[]]]]; try discriminate;
        injection Hs as <-; discriminate. }
  destruct Hcases as [[-> ->]|[-> ->]]; (split; [discriminate|]).
  - exists ["Hard"%string]. reflexivity.
  - exists []. reflexivity.
Qed.

Lemma bonus_of_tier d :
  In d order -> exists b i, assoc d BONUS = Some b /\ index_of d order = Some i /\ 0 <= b.
Proof.
  simpl. intros [<-|[<-|[<-|[]]]]; do 2 eexists; (split; [reflexivity|]);
    (split; [reflexivity|]); lia.
Qed.

(** [on_win] returns, and leaves a sound state. *)
Lemma on_win_sound st : sound st -> exists st', on_win st = Ok tt st' /\ sound st'.
Proof.
  intros Hs.
  pose proof Hs as (Hb & Hw & Hr & Hc & Hu & Hd & Hcoins & Hpos & Hscore & Hact & Hsk & Hskin).
  destruct (bonus_of_tier _ (in_unlocked_order _ _ Hu Hd)) as (b & i & Hbonus & Hidx & Hb0).
  unfold on_win, stop_timer, show. run_steps.
  rewrite bind_orelse with (a := b) by exact Hbonus. run_steps.
  rewrite bind_orelse with (a := i) by exact Hidx. run_steps.
  assert (Hbase : forall st1,
            given_mask st1 = given_mask st -> puzzle st1 = puzzle st ->
            solution st1 = solution st -> cells st1 = cells st ->
            selected st1 = selected st -> current_diff st1 = current_diff st ->
            score st1 = score st -> skin st1 = skin st ->
            coins st1 = coins st + b ->
            save_coins (state_data st1) = coins st + b ->
            owned_skins (state_data st1) = owned_skins (state_data st) ->
            active_skin (state_data st1) = active_skin (state_data st) ->
            unlocked_ok (unlocked (state_data st1)) ->
            (forall x, In x (unlocked (state_data st)) -> In x (unlocked (state_data st1))) ->
            sound st1).
  { intros st1 E1 E2 E3 E4 E5 E6 E7 E8 E9 E10 E11 E12 Hu1 Hsub.
    apply sound_intro.
    - unfold board_ok. rewrite E1, E2, E3, E4. exact Hb.
    - unfold widgets_ok. rewrite E1, E4. exact Hw.
    - by rewrite E5.
    - by rewrite E5.
    - exact Hu1.
    - rewrite E6. apply Hsub, Hd.
    - by rewrite E9, E10.
    - rewrite E9. lia.
    - by rewrite E7.
    - by rewrite E11, E12.
    - by rewrite E12.
    - by rewrite E8, E12. }
  destruct (order !! (i + 1)%nat) as [next|] eqn:Hnext; run_steps.
  - simpl. destruct (str_in next (unlocked (state_data st))) eqn:Hin; simpl; run_steps.
    + eexists. split; [reflexivity|]. apply Hbase; simpl; auto.
    + eexists. split; [reflexivity|]. apply Hbase; simpl; auto.
      * eapply unlocked_ok_successor; eauto. unfold successor. by rewrite Hidx.
      * intros x Hx. apply in_or_app. auto.
  - eexists. split; [reflexivity|]. apply Hbase; simpl; auto.
Qed.

Lemma all_equal_total (p s : list Z) (idxs : list nat) :
  (forall i, In i idxs -> (i < length p)%nat /\ (i < length s)%nat) ->
  exists b, all_equal idxs p s = Some b.
Proof.
  induction idxs as [|i idxs IH]; intros Hlt; [by exists true|].
  destruct (Hlt i (or_introl eq_refl)) as [Hp Hs].
  destruct (lookup_lt_is_Some_2 p i Hp) as [a Ha].
  destruct (lookup_lt_is_Some_2 s i Hs) as [b Hb].
  change (all_equal (i :: idxs) p s) with
    (match p !! i, s !! i with
     | Some a, Some b => if a =? b then all_equal idxs p s else Some false
     | _, _ => None
     end).
  rewrite Ha, Hb. destruct (a =? b); [|by exists false].
  apply IH. intros j Hj. apply Hlt. by right.
Qed.

Lemma check_win_sound st : sound st -> exists st', check_win st = Ok tt st' /\ sound st'.
Proof.
  intros Hs. pose proof Hs as ((Hgm & Hpz & Hsol & _) & _).
  destruct (all_equal_total (puzzle st) (solution st) (seq 0 81)) as [b Hb].
  { intros i Hi. apply in_seq in Hi. lia. }
  unfold check_win, is_completed. run_steps.
  rewrite bind_orelse with (a := b) by exact Hb. cbv beta.
  destruct b; [apply on_win_sound, Hs|]. exists st. split; [reflexivity | exact Hs].
Qed.

Lemma bind_cell_get_at {B} r c e (k : entry -> M B) st :
  cell_at (cells st) r c = Some e -> bind (cell_get r c) k st = k e st.
Proof.
  unfold cell_at. destruct (cells st !! r) as [row|] eqn:Hrow; [|discriminate].
  simpl. intros He. apply (bind_cell_get _ _ _ _ _ _ Hrow He).
Qed.

Lemma sound_cell st r c :
  sound st -> (r < 9)%nat -> (c < 9)%nat ->
  exists e g, cell_at (cells st) r c = Some e /\
              given_mask st !! grid_index r c = Some g /\ disabled e = g /\
              (grid_index r c < 81)%nat.
Proof.
  intros (Hb & Hw & _) Hr Hc.
  destruct (grid_ok_cell_at _ r c (board_ok_grid _ Hb) Hr Hc) as [e He].
  exists e, (disabled e). split; [exact He|]. split; [eapply Hw; eauto|].
  split; [reflexivity|]. unfold grid_index. lia.
Qed.

(** A state in which the entry at [(r, c)] was replaced together with
    the mask at its index, the rest of the board being written at that
    index only. *)
Lemma sound_commit st st' r c e' v :
  sound st -> (r < 9)%nat -> (c < 9)%nat ->
  cells st' = upd r c e' (cells st) ->
  given_mask st' = <[grid_index r c := disabled e']> (given_mask st) ->
  puzzle st' = <[grid_index r c := v]> (puzzle st) ->
  solution st' = solution st -> selected st' = selected st ->
  state_data st' = put_save_coins (coins st') (state_data st) ->
  current_diff st' = current_diff st -> skin st' = skin st ->
  0 <= coins st' -> 0 <= score st' ->
  sound st'.
Proof.
  intros Hs Hr Hc Ecells Emask Epz Esol Esel Esd Ediff Eskin Hcoins Hscore.
  pose proof Hs as (Hb & Hw & Hr0 & Hc0 & Hu & Hd & _ & _ & _ & Hact & Hsk & Hskin).
  pose proof Hb as (Hgm & Hpz & Hsol & _).
  destruct (sound_cell st r c Hs Hr Hc) as (e & g & He & Hg & _ & Hidx).
  apply sound_intro.
  - unfold board_ok. rewrite Ecells, Emask, Epz, Esol, !length_insert.
    destruct (grid_ok_upd (cells st) r c e' (board_ok_grid _ Hb)) as [H1 H2].
    auto.
  - unfold widgets_ok. rewrite Ecells, Emask.
    apply (widgets_upd (cells st) (given_mask st) _ r c e' Hr Hc Hw).
    + eauto.
    + apply list_lookup_insert_eq. lia.
    + intros j Hj. by apply list_lookup_insert_ne.
  - by rewrite Esel.
  - by rewrite Esel.
  - by rewrite Esd.
  - by rewrite Esd, Ediff.
  - by rewrite Esd.
  - exact Hcoins.
  - exact Hscore.
  - by rewrite Esd.
  - by rewrite Esd.
  - by rewrite Esd, Eskin.
Qed.

Lemma points_pos last now : 1 <= points last now.
Proof. unfold points. lia. Qed.

(** [check_selected] on a sound state: it returns, or its [int] raises
    on a text of digits, before anything is written. *)
Lemma check_selected_sound now st :
  sound st ->
  (exists st', check_selected now st = Ok tt st' /\ sound st') \/
  (exists t, selected_text st = Some t /\ isdigit t = true /\ py_int t = None /\
             given_mask st !! selected_index st = Some false /\
             check_selected now st = Raise ValueError st).
Proof.
  intros Hs.
  pose proof Hs as (Hb & Hw & Hr & Hc & _ & _ & Hmirror & Hpos & Hscore & _).
  pose proof Hb as (Hgm & Hpz & Hsol & _).
  unfold check_selected, selected_text, selected_index. run_steps.
  destruct (selected st) as [r c] eqn:Hsel. simpl in Hr, Hc.
  destruct (sound_cell st r c Hs Hr Hc) as (e & g & He & Hg & Hdis & Hidx).
  rewrite (bind_item _ _ _ _ _ Hg). cbv beta iota.
  destruct g.
  { left. eexists. split; [reflexivity|]. eapply sound_frame; eauto. }
  rewrite (bind_cell_get_at _ _ _ _ _ He). cbv beta.
  destruct (_ || _) eqn:Htext.
  { left. eexists. split; [reflexivity|]. eapply sound_frame; eauto. }
  destruct (py_int (strip (text e))) as [guess|] eqn:Hint.
  2:{ rewrite (bind_orelse_None _ _ _ _ eq_refl).
      right. exists (strip (text e)). rewrite He.
      apply orb_false_iff in Htext as [_ Hd]. apply negb_false_iff in Hd.
      simpl. auto. }
  rewrite (bind_orelse _ _ _ _ _ eq_refl). cbv beta. left.
  destruct (lookup_lt_is_Some_2 (solution st) (grid_index r c)) as [s Hs0]; [lia|].
  rewrite (bind_item _ _ _ _ _ Hs0). cbv beta.
  destruct (_ =? s).
  - run_steps. rewrite (bind_cell_modify_upd _ _ _ e) by exact He.
    run_steps.
    rewrite bind_orelse with (a := <[grid_index r c := guess]> (puzzle st))
      by (simpl; apply list_set_Some; lia).
    run_steps.
    rewrite bind_orelse with (a := <[grid_index r c := true]> (given_mask st))
      by (simpl; apply list_set_Some; lia).
    run_steps. apply check_win_sound.
    pose proof (points_pos (last_correct_time st) now) as Hpts.
    eapply (sound_commit st _ r c (entry_config true e)); eauto; simpl; try reflexivity.
    + assert (0 <= points (last_correct_time st) now / 5) by (apply Z.div_pos; lia). lia.
    + lia.
  - run_steps. eexists. split; [reflexivity|].
    eapply sound_frame; eauto. simpl. lia.
Qed.

(** The row and the column of an index stay as quotient and remainder. *)
Arguments Nat.div : simpl never.
Arguments Nat.modulo : simpl never.

Lemma put_save_coins_id sd : put_save_coins (save_coins sd) sd = sd.
Proof. by destruct sd. Qed.

Lemma unsolved_cells_bound st i : i ∈ unsolved_cells st -> (i < 81)%nat.
Proof.
  unfold unsolved_cells. rewrite list_elem_of_filter, elem_of_seq. lia.
Qed.

Lemma grid_index_divmod i : grid_index (i / 9) (i mod 9) = i.
Proof. unfold grid_index. pose proof (Nat.div_mod_eq i 9). lia. Qed.

Lemma give_hint_sound rnd st :
  sound st -> exists st', give_hint rnd st = Ok tt st' /\ sound st'.
Proof.
  intros Hs.
  pose proof Hs as (Hb & Hw & _ & _ & _ & _ & Hmirror & Hpos & Hscore & _).
  pose proof Hb as (Hgm & Hpz & Hsol & _).
  unfold give_hint. run_steps.
  rewrite (bind_orelse _ _ _ _ _ (unsolved_cells_run st Hb)). cbv beta.
  destruct (unsolved_cells st) as [|i0 rest] eqn:Hempties.
  { exists st. split; [reflexivity | exact Hs]. }
  destruct (choice_Some rnd (i0 :: rest)) as (i & Hch & Hin); [done|].
  rewrite <- Hempties in Hin. apply unsolved_cells_bound in Hin.
  rewrite (bind_orelse _ _ _ _ _ Hch). cbv beta zeta.
  destruct (lookup_lt_is_Some_2 (solution st) i) as [v Hv]; [lia|].
  rewrite (bind_item _ _ _ _ _ Hv). cbv beta.
  assert (Hr : (i / 9 < 9)%nat) by (apply Nat.Div0.div_lt_upper_bound; lia).
  assert (Hc : (i mod 9 < 9)%nat) by (apply Nat.mod_upper_bound; lia).
  destruct (sound_cell st _ _ Hs Hr Hc) as (e & g & He & Hg & _ & _).
  rewrite (bind_cell_modify_upd _ _ _ e) by exact He.
  rewrite (bind_cell_modify_upd _ _ _ (entry_delete e))
    by (simpl; eapply cell_at_upd_eq, He).
  rewrite (bind_cell_modify_upd _ _ _ (entry_insert (str v) (entry_delete e)))
    by (simpl; eapply cell_at_upd_eq, cell_at_upd_eq, He).
  run_steps.
  rewrite bind_orelse with (a := <[i := v]> (puzzle st))
    by (simpl; apply list_set_Some; lia).
  run_steps.
  rewrite bind_orelse with (a := <[i := true]> (given_mask st))
    by (simpl; apply list_set_Some; lia).
  run_steps. apply check_win_sound.
  eapply (sound_commit st _ (i / 9) (i mod 9)
            (entry_config true (entry_insert (str v) (entry_delete e))) v);
    eauto; simpl; rewrite ?grid_index_divmod, ?upd_upd; try reflexivity.
  - by rewrite Hmirror, put_save_coins_id.
  - lia.
Qed.

(** A state in which an entry was edited, staying enabled or disabled. *)
Lemma sound_edit st st' r c e e' :
  sound st -> (r < 9)%nat -> (c < 9)%nat ->
  cell_at (cells st) r c = Some e -> disabled e' = disabled e ->
  cells st' = upd r c e' (cells st) ->
  given_mask st' = given_mask st -> puzzle st' = puzzle st ->
  solution st' = solution st -> selected st' = selected st ->
  state_data st' = state_data st -> current_diff st' = current_diff st ->
  coins st' = coins st -> score st' = score st -> skin st' = skin st ->
  sound st'.
Proof.
  intros Hs Hr Hc He Hdis Ecells Emask Epz Esol Esel Esd Ediff Ecoins Escore Eskin.
  pose proof Hs as (Hb & Hw & Hr0 & Hc0 & Hu & Hd & Hm & Hp & Hsc & Hact & Hsk & Hskin).
  apply sound_intro; rewrite ?Esel, ?Esd, ?Ediff, ?Ecoins, ?Escore, ?Eskin; auto.
  - unfold board_ok. rewrite Ecells, Emask, Epz, Esol.
    destruct (grid_ok_upd (cells st) r c e' (board_ok_grid _ Hb)) as [H1 H2].
    destruct Hb as (? & ? & ? & _). auto.
  - unfold widgets_ok. rewrite Ecells, Emask.
    apply (widgets_upd (cells st) (given_mask st) _ r c e' Hr Hc Hw).
    + eauto.
    + rewrite Hdis. eapply Hw; eauto.
    + reflexivity.
Qed.

Lemma clear_selected_sound st :
  sound st -> exists st', clear_selected st = Ok tt st' /\ sound st'.
Proof.
  intros Hs. pose proof Hs as (Hb & Hw & Hr & Hc & _).
  unfold clear_selected. run_steps.
  destruct (selected st) as [r c] eqn:Hsel. simpl in Hr, Hc.
  destruct (sound_cell st r c Hs Hr Hc) as (e & g & He & Hg & Hdis & Hidx).
  rewrite (bind_item _ _ _ _ _ Hg). cbv beta iota.
  destruct g; [exists st; split; [reflexivity | exact Hs]|].
  rewrite (cell_modify_upd _ _ _ _ _ He). eexists. split; [reflexivity|].
  eapply (sound_edit st _ r c e (entry_delete e)); eauto.
  unfold entry_delete. by rewrite Hdis.
Qed.

Lemma entry_typed_sound r c t st :
  (r < 9)%nat -> (c < 9)%nat -> sound st ->
  exists st', entry_typed r c t st = Ok tt st' /\ sound st'.
Proof.
  intros Hr Hc Hs.
  destruct (sound_cell st r c Hs Hr Hc) as (e & g & He & _).
  rewrite (entry_typed_upd _ _ _ _ _ He). eexists. split; [reflexivity|].
  eapply (sound_edit st _ r c e
            (if disabled e then e else {| text := t; disabled := false |})); eauto.
  by destruct (disabled e) eqn:E.
Qed.

Lemma on_select_sound r c st :
  (r < 9)%nat -> (c < 9)%nat -> sound st ->
  exists st', on_select r c st = Ok tt st' /\ sound st'.
Proof.
  intros Hr Hc Hs. eexists. split; [reflexivity|].
  pose proof Hs as (Hb & Hw & _ & _ & Hrest).
  unfold sound. simpl. tauto.
Qed.

Lemma buy_skin_sound name price st :
  sound st -> exists st', buy_skin name price st = Ok tt st' /\ sound st'.
Proof.
  intros Hs.
  pose proof Hs as (Hb & Hw & Hr0 & Hc0 & Hu & Hd & Hm & Hp & Hsc & Hact & Hsk & Hskin).
  unfold buy_skin, show. run_steps.
  destruct (coins st <? price) eqn:Hlt.
  - eexists. split; [reflexivity|]. eapply sound_frame; eauto.
  - apply Z.ltb_ge in Hlt. run_steps. eexists. split; [reflexivity|].
    apply sound_intro; simpl; auto; try lia.
    apply in_or_app. auto.
Qed.

Lemma set_skin_sound name st :
  In name SKINS -> sound st -> exists st', set_skin name st = Ok tt st' /\ sound st'.
Proof.
  intros Hname Hs.
  pose proof Hs as (Hb & Hw & Hr0 & Hc0 & Hu & Hd & Hm & Hp & Hsc & Hact & Hsk & Hskin).
  unfold set_skin, show. run_steps.
  destruct (str_in name (owned_skins (state_data st))) eqn:Hown; simpl.
  - run_steps. rewrite (proj2 (str_in_In name SKINS) Hname). run_steps.
    eexists. split; [reflexivity|].
    apply sound_intro; simpl; auto. by apply str_in_In.
  - eexists. split; [reflexivity|]. eapply sound_frame; eauto.
Qed.

(** One round of [populate_grid] writes the entry of its cell. *)
Lemma populate_cell_effect r c v st :
  (r < 9)%nat -> (c < 9)%nat -> grid_ok (cells st) ->
  puzzle st !! grid_index r c = Some v ->
  populate_cell r c st = Ok tt (put_cells (upd r c (populated v) (cells st)) st).
Proof.
  intros Hr Hc Hg Hv. destruct (grid_ok_cell_at _ r c Hg Hr Hc) as [e He].
  unfold populate_cell.
  rewrite (bind_cell_modify_upd _ _ _ e) by exact He.
  rewrite (bind_cell_modify_upd _ _ _ (entry_config false e))
    by (simpl; eapply cell_at_upd_eq, He).
  run_steps. rewrite bind_item with (a := v) by exact Hv. cbv beta.
  unfold populated. destruct (negb (v =? 0)).
  - rewrite (bind_cell_modify_upd _ _ _ (entry_delete (entry_config false e)))
      by (simpl; eapply cell_at_upd_eq, cell_at_upd_eq, He).
    rewrite cell_modify_upd
      with (e := entry_insert (str v) (entry_delete (entry_config false e)))
      by (simpl; eapply cell_at_upd_eq, cell_at_upd_eq, cell_at_upd_eq, He).
    simpl. rewrite !upd_upd. unfold entry_insert, entry_delete, entry_config. simpl.
    by rewrite append_empty.
  - simpl. rewrite upd_upd. reflexivity.
Qed.

Lemma populate_row_effect r (cols : list nat) st :
  (r < 9)%nat -> Forall (fun c => (c < 9)%nat) cols ->
  grid_ok (cells st) -> length (puzzle st) = 81%nat ->
  exists cs,
    for_each cols (fun c => populate_cell r c) st = Ok tt (put_cells cs st) /\
    grid_ok cs /\
    (forall r' c', r' <> r \/ ~ In c' cols -> cell_at cs r' c' = cell_at (cells st) r' c') /\
    (forall c', In c' cols ->
       exists v, puzzle st !! grid_index r c' = Some v /\
                 cell_at cs r c' = Some (populated v)).
Proof.
  intros Hr Hcols. revert st.
  induction Hcols as [|c cols Hc _ IH]; intros st Hg Hlen.
  - exists (cells st). split; [by destruct st|]. split; [exact Hg|].
    split; [reflexivity | intros c' []].
  - destruct (lookup_lt_is_Some_2 (puzzle st) (grid_index r c)) as [v Hv].
    { unfold grid_index. lia. }
    pose proof (populate_cell_effect r c v st Hr Hc Hg Hv) as Hrun.
    destruct (IH (put_cells (upd r c (populated v) (cells st)) st))
      as (cs & Hrun' & Hg' & Hout & Hin); [by apply grid_ok_upd | exact Hlen|].
    exists cs. split; [|split; [exact Hg'|split]].
    + rewrite for_each_cons. unfold bind. rewrite Hrun. exact Hrun'.
    + intros r' c' Hne. rewrite Hout by (simpl in Hne; tauto).
      simpl. apply cell_at_upd_ne. intros [= -> ->]. simpl in Hne. tauto.
    + intros c' Hc'. destruct (in_dec Nat.eq_dec c' cols) as [Hi|Hni].
      * apply Hin, Hi.
      * destruct Hc' as [<-|Hc']; [|contradiction].
        exists v. split; [exact Hv|]. rewrite Hout by tauto. simpl.
        destruct (grid_ok_cell_at _ r c Hg Hr Hc) as [e He].
        eapply cell_at_upd_eq, He.
Qed.

Lemma populate_rows_effect (rows : list nat) st :
  Forall (fun r => (r < 9)%nat) rows ->
  grid_ok (cells st) -> length (puzzle st) = 81%nat ->
  exists cs,
    for_each rows (fun r => for_each (seq 0 9) (fun c => populate_cell r c)) st =
      Ok tt (put_cells cs st) /\
    grid_ok cs /\
    (forall r' c', ~ In r' rows -> cell_at cs r' c' = cell_at (cells st) r' c') /\
    (forall r' c', In r' rows -> (c' < 9)%nat ->
       exists v, puzzle st !! grid_index r' c' = Some v /\
                 cell_at cs r' c' = Some (populated v)).
Proof.
  intros Hrows. revert st.
  induction Hrows as [|r rows Hr _ IH]; intros st Hg Hlen.
  - exists (cells st). split; [by destruct st|]. split; [exact Hg|].
    split; [reflexivity | intros r' c' []].
  - destruct (populate_row_effect r (seq 0 9) st Hr) as (cs1 & Hrun & Hg1 & Hout1 & Hin1);
      [ apply Forall_forall; intros c Hc; apply elem_of_seq in Hc; lia
      | exact Hg | exact Hlen |].
    destruct (IH (put_cells cs1 st) Hg1 Hlen) as (cs & Hrun' & Hg' & Hout & Hin).
    exists cs. split; [|split; [exact Hg'|split]].
    + rewrite for_each_cons. unfold bind. rewrite Hrun. exact Hrun'.
    + intros r' c' Hne. rewrite Hout by (simpl in Hne; tauto).
      simpl. apply Hout1. left. simpl in Hne. intros ->. tauto.
    + intros r' c' Hr' Hc'. destruct (in_dec Nat.eq_dec r' rows) as [Hi|Hni].
      * apply (Hin r' c' Hi Hc').
      * destruct Hr' as [<-|Hr']; [|contradiction].
        rewrite Hout by exact Hni. simpl. apply Hin1. apply in_seq. lia.
Qed.

(** [new_game] on a tier of the order: it returns, on a board of the
    tier, with the grid showing the puzzle. *)
Lemma new_game_sound (diff : string) rnd t_grid t_timer st0 :
  sound st0 -> In diff order ->
  exists st, new_game diff rnd t_grid t_timer st0 = Ok tt st /\ sound st /\
             score st = 0 /\ selected st = (0%nat, 0%nat) /\
             state_data st = state_data st0 /\ coins st = coins st0 /\
             current_diff st = current_diff st0 /\
             (forall r c, (r < 9)%nat -> (c < 9)%nat ->
                exists v, puzzle st !! grid_index r c = Some v /\
                          cell_at (cells st) r c = Some (populated v)).
Proof.
  intros Hs Hin.
  pose proof Hs as (Hb & Hw & Hr0 & Hc0 & Hu & Hd & Hm & Hp & Hsc & Hact & Hsk & Hskin).
  assert (Hrec : exists records, assoc diff PUZZLES = Some records /\ records <> []).
  { simpl in Hin. destruct Hin as [<-|[<-|[<-|[]]]]; eexists; (split; [reflexivity | done]). }
  destruct Hrec as (records & Hass & Hne).
  destruct (choice_In rnd records Hne) as (rec & Hch & Hrin).
  destruct (PUZZLES_records_parse diff records rec Hass Hrin)
    as (pz & sol & Hpz & Hsol & Hlen & Hlens).
  unfold new_game. rewrite (bind_orelse _ _ _ _ _ Hass). cbv beta.
  rewrite (bind_orelse _ _ _ _ _ Hch). cbv beta.
  unfold new_game_with.
  rewrite (bind_orelse _ _ _ _ _ Hpz). run_steps.
  rewrite (bind_orelse _ _ _ _ _ Hsol). run_steps.
  unfold populate_grid, start_timer. run_steps.
  match goal with
  | |- context [bind (for_each ?rows ?body) ?k ?s] =>
      destruct (populate_rows_effect rows s) as (cs & Hrun & Hg' & _ & Hcells);
        [ apply Forall_forall; intros r Hr; apply elem_of_seq in Hr; lia
        | exact (board_ok_grid _ Hb) | exact Hlen |];
      unfold bind at 1; rewrite Hrun
  end.
  run_steps.
  assert (Hall : forall r c, (r < 9)%nat -> (c < 9)%nat ->
            exists v, pz !! grid_index r c = Some v /\
                      cell_at cs r c = Some (populated v)).
  { intros r c Hr Hc. apply (Hcells r c); [apply in_seq; lia | exact Hc]. }
  clear Hcells Hrun.
  eexists. split; [reflexivity|]. split; [|simpl; auto 10].
  apply sound_intro; simpl; auto; try lia.
  - unfold board_ok. simpl. rewrite length_map. destruct Hg'. auto.
  - unfold widgets_ok. simpl. intros r c e Hr Hc He.
    destruct (Hall r c Hr Hc) as (v & Hv & He').
    rewrite He in He'. injection He' as ->.
    rewrite list_lookup_fmap, Hv. simpl. unfold populated.
    by destruct (negb (v =? 0)).
Qed.

Lemma sound_current_diff d st :
  sound st -> In d (unlocked (state_data st)) -> sound (put_current_diff d st).
Proof.
  intros (Hb & Hw & Hr0 & Hc0 & Hu & Hd & Hm & Hp & Hsc & Hact & Hsk & Hskin) Hin.
  apply sound_intro; simpl; auto.
Qed.

Lemma select_difficulty_sound d rnd t_grid t_timer st :
  sound st ->
  exists st', select_difficulty d rnd t_grid t_timer st = Ok tt st' /\ sound st'.
Proof.
  intros Hs. pose proof Hs as (_ & _ & _ & _ & Hu & _).
  unfold select_difficulty, on_diff_change, show. run_steps. simpl.
  destruct (str_in d (unlocked (state_data st))) eqn:Hin; simpl.
  - apply str_in_In in Hin.
    destruct (new_game_sound d rnd t_grid t_timer (put_current_diff d st))
      as (st' & Hrun & Hs' & _).
    + by apply sound_current_diff.
    + eapply in_unlocked_order; eauto.
    + exists st'. auto.
  - destruct (unlocked_ok_last _ Hu) as (fb & Hlast & Hfb & _).
    run_steps. rewrite bind_orelse with (a := fb) by (simpl; exact Hlast).
    eexists. split; [reflexivity|].
    apply (sound_current_diff fb) in Hs; [|exact Hfb].
    eapply sound_frame; [exact Hs | reflexivity ..| |reflexivity];
      destruct Hs as (_ & _ & _ & _ & _ & _ & _ & _ & Hsc & _); exact Hsc.
Qed.

Lemma new_game_button_sound rnd t_grid t_timer st :
  sound st ->
  exists st', new_game_button rnd t_grid t_timer st = Ok tt st' /\ sound st'.
Proof.
  intros Hs. pose proof Hs as (_ & _ & _ & _ & Hu & Hd & _).
  unfold new_game_button. rewrite bind_get.
  destruct (new_game_sound (current_diff st) rnd t_grid t_timer st Hs)
    as (st' & Hrun & Hs' & _); [eapply in_unlocked_order; eauto|].
  exists st'. auto.
Qed.

(** A callback on a sound state: it returns, or it is [check_selected]
    whose [int] raises, before anything is written. *)
Lemma callback_sound (a : action) (st : app) :
  valid a = true -> sound st ->
  (exists st', callback a st = Ok tt st' /\ sound st') \/
  (exists now t, a = Check now /\
     selected_text st = Some t /\ isdigit t = true /\ py_int t = None /\
     given_mask st !! selected_index st = Some false /\
     callback a st = Raise ValueError st).
Proof.
  destruct a; simpl; intros Hv Hs.
  - apply andb_true_iff in Hv as [Hr Hc]. apply Nat.ltb_lt in Hr, Hc.
    left. by apply on_select_sound.
  - apply andb_true_iff in Hv as [Hr Hc]. apply Nat.ltb_lt in Hr, Hc.
    left. by apply entry_typed_sound.
  - destruct (check_selected_sound now st Hs) as [H|(t & H)]; [by left|].
    right. exists now, t. tauto.
  - left. by apply clear_selected_sound.
  - left. by apply give_hint_sound.
  - left. by apply new_game_button_sound.
  - left. by apply select_difficulty_sound.
  - left. destruct b; simpl.
    + apply set_skin_sound; [by apply str_in_In | exact Hs].
    + by apply buy_skin_sound.
Qed.

Lemma callback_keeps_sound (a : action) (st : app) :
  valid a = true -> sound st -> sound (final (callback a st)).
Proof.
  intros Hv Hs.
  destruct (callback_sound a st Hv Hs) as [(st' & -> & Hs')|(now & t & _ & _ & _ & _ & _ & ->)];
    assumption.
Qed.

Lemma run_sound (acts : list action) (st : app) :
  forallb valid acts = true -> sound st -> sound (run acts st).
Proof.
  revert st. induction acts as [|a acts IH]; intros st Hv Hs; [exact Hs|].
  simpl in Hv. apply andb_true_iff in Hv as [Ha Hv].
  simpl. apply IH; [exact Hv|]. by apply callback_keeps_sound.
Qed.

Lemma init_fields_sound sd : save_ok sd -> sound (init_fields sd).
Proof.
  intros (Hu & Hc & Hact & Hsk).
  apply sound_intro; simpl; auto; try lia.
  - unfold board_ok. simpl. repeat split. repeat constructor.
  - intros r c e Hr Hc' He.
    change (cells (init_fields sd)) with (replicate 9 (replicate 9 blank_entry)) in He.
    change (given_mask (init_fields sd)) with (replicate 81 false).
    assert (He' : e = blank_entry).
    { unfold cell_at in He. rewrite (lookup_replicate_2 9 _ r Hr) in He.
      change (replicate 9 blank_entry !! c = Some e) in He.
      rewrite (lookup_replicate_2 9 _ c Hc') in He. congruence. }
    subst e. apply lookup_replicate_2. unfold grid_index. lia.
  - apply unlocked_ok_cases in Hu as [->|[->| ->]]; simpl; auto.
Qed.

Lemma init_sound sd rnd t_grid t_timer :
  save_ok sd -> exists st, init sd rnd t_grid t_timer = Ok tt st /\ sound st.
Proof.
  intros Hsd. pose proof Hsd as (_ & _ & _ & Hsk).
  unfold init. rewrite (proj2 (str_in_In _ _) Hsk).
  destruct (new_game_sound "Easy" rnd t_grid t_timer (init_fields sd))
    as (st & Hrun & Hs & _); [by apply init_fields_sound | simpl; auto|].
  exists st. auto.
Qed.

Lemma reachable_sound sd rnd t_grid t_timer acts :
  save_ok sd -> forallb valid acts = true ->
  sound (run acts (final (init sd rnd t_grid t_timer))).
Proof.
  intros Hsd Hv. destruct (init_sound sd rnd t_grid t_timer Hsd) as (st & Hrun & Hs).
  rewrite Hrun. simpl. by apply run_sound.
Qed.

Lemma fresh_save_ok : save_ok fresh_save.
Proof.
  split; [|simpl; auto with zarith].
  split; [discriminate|]. exists ["Medium"; "Hard"]%string. reflexivity.
Qed.

(** A session used by the examples below: a wrong guess, the right one,
    a hint, a refused tier, a skin that cannot be paid, a new game. *)
Lemma sample_session_valid :
  forallb valid [Select 0 2; Type_ 0 2 "7"; Check 101; Type_ 0 2 "4"; Check 102;
                 Hint 5; Difficulty "Hard" 0 103 103; Shop "Ocean" (Buy 60);
                 Shop "Classic" Activate; NewGame 1 104 104; Clear] = true.
Proof. reflexivity. Qed.

(** X7. In a running application the coin counter is the one of the save and
    is never negative, and the active skin is an owned skin of the
    catalog, the one whose palette is loaded. *)
Theorem purse_stays_consistent
    (sd : save) (rnd : nat) (t_grid t_timer : Q) (acts : list action) :
  save_ok sd -> forallb valid acts = true ->
  let st := run acts (final (init sd rnd t_grid t_timer)) in
  coins st = save_coins (state_data st) /\ 0 <= coins st /\
  In (active_skin (state_data st)) (owned_skins (state_data st)) /\
  In (active_skin (state_data st)) SKINS /\
  skin st = active_skin (state_data st).
Proof.
  intros Hsd Hv st.
  destruct (reachable_sound sd rnd t_grid t_timer acts Hsd Hv)
    as (_ & _ & _ & _ & _ & _ & Hm & Hp & _ & Hact & Hsk & Hskin).
  auto.
Qed.

Lemma purse_stays_consistent_witness :
  let st := run [Select 0 2; Type_ 0 2 "7"; Check 101; Type_ 0 2 "4"; Check 102;
                 Hint 5; Difficulty "Hard" 0 103 103; Shop "Ocean" (Buy 60);
                 Shop "Classic" Activate; NewGame 1 104 104; Clear]
              (final (init fresh_save 0 100 100)) in
  coins st = save_coins (state_data st) /\ 0 <= coins st.
Proof.
  intros st.
  destruct (purse_stays_consistent fresh_save 0 100 100 _ fresh_save_ok sample_session_valid)
    as (Hm & Hp & _).
  split; [exact Hm | exact Hp].
Defined.

(** X8. In a running application the unlocked tiers are a prefix of Easy,
    Medium, Hard that starts with Easy, and the difficulty shown after a
    callback is an unlocked one. *)
Theorem tiers_unlock_in_order
    (sd : save) (rnd : nat) (t_grid t_timer : Q) (acts : list action) :
  save_ok sd -> forallb valid acts = true ->
  let st := run acts (final (init sd rnd t_grid t_timer)) in
  unlocked (state_data st) `prefix_of` order /\
  head (unlocked (state_data st)) = Some "Easy"%string /\
  NoDup (unlocked (state_data st)) /\
  In (current_diff st) (unlocked (state_data st)).
Proof.
  intros Hsd Hv st.
  destruct (reachable_sound sd rnd t_grid t_timer acts Hsd Hv)
    as (_ & _ & _ & _ & Hu & Hd & _).
  fold st in Hu, Hd. split; [apply Hu|]. split; [|split; [|exact Hd]].
  - apply unlocked_ok_cases in Hu as [->|[->| ->]]; reflexivity.
  - apply unlocked_ok_cases in Hu as [->|[->| ->]];
      apply NoDup_ListNoDup; repeat constructor; simpl; intuition discriminate.
Qed.

Lemma tiers_unlock_in_order_witness :
  let st := run (repeat (Hint 0) 51 ++ [NewGame 0 200 200; Difficulty "Hard" 0 300 300]
                 ++ repeat (Hint 0) 51)
              (final (init fresh_save 0 100 100)) in
  unlocked (state_data st) `prefix_of` order /\
  In (current_diff st) (unlocked (state_data st)).
Proof.
  intros st.
  assert (Hv : forallb valid (repeat (Hint 0) 51
                              ++ [NewGame 0 200 200; Difficulty "Hard" 0 300 300]
                              ++ repeat (Hint 0) 51) = true) by (vm_compute; reflexivity).
  destruct (tiers_unlock_in_order fresh_save 0 100 100 _ fresh_save_ok Hv)
    as (Hp & _ & _ & Hd).
  split; [exact Hp | exact Hd].
Defined.

(** X9. In a running application an entry of the grid is disabled exactly
    when its cell is given, so that typing in a given cell leaves its
    text. *)
Theorem given_entries_are_disabled
    (sd : save) (rnd : nat) (t_grid t_timer : Q) (acts : list action) (r c : nat) :
  save_ok sd -> forallb valid acts = true -> (r < 9)%nat -> (c < 9)%nat ->
  let st := run acts (final (init sd rnd t_grid t_timer)) in
  exists e,
    cell_at (cells st) r c = Some e /\
    given_mask st !! grid_index r c = Some (disabled e) /\
    (disabled e = true ->
     forall t, cell_at (cells (final (entry_typed r c t st))) r c = Some e).
Proof.
  intros Hsd Hv Hr Hc st.
  pose proof (reachable_sound sd rnd t_grid t_timer acts Hsd Hv) as Hs. fold st in Hs.
  destruct (sound_cell st r c Hs Hr Hc) as (e & g & He & Hg & Hdis & _).
  exists e. split; [exact He|]. split; [by rewrite Hdis|].
  intros Hd t. rewrite (entry_typed_upd _ _ _ _ _ He), Hd. simpl.
  eapply cell_at_upd_eq, He.
Qed.

Lemma given_entries_are_disabled_witness :
  let st := run [Select 0 2; Type_ 0 2 "4"; Check 101]
              (final (init fresh_save 0 100 100)) in
  exists e, cell_at (cells st) 0 2 = Some e /\
            given_mask st !! grid_index 0 2 = Some (disabled e).
Proof.
  intros st.
  assert (Hv : forallb valid [Select 0 2; Type_ 0 2 "4"; Check 101] = true) by reflexivity.
  assert (H0 : (0 < 9)%nat) by lia. assert (H2 : (2 < 9)%nat) by lia.
  destruct (given_entries_are_disabled fresh_save 0 100 100 _ 0 2 fresh_save_ok Hv H0 H2)
    as (e & He & Hg & _).
  exists e. split; [exact He | exact Hg].
Defined.

(* ------------------------------------------------------------------ *)
(** ** What is owned stays owned *)

Lemma callback_keeps_progress (x y : string) (a : action) :
  stable (fun st => In x (owned_skins (state_data st)) /\
                    In y (unlocked (state_data st)))
         (callback a).
Proof.
  destruct a; unfold_callbacks; stable_auto; simpl in *;
    try assumption; try tauto.
  all: match goal with
       | H : _ /\ _ |- _ => destruct H as [H1 H2]
       end; split; try assumption; apply in_or_app; auto.
Qed.

(** X10. No callback takes a skin out of the owned skins or a tier out of the
    unlocked tiers, in any state and also when it raises. *)
Theorem progress_is_never_lost (acts : list action) (st : app) (x y : string) :
  In x (owned_skins (state_data st)) -> In y (unlocked (state_data st)) ->
  In x (owned_skins (state_data (run acts st))) /\
  In y (unlocked (state_data (run acts st))).
Proof.
  revert st. induction acts as [|a acts IH]; intros st Hx Hy; [by split|].
  simpl. destruct (callback_keeps_progress x y a st) as [Hx' Hy']; auto.
Qed.

Lemma progress_is_never_lost_witness :
  In "Ocean"%string
     (owned_skins (state_data (run [Shop "Ocean" (Buy 60); Shop "Sunset" (Buy 60);
                                    NewGame 0 101 101] ocean_owner))) /\
  In "Easy"%string
     (unlocked (state_data (run [Shop "Ocean" (Buy 60); Shop "Sunset" (Buy 60);
                                 NewGame 0 101 101] ocean_owner))).
Proof.
  apply progress_is_never_lost; simpl; auto.
Defined.

(* ------------------------------------------------------------------ *)
(** ** The test of completion *)

Lemma all_equal_true (idxs : list nat) (p s : list Z) :
  all_equal idxs p s = Some true <->
  forall i, In i idxs -> exists v, p !! i = Some v /\ s !! i = Some v.
Proof.
  induction idxs as [|j idxs IH].
  { split; [intros _ i [] | reflexivity]. }
  change (all_equal (j :: idxs) p s) with
    (match p !! j, s !! j with
     | Some a, Some b => if a =? b then all_equal idxs p s else Some false
     | _, _ => None
     end).
  split.
  - destruct (p !! j) as [a|] eqn:Ha; [|discriminate].
    destruct (s !! j) as [b|] eqn:Hb; [|discriminate].
    destruct (a =? b) eqn:Hab; [|discriminate].
    apply Z.eqb_eq in Hab as ->. intros Hrest i [<-|Hi].
    + exists b. by rewrite Ha, Hb.
    + by apply IH.
  - intros H. destruct (H j (or_introl eq_refl)) as (v & -> & ->).
    rewrite Z.eqb_refl. apply IH. intros i Hi. apply H. by right.
Qed.

Lemma all_equal_board (p s : list Z) :
  length p = 81%nat -> length s = 81%nat ->
  all_equal (seq 0 81) p s = Some (bool_decide (p = s)).
Proof.
  intros Hp Hs.
  destruct (all_equal_total p s (seq 0 81)) as [b Hb].
  { intros i Hi. apply in_seq in Hi. lia. }
  rewrite Hb. f_equal. destruct b.
  - symmetry. apply bool_decide_eq_true. apply list_eq. intros i.
    destruct (decide (i < 81)%nat) as [Hi|Hi].
    + destruct (proj1 (all_equal_true _ _ _) Hb i) as (v & -> & ->); [|done].
      apply in_seq. lia.
    + by rewrite !lookup_ge_None_2 by lia.
  - symmetry. apply bool_decide_eq_false. intros ->.
    assert (all_equal (seq 0 81) s s = Some true); [|congruence].
    apply all_equal_true. intros i Hi. apply in_seq in Hi.
    destruct (lookup_lt_is_Some_2 s i) as [v Hv]; [lia|]. eauto.
Qed.

(** X11. On a board of 81 cells [is_completed] returns, changes nothing, and
    answers whether the puzzle list is the solution list. The mask and
    the entries play no part in it. *)
Theorem is_completed_compares_boards (st : app) :
  board_ok st ->
  is_completed st = Ok (bool_decide (puzzle st = solution st)) st.
Proof.
  intros (_ & Hp & Hs & _). unfold is_completed. rewrite bind_get.
  by rewrite (all_equal_board _ _ Hp Hs).
Qed.

Lemma is_completed_compares_boards_witness :
  is_completed opening = Ok false opening.
Proof.
  rewrite (is_completed_compares_boards opening).
  - reflexivity.
  - unfold board_ok. simpl. repeat split. repeat constructor.
Defined.

(* ------------------------------------------------------------------ *)
(** ** Hints bring the board to its end *)

Lemma filter_length_same (P Q : nat -> Prop) `{!forall x, Decision (P x)}
    `{!forall x, Decision (Q x)} (l : list nat) (i : nat) :
  i ∉ l -> (forall j, Q j <-> P j /\ j <> i) ->
  length (filter P l) = length (filter Q l).
Proof.
  intros Hi HQ. induction l as [|x l IH]; [reflexivity|].
  apply not_elem_of_cons in Hi as [Hx Hi].
  rewrite !filter_cons. destruct (decide (P x)) as [Hp|Hp].
  - rewrite decide_True by (apply HQ; auto). simpl. by rewrite IH.
  - rewrite decide_False by (rewrite HQ; tauto). by apply IH.
Qed.

Lemma filter_length_remove (P Q : nat -> Prop) `{!forall x, Decision (P x)}
    `{!forall x, Decision (Q x)} (l : list nat) (i : nat) :
  NoDup l -> i ∈ l -> P i -> (forall j, Q j <-> P j /\ j <> i) ->
  length (filter P l) = S (length (filter Q l)).
Proof.
  intros Hnd Hi Hp HQ. induction l as [|x l IH]; [by apply elem_of_nil in Hi|].
  apply NoDup_cons in Hnd as [Hx Hnd]. rewrite !filter_cons.
  destruct (decide (x = i)) as [->|Hne].
  - rewrite decide_True by exact Hp.
    rewrite decide_False by (rewrite HQ; tauto). simpl.
    f_equal. by apply (filter_length_same P Q l i).
  - apply elem_of_cons in Hi as [->|Hi]; [done|].
    destruct (decide (P x)) as [Hpx|Hpx].
    + rewrite decide_True by (apply HQ; auto). simpl. f_equal. by apply IH.
    + rewrite decide_False by (rewrite HQ; tauto). by apply IH.
Qed.

Lemma unsolved_after_reveal (st st' : app) (i : nat) :
  board_ok st -> given_mask st !! i = Some false ->
  given_mask st' = <[i := true]> (given_mask st) ->
  length (unsolved_cells st) = S (length (unsolved_cells st')).
Proof.
  intros (Hgm & _) Hi Hm. unfold unsolved_cells. rewrite Hm.
  pose proof (lookup_lt_Some _ _ _ Hi) as Hlt.
  apply (filter_length_remove _ _ (seq 0 81) i).
  - apply NoDup_seq.
  - apply elem_of_seq. lia.
  - exact Hi.
  - intros j. destruct (decide (i = j)) as [<-|Hne].
    + rewrite list_lookup_insert_eq by exact Hlt. split; [discriminate | tauto].
    + rewrite list_lookup_insert_ne by exact Hne. split; [auto | tauto].
Qed.

Lemma board_inv_locked st : board_inv st -> locked_in [] (solution st) st.
Proof.
  intros H. split; [reflexivity|]. split; [|exact H].
  intros i Hi. by rewrite lookup_nil in Hi.
Qed.

(** One hint on a sound board: one unsolved cell less, if there is one. *)
Lemma give_hint_progress (rnd : nat) (st : app) :
  sound st -> board_inv st ->
  let st1 := final (give_hint rnd st) in
  sound st1 /\ board_inv st1 /\ solution st1 = solution st /\
  length (unsolved_cells st1) = (length (unsolved_cells st) - 1)%nat.
Proof.
  intros Hs Hinv. cbv zeta.
  destruct (give_hint_sound rnd st Hs) as (st' & Hrun & Hs').
  destruct (give_hint_locked [] (solution st) rnd st (board_inv_locked st Hinv))
    as (Hsol & _ & Hinv').
  split; [by rewrite Hrun|]. split; [exact Hinv'|]. split; [exact Hsol|].
  pose proof Hs as (Hb & _).
  destruct (unsolved_cells st) as [|i0 rest] eqn:Hempties.
  - rewrite give_hint_nothing_left; [simpl; by rewrite Hempties|].
    by rewrite (unsolved_cells_run st Hb), Hempties.
  - destruct (choice_Some rnd (i0 :: rest)) as (i & Hch & _); [done|].
    rewrite <- Hempties in Hch.
    destruct (give_hint_pick st rnd i Hb Hch) as (Hi & v & _ & _ & Hm & _).
    rewrite <- Hempties.
    rewrite (unsolved_after_reveal st _ i Hb Hi Hm). lia.
Qed.

Lemma run_cons (a : action) (acts : list action) (st : app) :
  run (a :: acts) st = run acts (final (callback a st)).
Proof. reflexivity. Qed.

Lemma hints_progress (rnds : list nat) (st : app) :
  sound st -> board_inv st ->
  let st' := run (map Hint rnds) st in
  sound st' /\ board_inv st' /\ solution st' = solution st /\
  length (unsolved_cells st') = (length (unsolved_cells st) - length rnds)%nat.
Proof.
  revert st. induction rnds as [|rnd rnds IH]; intros st Hs Hinv; cbv zeta.
  - simpl. rewrite Nat.sub_0_r. auto.
  - rewrite map_cons, run_cons. change (callback (Hint rnd)) with (give_hint rnd).
    destruct (give_hint_progress rnd st Hs Hinv) as (Hs1 & Hinv1 & Hsol1 & Hlen1).
    destruct (IH _ Hs1 Hinv1) as (Hs' & Hinv' & Hsol' & Hlen').
    split; [exact Hs'|]. split; [exact Hinv'|]. split; [congruence|].
    rewrite Hlen', Hlen1. simpl. lia.
Qed.

Lemma nothing_unsolved_complete (st : app) :
  board_ok st -> board_inv st -> unsolved_cells st = [] ->
  puzzle st = solution st /\
  forall i, (i < 81)%nat -> given_mask st !! i = Some true.
Proof.
  intros Hb Hinv Hnone. pose proof Hb as (Hgm & Hpz & Hsol & _).
  assert (Hall : forall i, (i < 81)%nat -> given_mask st !! i = Some true).
  { intros i Hi. destruct (lookup_lt_is_Some_2 (given_mask st) i) as [g Hg]; [lia|].
    destruct g; [exact Hg|].
    apply (elem_of_unsolved_cells st i Hb) in Hg. rewrite Hnone in Hg.
    by apply elem_of_nil in Hg. }
  split; [|exact Hall]. apply list_eq. intros i.
  destruct (decide (i < 81)%nat) as [Hi|Hi].
  - destruct (Hinv i (Hall i Hi)) as (v & -> & ->). reflexivity.
  - by rewrite !lookup_ge_None_2 by lia.
Qed.

(** X12. On a sound board whose given cells hold the digits of the solution,
    every hint takes one cell off the unsolved cells while there is one,
    and does nothing after; as many hints as there are unsolved cells,
    whatever the draws, leave the puzzle equal to the solution with every
    cell given. *)
Theorem hints_complete_the_board (st : app) (rnds : list nat) :
  sound st -> board_inv st ->
  let st' := run (map Hint rnds) st in
  length (unsolved_cells st') = (length (unsolved_cells st) - length rnds)%nat /\
  ((length (unsolved_cells st) <= length rnds)%nat ->
   puzzle st' = solution st /\
   forall i, (i < 81)%nat -> given_mask st' !! i = Some true).
Proof.
  intros Hs Hinv. cbv zeta.
  destruct (hints_progress rnds st Hs Hinv) as (Hs' & Hinv' & Hsol' & Hlen').
  split; [exact Hlen'|]. intros Hle. rewrite <- Hsol'.
  apply nothing_unsolved_complete; [apply Hs' | exact Hinv'|].
  apply length_zero_iff_nil. lia.
Qed.

Lemma board_inv_test_ok (st : app) :
  (length (given_mask st) <= 81)%nat -> board_inv_test st = true -> board_inv st.
Proof.
  intros Hlen Htest i Hi. unfold board_inv_test in Htest.
  rewrite forallb_forall in Htest.
  assert (Hin : In i (seq 0 81)).
  { apply in_seq. apply lookup_lt_Some in Hi. lia. }
  specialize (Htest i Hin). rewrite Hi in Htest.
  destruct (puzzle st !! i) as [a|]; [|discriminate].
  destruct (solution st !! i) as [b|]; [|discriminate].
  apply Z.eqb_eq in Htest as ->. eauto.
Qed.

Lemma started_sound sd rnd t_grid t_timer :
  save_ok sd -> sound (final (init sd rnd t_grid t_timer)).
Proof.
  intros Hsd. destruct (init_sound sd rnd t_grid t_timer Hsd) as (st & Hrun & Hs).
  by rewrite Hrun.
Qed.

Lemma hints_complete_the_board_witness :
  puzzle (run (map Hint (seq 0 60)) (final (init fresh_save 0 100 100))) =
  solution (final (init fresh_save 0 100 100)).
Proof.
  assert (Hs : sound (final (init fresh_save 0 100 100)))
    by apply started_sound, fresh_save_ok.
  assert (Hinv : board_inv (final (init fresh_save 0 100 100)))
    by (apply board_inv_test_ok; vm_compute; [lia | reflexivity]).
  destruct (hints_complete_the_board _ (seq 0 60) Hs Hinv) as [_ H].
  apply H. vm_compute. lia.
Defined.

(* ------------------------------------------------------------------ *)
(** ** A record with a wrong given digit *)

Lemma spoiled_not_equal (i : nat) (a b : Z) (st : app) :
  a <> b -> spoiled i a b st ->
  all_equal (seq 0 81) (puzzle st) (solution st) <> Some true.
Proof.
  intros Hne (Hi & _ & Ha & Hb) Heq.
  destruct (proj1 (all_equal_true _ _ _) Heq i) as (v & Hv1 & Hv2).
  { apply in_seq. lia. }
  congruence.
Qed.

Lemma check_win_spoiled (i : nat) (a b : Z) (st : app) :
  a <> b -> spoiled i a b st -> final (check_win st) = st.
Proof.
  intros Hne H. apply (spoiled_not_equal i a b st Hne) in H.
  unfold check_win, is_completed. rewrite bind_assoc, bind_get.
  destruct (all_equal (seq 0 81) (puzzle st) (solution st)) as [[|]|] eqn:E.
  - done.
  - by rewrite (bind_orelse _ _ _ _ _ eq_refl).
  - by rewrite (bind_orelse_None _ _ _ _ eq_refl).
Qed.

Lemma stuck_same i a b u t st st' :
  puzzle st' = puzzle st -> given_mask st' = given_mask st ->
  solution st' = solution st ->
  unlocked (state_data st') = unlocked (state_data st) ->
  timer_running st' = timer_running st ->
  stuck i a b u t st -> stuck i a b u t st'.
Proof.
  unfold stuck, spoiled. intros -> -> -> -> ->. auto.
Qed.

Lemma stuck_commit i a b u t st st' j v :
  stuck i a b u t st -> given_mask st !! j = Some false ->
  puzzle st' = <[j := v]> (puzzle st) ->
  given_mask st' = <[j := true]> (given_mask st) ->
  solution st' = solution st ->
  unlocked (state_data st') = unlocked (state_data st) ->
  timer_running st' = timer_running st ->
  stuck i a b u t st'.
Proof.
  unfold stuck, spoiled.
  intros ((Hi & Hm & Ha & Hb) & Hu & Ht) Hj -> -> -> -> ->.
  assert (Hji : j <> i) by (intros ->; congruence).
  rewrite !list_lookup_insert_ne by exact Hji. auto.
Qed.

Lemma check_win_stuck i a b u t st :
  a <> b -> stuck i a b u t st -> stuck i a b u t (final (check_win st)).
Proof. intros Hne H. by rewrite (check_win_spoiled i a b st Hne (proj1 H)). Qed.

Ltac stuck_leaf H :=
  simpl; first [ exact H | eapply stuck_same; [| | | | | exact H]; reflexivity ].

Lemma check_selected_stuck i va vb u t now :
  va <> vb -> stable (stuck i va vb u t) (check_selected now).
Proof.
  intros Hne st H. unfold check_selected. run_steps.
  destruct (selected st) as [r c].
  run_item; [|stuck_leaf H].
  destruct b; [stuck_leaf H|].
  unfold cell_get. run_steps.
  run_item; [|stuck_leaf H]. run_item; [|stuck_leaf H].
  destruct (_ || _); [stuck_leaf H|].
  run_orelse; [|stuck_leaf H].
  run_item; [|stuck_leaf H].
  destruct (_ =? _) eqn:Hguess; [|run_steps; stuck_leaf H].
  run_steps.
  erewrite bind_cell_modify by (simpl; eassumption). run_steps.
  destruct (decide (grid_index r c < length (puzzle st))%nat) as [Hlt|Hge].
  - match goal with
    | |- context [list_set ?i ?g (puzzle _)] =>
        rewrite bind_orelse with (a := <[i := g]> (puzzle st))
          by (simpl; apply list_set_Some, Hlt)
    end.
    run_steps.
    rewrite bind_orelse with (a := <[grid_index r c := true]> (given_mask st))
      by (simpl; eapply list_set_Some, lookup_lt_Some; eassumption).
    run_steps. apply check_win_stuck; [exact Hne|].
    eapply stuck_commit with (j := grid_index r c); try exact H; try reflexivity.
    eassumption.
  - rewrite bind_orelse_None by (simpl; apply list_set_None; lia).
    stuck_leaf H.
Qed.

Lemma give_hint_stuck i va vb u t rnd :
  va <> vb -> stable (stuck i va vb u t) (give_hint rnd).
Proof.
  intros Hne st H. unfold give_hint. run_steps.
  run_orelse; [|stuck_leaf H]. rename l into empties, Hor into Hun.
  destruct empties as [|i0 rest]; [stuck_leaf H|].
  destruct (choice rnd (i0 :: rest)) as [j|] eqn:Hch;
    [ rewrite (bind_orelse _ _ _ _ _ eq_refl)
    | rewrite (bind_orelse_None _ _ _ _ eq_refl); stuck_leaf H ].
  cbv beta zeta.
  pose proof (unsolved_elem _ _ _ _ Hun (choice_elem _ _ _ Hch)) as Hj.
  run_item; [|stuck_leaf H].
  run_cell_modify; [|stuck_leaf H|stuck_leaf H].
  run_cell_modify; [|stuck_leaf H|stuck_leaf H].
  run_cell_modify; [|stuck_leaf H|stuck_leaf H].
  destruct (decide (j < length (puzzle st))%nat) as [Hlt|Hge].
  - rewrite bind_orelse with (a := <[j := z]> (puzzle st))
      by (simpl; apply list_set_Some, Hlt).
    run_steps.
    rewrite bind_orelse with (a := <[j := true]> (given_mask st))
      by (simpl; eapply list_set_Some, lookup_lt_Some; eassumption).
    run_steps. apply check_win_stuck; [exact Hne|].
    eapply stuck_commit with (j := j); try exact H; try reflexivity.
    exact Hj.
  - rewrite bind_orelse_None by (simpl; apply list_set_None; lia).
    stuck_leaf H.
Qed.

Lemma callback_stuck i a b u t (act : action) :
  a <> b -> in_game act = true -> stable (stuck i a b u t) (callback act).
Proof.
  intros Hne. destruct act; try discriminate; intros _; simpl.
  - unfold on_select. stable_step. stuck_leaf H.
  - unfold entry_typed. apply cell_modify_stable. intros st v H. stuck_leaf H.
  - by apply check_selected_stuck.
  - unfold clear_selected. stable_auto.
    apply cell_modify_stable. intros st v H. stuck_leaf H.
  - by apply give_hint_stuck.
  - unfold shop_click, buy_skin, set_skin, show. stable_auto; stuck_leaf H.
Qed.

Lemma run_stuck i a b u t (acts : list action) (st : app) :
  a <> b -> forallb in_game acts = true ->
  stuck i a b u t st -> stuck i a b u t (run acts st).
Proof.
  intros Hne. revert st.
  induction acts as [|act acts IH]; intros st Hall H; simpl; [exact H|].
  simpl in Hall. apply andb_true_iff in Hall as [Ha Hall].
  apply IH; [exact Hall|]. apply callback_stuck; assumption.
Qed.

(** X13. A record in which a filled digit differs from the digit of the
    solution cannot be completed: whatever the player does on the board
    [new_game] sets up from it (select, type, check, clear, hint, shop),
    the wrong digit stays in its given cell, the puzzle never equals the
    solution, [is_completed] never answers true, no tier is unlocked and
    the clock is not stopped. *)
Theorem flawed_record_is_never_completed
    (rec : string * string) (pz sol : list Z) (t_grid t_timer : Q) (st0 : app)
    (acts : list action) (i : nat) (a b : Z) :
  parse_grid rec.1 = Some pz -> parse_grid rec.2 = Some sol ->
  (i < 81)%nat -> pz !! i = Some a -> sol !! i = Some b -> a <> 0 -> a <> b ->
  forallb in_game acts = true ->
  let st := final (new_game_with rec t_grid t_timer st0) in
  let st' := run acts st in
  given_mask st' !! i = Some true /\
  puzzle st' !! i = Some a /\ solution st' !! i = Some b /\
  puzzle st' <> solution st' /\
  (forall done s, is_completed st' = Ok done s -> done = false) /\
  unlocked (state_data st') = unlocked (state_data st) /\
  timer_running st' = timer_running st.
Proof.
  intros Hpz Hsol Hi Ha Hb Ha0 Hab Hall st st'.
  destruct (new_game_with_board rec pz sol t_grid t_timer st0 Hpz Hsol)
    as (Hp & Hs & Hm & _). fold st in Hp, Hs, Hm.
  assert (H0 : stuck i a b (unlocked (state_data st)) (timer_running st) st).
  { split; [|split; reflexivity]. split; [exact Hi|]. split; [|split].
    - rewrite Hm, list_lookup_fmap, Ha. simpl.
      apply Z.eqb_neq in Ha0. by rewrite Ha0.
    - by rewrite Hp.
    - by rewrite Hs. }
  pose proof (run_stuck _ _ _ _ _ acts st Hab Hall H0) as (Hsp & Hu & Ht).
  fold st' in Hsp, Hu, Ht.
  pose proof (spoiled_not_equal i a b st' Hab Hsp) as Hneq.
  destruct Hsp as (_ & Hmask & Ha' & Hb').
  split; [exact Hmask|]. split; [exact Ha'|]. split; [exact Hb'|].
  split; [intros Heq; rewrite Heq in Ha'; congruence|].
  split; [|split; assumption].
  intros done s. unfold is_completed. rewrite bind_get.
  destruct (all_equal (seq 0 81) (puzzle st') (solution st')) as [[|]|]; simpl.
  - done.
  - by intros [= <- _].
  - discriminate.
Qed.

Lemma flawed_record_is_never_completed_witness :
  let rec := ("040000000060105000009030070008302900700000004006708100010080600000406090000000050",
              "541697832867145329239831476418362957753219864926758143314985672582476391697123548")%string in
  let st' := run [Hint 3; Select 0 0; Type_ 0 0 "5"; Check 101; Clear; Hint 8]
               (final (new_game_with rec 100 100 (init_fields fresh_save))) in
  puzzle st' !! 79%nat = Some 5 /\ solution st' !! 79%nat = Some 4 /\
  puzzle st' <> solution st'.
Proof.
  intros rec st'.
  destruct (parse_grid rec.1) as [pz|] eqn:Hpz; [|vm_compute in Hpz; discriminate].
  destruct (parse_grid rec.2) as [sol|] eqn:Hsol; [|vm_compute in Hsol; discriminate].
  assert (Ha : pz !! 79%nat = Some 5)
    by (vm_compute in Hpz; injection Hpz as <-; reflexivity).
  assert (Hb : sol !! 79%nat = Some 4)
    by (vm_compute in Hsol; injection Hsol as <-; reflexivity).
  assert (Hi : (79 < 81)%nat) by lia.
  assert (H50 : 5 <> 0) by lia. assert (H54 : 5 <> 4) by lia.
  destruct (flawed_record_is_never_completed rec pz sol 100 100 (init_fields fresh_save)
              [Hint 3; Select 0 0; Type_ 0 0 "5"; Check 101; Clear; Hint 8]
              79 5 4 Hpz Hsol Hi Ha Hb H50 H54 eq_refl)
    as (_ & H1 & H2 & H3 & _).
  auto.
Defined.

(* ------------------------------------------------------------------ *)
(** ** Activating a skin *)

Lemma str_in_not_In x l : str_in x l = false <-> ~ In x l.
Proof.
  rewrite <- str_in_In. destruct (str_in x l); split; congruence.
Qed.

(** X14. [set_skin] never changes the coins or the owned skins. For a skin
    that is not owned it shows the "Locked" error and changes nothing
    else. For an owned skin of the catalog it records the skin as the
    active one and loads its palette, without a message. For an owned
    skin the catalog does not have, it records the skin as the active
    one, then raises KeyError with the palette it had; the application
    started from the save it has written raises KeyError as well. *)
Theorem set_skin_switches_owned_skins (name : string) (st : app) :
  let st' := final (set_skin name st) in
  coins st' = coins st /\
  owned_skins (state_data st') = owned_skins (state_data st) /\
  (~ In name (owned_skins (state_data st)) ->
   set_skin name st = Ok tt st' /\
   st' = put_dialogs (dialogs st ++ [{| kind := showerror; title := "Locked";
                                        message := "You don't own this skin yet." |}]) st) /\
  (In name (owned_skins (state_data st)) -> In name SKINS ->
   set_skin name st = Ok tt st' /\
   st' = put_skin name (put_state_data (put_active_skin name (state_data st)) st)) /\
  (In name (owned_skins (state_data st)) -> ~ In name SKINS ->
   set_skin name st = Raise KeyError st' /\
   st' = put_state_data (put_active_skin name (state_data st)) st /\
   forall rnd t_grid t_timer,
     exists s, init (state_data st') rnd t_grid t_timer = Raise KeyError s).
Proof.
  cbv zeta.
  destruct (str_in name (owned_skins (state_data st))) eqn:Hown.
  - assert (E : set_skin name st =
                if str_in name SKINS
                then Ok tt (put_skin name
                              (put_state_data (put_active_skin name (state_data st)) st))
                else Raise KeyError
                       (put_state_data (put_active_skin name (state_data st)) st)).
    { unfold set_skin. rewrite bind_get, Hown. cbn [negb]. rewrite bind_modify.
      destruct (str_in name SKINS); [by rewrite bind_ret | by rewrite bind_raise]. }
    apply str_in_In in Hown.
    destruct (str_in name SKINS) eqn:Hcat; rewrite E; cbn [final].
    + apply str_in_In in Hcat.
      split; [reflexivity|]. split; [reflexivity|].
      split; [tauto|]. split; [auto | tauto].
    + pose proof (proj1 (str_in_not_In _ _) Hcat) as Hcat'.
      split; [reflexivity|]. split; [reflexivity|].
      split; [tauto|]. split; [tauto|]. intros _ _.
      split; [reflexivity|]. split; [reflexivity|].
      intros rnd t_grid t_timer. eexists. unfold init.
      change (active_skin (state_data (put_state_data
                (put_active_skin name (state_data st)) st))) with name.
      by rewrite Hcat.
  - assert (E : set_skin name st =
                Ok tt (put_dialogs
                         (dialogs st ++ [{| kind := showerror; title := "Locked";
                                            message := "You don't own this skin yet." |}])
                         st)).
    { unfold set_skin, show. by rewrite bind_get, Hown. }
    apply str_in_not_In in Hown. rewrite E; cbn [final].
    split; [reflexivity|]. split; [reflexivity|].
    split; [auto | split; tauto].
Qed.

Lemma set_skin_switches_owned_skins_witness :
  skin (final (set_skin "Ocean" ocean_owner)) = "Ocean"%string /\
  final (set_skin "Forest" ocean_owner) =
    put_dialogs [{| kind := showerror; title := "Locked";
                    message := "You don't own this skin yet." |}] ocean_owner.
Proof.
  destruct (set_skin_switches_owned_skins "Ocean" ocean_owner) as (_ & _ & _ & Hown & _).
  destruct (set_skin_switches_owned_skins "Forest" ocean_owner) as (_ & _ & Hnot & _).
  split.
  - destruct Hown as [_ ->]; [simpl; auto | simpl; auto |]. reflexivity.
  - destruct Hnot as [_ ->]; [|reflexivity].
    simpl. intros [H|[H|[]]]; discriminate.
Defined.

(* ------------------------------------------------------------------ *)
(** ** What a hint leaves on the screen *)

Lemma give_hint_effect (st : app) (rnd i : nat) :
  sound st -> choice rnd (unsolved_cells st) = Some i ->
  exists v st1,
    solution st !! i = Some v /\
    give_hint rnd st = check_win st1 /\
    cells st1 = upd (i / 9) (i mod 9) {| text := str v; disabled := true |} (cells st) /\
    given_mask st1 = <[i := true]> (given_mask st) /\
    selected st1 = selected st.
Proof.
  intros Hs Hch.
  pose proof Hs as (Hb & Hw & _). pose proof Hb as (Hgm & Hpz & Hsol & _).
  pose proof (choice_elem _ _ _ Hch) as Hin.
  pose proof (unsolved_cells_bound _ _ Hin) as Hlt.
  pose proof (proj1 (elem_of_unsolved_cells st i Hb) Hin) as Hmask.
  destruct (lookup_lt_is_Some_2 (solution st) i) as [v Hv]; [lia|].
  assert (Hr : (i / 9 < 9)%nat) by (apply Nat.Div0.div_lt_upper_bound; lia).
  assert (Hc : (i mod 9 < 9)%nat) by (apply Nat.mod_upper_bound; lia).
  destruct (sound_cell st _ _ Hs Hr Hc) as (e & g & He & Hg & Hdis & _).
  rewrite grid_index_divmod in Hg.
  assert (Hen : disabled e = false) by congruence.
  exists v. eexists. split; [exact Hv|].
  unfold give_hint. run_steps.
  rewrite (bind_orelse _ _ _ _ _ (unsolved_cells_run st Hb)). cbv beta.
  remember (unsolved_cells st) as empties eqn:Hempties.
  destruct empties as [|i0 rest]; [by apply elem_of_nil in Hin|].
  rewrite (bind_orelse _ _ _ _ _ Hch). cbv beta zeta.
  rewrite (bind_item _ _ _ _ _ Hv). cbv beta.
  rewrite (bind_cell_modify_upd _ _ _ e) by exact He.
  rewrite (bind_cell_modify_upd _ _ _ (entry_delete e))
    by (simpl; eapply cell_at_upd_eq, He).
  rewrite (bind_cell_modify_upd _ _ _ (entry_insert (str v) (entry_delete e)))
    by (simpl; eapply cell_at_upd_eq, cell_at_upd_eq, He).
  run_steps.
  rewrite bind_orelse with (a := <[i := v]> (puzzle st))
    by (simpl; apply list_set_Some; lia).
  run_steps.
  rewrite bind_orelse with (a := <[i := true]> (given_mask st))
    by (simpl; apply list_set_Some; lia).
  run_steps. split; [reflexivity|]. simpl. rewrite !upd_upd.
  split; [|split; reflexivity].
  unfold entry_config, entry_insert, entry_delete. rewrite Hen. simpl.
  by rewrite append_empty.
Qed.

(** X15. After a hint on a sound board the entry of the revealed cell shows
    the digit of the solution and is disabled, the other entries are as
    they were, and the cell counts as given: selected, it is refused by
    Check with "This is a given cell." and left alone by Clear. *)
Theorem hinted_cell_is_shown_and_given (st : app) (rnd i : nat) :
  sound st -> choice rnd (unsolved_cells st) = Some i ->
  let r := (i / 9)%nat in
  let c := (i mod 9)%nat in
  let st1 := final (give_hint rnd st) in
  exists v, solution st !! i = Some v /\
    cell_at (cells st1) r c = Some {| text := str v; disabled := true |} /\
    (forall r' c', (r', c') <> (r, c) ->
       cell_at (cells st1) r' c' = cell_at (cells st) r' c') /\
    let st2 := final (on_select r c st1) in
    (forall now, check_selected now st2 =
                 Ok tt (put_info_var "This is a given cell." st2)) /\
    clear_selected st2 = Ok tt st2.
Proof.
  intros Hs Hch r c st1.
  destruct (give_hint_effect st rnd i Hs Hch) as (v & st0 & Hv & Hrun & Hcells & Hmask & _).
  destruct (check_win_session st0 st0) as (_ & _ & Hm' & _ & _ & Hc' & _).
  { repeat split. }
  assert (Hcells1 : cells st1 = upd r c {| text := str v; disabled := true |} (cells st)).
  { unfold st1. rewrite Hrun, Hc'. exact Hcells. }
  assert (Hmask1 : given_mask st1 = <[i := true]> (given_mask st)).
  { unfold st1. rewrite Hrun, Hm'. exact Hmask. }
  pose proof (unsolved_cells_bound _ _ (choice_elem _ _ _ Hch)) as Hlt.
  pose proof Hs as ((Hgm & _) & _).
  assert (Hr : (r < 9)%nat) by (apply Nat.Div0.div_lt_upper_bound; lia).
  assert (Hc : (c < 9)%nat) by (apply Nat.mod_upper_bound; lia).
  destruct (sound_cell st r c Hs Hr Hc) as (e & _ & He & _).
  exists v. split; [exact Hv|]. split; [|split].
  - rewrite Hcells1. eapply cell_at_upd_eq, He.
  - intros r' c' Hne. rewrite Hcells1. by apply cell_at_upd_ne.
  - assert (Hgiven : given_mask st1 !! grid_index r c = Some true).
    { unfold r, c. rewrite grid_index_divmod, Hmask1.
      apply list_lookup_insert_eq. lia. }
    cbv zeta. unfold on_select, modify. cbn [final].
    split.
    + intros now. unfold check_selected. rewrite bind_get. cbn [selected put_selected].
      rewrite (bind_item _ _ _ _ _ Hgiven). reflexivity.
    + unfold clear_selected. rewrite bind_get. cbn [selected put_selected].
      rewrite (bind_item _ _ _ _ _ Hgiven). reflexivity.
Qed.

Lemma hinted_cell_is_shown_and_given_witness :
  cell_at (cells (final (give_hint 7 (final (init fresh_save 0 100 100))))) 1 2 =
  Some {| text := "2"; disabled := true |}.
Proof.
  assert (Hs : sound (final (init fresh_save 0 100 100)))
    by apply started_sound, fresh_save_ok.
  assert (Hch : choice 7 (unsolved_cells (final (init fresh_save 0 100 100))) = Some 11%nat)
    by (vm_compute; reflexivity).
  destruct (hinted_cell_is_shown_and_given _ 7 11 Hs Hch) as (v & Hv & Hcell & _).
  assert (v = 2) as -> by (vm_compute in Hv; congruence).
  exact Hcell.
Defined.

(* ------------------------------------------------------------------ *)
(** ** Clear, and Check without a digit *)

(** X16. On a sound board [clear_selected] returns; it leaves the state as it
    is when the selected cell is given, and otherwise empties the entry
    of the selected cell and changes nothing else: the puzzle, the mask,
    the score and the coins are not written. *)
Theorem clear_selected_empties_open_entry (st : app) (r c : nat) :
  sound st -> selected st = (r, c) ->
  exists e, cell_at (cells st) r c = Some e /\
    given_mask st !! grid_index r c = Some (disabled e) /\
    clear_selected st =
      Ok tt (if disabled e then st
             else put_cells (upd r c blank_entry (cells st)) st).
Proof.
  intros Hs Hsel. pose proof Hs as (_ & _ & Hr & Hc & _).
  rewrite Hsel in Hr, Hc. simpl in Hr, Hc.
  destruct (sound_cell st r c Hs Hr Hc) as (e & g & He & Hg & Hdis & _).
  subst g. exists e. split; [exact He|]. split; [exact Hg|].
  unfold clear_selected. rewrite bind_get, Hsel.
  rewrite (bind_item _ _ _ _ _ Hg). cbv beta.
  destruct (disabled e) eqn:Hd; [reflexivity|].
  rewrite (cell_modify_upd _ _ _ _ _ He).
  unfold entry_delete. by rewrite Hd.
Qed.

Lemma clear_selected_empties_open_entry_witness :
  exists e, cell_at (cells (run [Select 0 2; Type_ 0 2 "7"] (final (init fresh_save 0 100 100)))) 0 2
            = Some e /\
    given_mask (run [Select 0 2; Type_ 0 2 "7"] (final (init fresh_save 0 100 100)))
      !! grid_index 0 2 = Some (disabled e).
Proof.
  assert (Hs : sound (run [Select 0 2; Type_ 0 2 "7"] (final (init fresh_save 0 100 100))))
    by (apply reachable_sound; [apply fresh_save_ok | reflexivity]).
  assert (Hsel : selected (run [Select 0 2; Type_ 0 2 "7"] (final (init fresh_save 0 100 100)))
                 = (0%nat, 2%nat)) by (vm_compute; reflexivity).
  destruct (clear_selected_empties_open_entry _ 0 2 Hs Hsel) as (e & He & Hg & _).
  exists e. split; [exact He | exact Hg].
Defined.

(** X17. On a sound board, when the selected cell is not given and its entry,
    stripped, is empty or is not made of digits, [check_selected] only
    writes "Enter a digit (1-9)." to the info label: no point is taken,
    the board and the stamp stay. *)
Theorem check_selected_asks_for_a_digit (st : app) (now : Q) (t : string) :
  sound st -> given_mask st !! selected_index st = Some false ->
  selected_text st = Some t -> t = ""%string \/ isdigit t = false ->
  check_selected now st = Ok tt (put_info_var "Enter a digit (1-9)." st).
Proof.
  unfold selected_index, selected_text. intros Hs Hmask Htext Hno.
  pose proof Hs as (_ & _ & Hr & Hc & _).
  destruct (selected st) as [r c] eqn:Hsel. simpl in Hr, Hc, Hmask.
  destruct (sound_cell st r c Hs Hr Hc) as (e & g & He & _).
  rewrite He in Htext. injection Htext as <-.
  unfold check_selected. rewrite bind_get, Hsel.
  rewrite (bind_item _ _ _ _ _ Hmask). cbv beta iota.
  rewrite (bind_cell_get_at _ _ _ _ _ He). cbv beta.
  assert (Hbad : String.eqb (strip (text e)) "" || negb (isdigit (strip (text e))) = true).
  { destruct Hno as [-> | ->]; [reflexivity | apply orb_true_r]. }
  by rewrite Hbad.
Qed.

Lemma check_selected_asks_for_a_digit_witness :
  check_selected 101 (run [Select 0 2; Type_ 0 2 "x"] (final (init fresh_save 0 100 100))) =
  Ok tt (put_info_var "Enter a digit (1-9)."
           (run [Select 0 2; Type_ 0 2 "x"] (final (init fresh_save 0 100 100)))).
Proof.
  apply (check_selected_asks_for_a_digit _ 101 "x").
  - apply reachable_sound; [apply fresh_save_ok | reflexivity].
  - vm_compute. reflexivity.
  - vm_compute. reflexivity.
  - right. reflexivity.
Defined.

(* ------------------------------------------------------------------ *)
(** ** Digits that [int] refuses *)

Lemma py_int_refuses (t : string) :
  isdigit t = true ->
  (py_int t = None <->
   all_digits t = false \/ max_str_digits < Z.of_nat (String.length t)).
Proof.
  intros Hd. unfold py_int. destruct t as [|a t]; [discriminate|].
  remember (String a t) as s eqn:Es. clear Es Hd.
  destruct (all_digits s); simpl.
  - destruct (Z.leb_spec (Z.of_nat (String.length s)) max_str_digits).
    + split; [discriminate | intros [?|?]; [discriminate | lia]].
    + split; auto.
  - split; auto.
Qed.

(** X18. On a sound board, when the selected cell is not given and its
    entry text, stripped, is one [isdigit()] accepts, [check_selected]
    raises ValueError exactly when [int] refuses the text, that is when a
    character is a digit that is not decimal (a superscript) or the text
    has more than 4300 digits; it raises before anything is written, the
    state is the one it was called in. *)
Theorem check_selected_raises_on_refused_digits (st : app) (now : Q) (t : string) :
  sound st -> given_mask st !! selected_index st = Some false ->
  selected_text st = Some t -> isdigit t = true ->
  (py_int t = None <->
   all_digits t = false \/ max_str_digits < Z.of_nat (String.length t)) /\
  (py_int t = None -> check_selected now st = Raise ValueError st) /\
  (forall g, py_int t = Some g -> exists st', check_selected now st = Ok tt st').
Proof.
  intros Hs Hmask Htext Hd. split; [by apply py_int_refuses|].
  destruct (check_selected_sound now st Hs)
    as [(st' & Hrun & _)|(t' & Ht' & _ & Hint' & _ & Hrun)].
  - split; [|eauto]. intros Hint. exfalso.
    revert Hrun. unfold selected_index, selected_text in *.
    pose proof Hs as (_ & _ & Hr & Hc & _).
    destruct (selected st) as [r c] eqn:Hsel. simpl in Hr, Hc, Hmask.
    destruct (sound_cell st r c Hs Hr Hc) as (e & g & He & _).
    rewrite He in Htext. injection Htext as <-.
    unfold check_selected. rewrite bind_get, Hsel.
    rewrite (bind_item _ _ _ _ _ Hmask). cbv beta iota.
    rewrite (bind_cell_get_at _ _ _ _ _ He). cbv beta.
    assert (Hok : String.eqb (strip (text e)) "" || negb (isdigit (strip (text e))) = false).
    { rewrite Hd. simpl. rewrite orb_false_r. apply String.eqb_neq. intros Heq.
      by rewrite Heq in Hd. }
    rewrite Hok. by rewrite (bind_orelse_None _ _ _ _ Hint).
  - rewrite Htext in Ht'. injection Ht' as <-.
    split; [auto|]. intros g Hg. congruence.
Qed.

Lemma check_selected_raises_on_refused_digits_witness :
  check_selected 101
    (run [Select 0 2; Type_ 0 2 (String (ascii_of_nat 178) "")]
         (final (init fresh_save 0 100 100))) =
  Raise ValueError
    (run [Select 0 2; Type_ 0 2 (String (ascii_of_nat 178) "")]
         (final (init fresh_save 0 100 100))).
Proof.
  destruct (check_selected_raises_on_refused_digits
              (run [Select 0 2; Type_ 0 2 (String (ascii_of_nat 178) "")]
                   (final (init fresh_save 0 100 100)))
              101 (String (ascii_of_nat 178) "")) as (_ & H & _).
  - apply reachable_sound; [apply fresh_save_ok | reflexivity].
  - vm_compute. reflexivity.
  - vm_compute. reflexivity.
  - reflexivity.
  - apply H. reflexivity.
Defined.

Lemma raised_callbacks (acts : list action) (st : app) (a : action) (s : app) :
  forallb valid acts = true -> sound st -> In (a, s) (raised acts st) ->
  exists now t,
    a = Check now /\ selected_text s = Some t /\ isdigit t = true /\
    py_int t = None /\ callback a s = Raise ValueError s.
Proof.
  revert st. induction acts as [|b acts IH]; intros st Hv Hs Hin; [destruct Hin|].
  simpl in Hv. apply andb_true_iff in Hv as [Hb Hv].
  simpl in Hin.
  destruct (callback_sound b st Hb Hs)
    as [(st' & Hrun & Hs')|(now & t & -> & Ht & Hd & Hint & _ & Hrun)].
  - rewrite Hrun in Hin. eapply IH; eauto.
  - change (callback (Check now) st) with (check_selected now st) in Hin, Hrun.
    rewrite Hrun in Hin. destruct Hin as [[= <- <-]|Hin].
    + exists now, t. auto.
    + eapply IH; eauto.
Qed.

(** X19. In a running application the only exception of a callback is
    the ValueError of [int] in [check_selected]: under any sequence of
    actions the widgets can send, a callback that raises is Check, on a
    selected entry whose stripped text [isdigit()] accepts and [int]
    refuses, and it leaves the state it was called in. *)
Theorem callbacks_raise_only_in_int
    (sd : save) (rnd : nat) (t_grid t_timer : Q) (acts : list action)
    (a : action) (s : app) :
  save_ok sd -> forallb valid acts = true ->
  In (a, s) (raised acts (final (init sd rnd t_grid t_timer))) ->
  exists now t,
    a = Check now /\ selected_text s = Some t /\ isdigit t = true /\
    py_int t = None /\ callback a s = Raise ValueError s.
Proof.
  intros Hsd Hv Hin.
  destruct (init_sound sd rnd t_grid t_timer Hsd) as (st & Hrun & Hs).
  rewrite Hrun in Hin. simpl in Hin. eapply raised_callbacks; eauto.
Qed.

Lemma callbacks_raise_only_in_int_witness :
  exists now,
    Check 101 = Check now /\
    callback (Check 101)
      (run [Select 0 2; Type_ 0 2 (String (ascii_of_nat 178) "")]
           (final (init fresh_save 0 100 100))) =
    Raise ValueError
      (run [Select 0 2; Type_ 0 2 (String (ascii_of_nat 178) "")]
           (final (init fresh_save 0 100 100))).
Proof.
  destruct (callbacks_raise_only_in_int fresh_save 0 100 100
              [Select 0 2; Type_ 0 2 (String (ascii_of_nat 178) ""); Check 101; Hint 1]
              (Check 101)
              (run [Select 0 2; Type_ 0 2 (String (ascii_of_nat 178) "")]
                   (final (init fresh_save 0 100 100))))
    as (now & t & Ha & _ & _ & _ & Hrun).
  - apply fresh_save_ok.
  - reflexivity.
  - vm_compute. left. reflexivity.
  - exists now. split; [exact Ha | exact Hrun].
Defined.

(* ------------------------------------------------------------------ *)
(** ** No exception with plain texts *)

Lemma lstrip_plain (s : string) :
  ascii_text s = true ->
  ascii_text (lstrip s) = true /\ (String.length (lstrip s) <= String.length s)%nat.
Proof.
  induction s as [|a s IH]; [by split|].
  intros Ha. simpl. destruct (isspace a).
  - simpl in Ha. apply andb_true_iff in Ha as [_ Ha].
    destruct (IH Ha) as [H1 H2]. split; [exact H1 | lia].
  - split; [exact Ha | simpl; lia].
Qed.

Lemma rstrip_plain (s : string) :
  ascii_text s = true ->
  ascii_text (rstrip s) = true /\ (String.length (rstrip s) <= String.length s)%nat.
Proof.
  induction s as [|a s IH]; [by split|].
  intros Ha. simpl in Ha. apply andb_true_iff in Ha as [Ha Hs].
  destruct (IH Hs) as [H1 H2]. simpl.
  destruct (rstrip s) as [|b r] eqn:Hr.
  - destruct (isspace a); simpl; [split; [reflexivity | lia]|].
    rewrite Ha. split; [reflexivity | lia].
  - split.
    + change (ascii_text (String a (String b r)))
        with ((nat_of_ascii a <? 128)%nat && ascii_text (String b r)).
      by rewrite Ha, H1.
    + simpl in *. lia.
Qed.

Lemma strip_plain (s : string) :
  plain_text s = true -> plain_text (strip s) = true.
Proof.
  unfold plain_text, strip. intros H. apply andb_true_iff in H as [Ha Hl].
  destruct (lstrip_plain s Ha) as [H1 H2].
  destruct (rstrip_plain _ H1) as [H3 H4].
  rewrite H3. simpl. apply Z.leb_le in Hl. apply Z.leb_le. lia.
Qed.

Lemma ascii_digit_char (a : ascii) :
  (nat_of_ascii a <? 128)%nat = true -> is_digit_char a = true ->
  exists d, digit_of_ascii a = Some d.
Proof.
  destruct a as [[] [] [] [] [] [] [] []]; vm_compute; intros H1 H2;
    try discriminate H1; try discriminate H2; eauto.
Qed.

Lemma ascii_digits (t : string) :
  ascii_text t = true -> all_digit_chars t = true -> all_digits t = true.
Proof.
  induction t as [|a t IH]; [reflexivity|].
  simpl. intros Ha Hd.
  apply andb_true_iff in Ha as [Ha Ht]. apply andb_true_iff in Hd as [Hd Hdt].
  destruct (ascii_digit_char a Ha Hd) as [d ->]. by apply IH.
Qed.

(** [int] reads a plain text that [isdigit()] accepts. *)
Lemma plain_int (t : string) :
  plain_text t = true -> isdigit t = true -> exists g, py_int t = Some g.
Proof.
  unfold plain_text, py_int. intros H Hd. apply andb_true_iff in H as [Ha Hl].
  destruct t as [|a t]; [discriminate|].
  remember (String a t) as s eqn:Es.
  assert (Hall : all_digits s = true).
  { apply ascii_digits; [exact Ha|]. subst s. exact Hd. }
  rewrite Hall, Hl. simpl. eauto.
Qed.

Lemma cell_at_upd_cases cs r c e' r' c' x :
  cell_at (upd r c e' cs) r' c' = Some x -> x = e' \/ cell_at cs r' c' = Some x.
Proof.
  destruct (decide ((r', c') = (r, c))) as [[= -> ->]|Hne].
  - destruct (cell_at cs r c) as [e|] eqn:He.
    + rewrite (cell_at_upd_eq _ _ _ _ _ He). intros [= <-]. by left.
    + unfold cell_at, upd in *. destruct (cs !! r) as [row|] eqn:Hrow.
      * rewrite list_lookup_insert_eq by (eapply lookup_lt_Some, Hrow). simpl.
        simpl in He. rewrite list_lookup_insert_Some. intros [(_ & _ & Hlt)|[Hn _]].
        -- apply lookup_lt_is_Some_2 in Hlt as [y Hy]. congruence.
        -- done.
      * rewrite Hrow. simpl. discriminate.
  - rewrite cell_at_upd_ne by exact Hne. auto.
Qed.

Lemma texts_upd st st' r c e' :
  texts_plain st ->
  (disabled e' = false -> plain_text (text e') = true) ->
  cells st' = upd r c e' (cells st) -> texts_plain st'.
Proof.
  intros Ht He' Hcells r' c' x Hx Hd. rewrite Hcells in Hx.
  apply cell_at_upd_cases in Hx as [->|Hx]; [auto | eapply Ht; eauto].
Qed.

Lemma cell_modify_texts r c f :
  (forall e, (disabled e = false -> plain_text (text e) = true) ->
             disabled (f e) = false -> plain_text (text (f e)) = true) ->
  stable texts_plain (cell_modify r c f).
Proof.
  intros Hf st Ht. destruct (cell_at (cells st) r c) as [e|] eqn:He.
  - rewrite (cell_modify_upd _ _ _ _ _ He). simpl.
    eapply texts_upd; [exact Ht | | reflexivity].
    apply Hf. intros Hd. eapply Ht; eauto.
  - by rewrite (cell_modify_missing _ _ _ _ He).
Qed.

Ltac texts_auto :=
  repeat first
    [ apply cell_modify_texts
    | stable_step
    | lazymatch goal with
      | |- stable _ (match ?x with _ => _ end) => destruct x
      end ];
  try assumption.

Lemma check_selected_texts now : stable texts_plain (check_selected now).
Proof.
  unfold check_selected, cell_get, check_win, is_completed, on_win, stop_timer, show.
  texts_auto. intros e _ Hd. discriminate Hd.
Qed.

Lemma clear_selected_texts : stable texts_plain clear_selected.
Proof.
  unfold clear_selected. texts_auto.
  intros e He. unfold entry_delete.
  destruct (disabled e) eqn:E; [intros Hd; congruence | reflexivity].
Qed.

Lemma entry_typed_texts r c t :
  plain_text t = true -> stable texts_plain (entry_typed r c t).
Proof.
  intros Ht. unfold entry_typed. apply cell_modify_texts.
  intros e He. destruct (disabled e) eqn:E; [intros Hd; congruence | auto].
Qed.

Lemma shop_click_texts name b : stable texts_plain (shop_click name b).
Proof. unfold shop_click, buy_skin, set_skin, show. texts_auto. Qed.

Lemma give_hint_texts rnd st :
  sound st -> texts_plain st -> texts_plain (final (give_hint rnd st)).
Proof.
  intros Hs Ht. pose proof Hs as (Hb & _).
  destruct (unsolved_cells st) as [|i0 rest] eqn:Hempties.
  - rewrite give_hint_nothing_left; [exact Ht|].
    by rewrite (unsolved_cells_run st Hb), Hempties.
  - destruct (choice_Some rnd (i0 :: rest)) as (i & Hch & _); [done|].
    rewrite <- Hempties in Hch.
    destruct (give_hint_effect st rnd i Hs Hch) as (v & st1 & _ & Hrun & Hcells & _).
    rewrite Hrun.
    destruct (check_win_session st1 st1) as (_ & _ & _ & _ & _ & Hc' & _).
    { repeat split. }
    eapply texts_upd; [exact Ht | | rewrite Hc'; exact Hcells].
    discriminate.
Qed.

Lemma cell_at_bounds cs r c e :
  grid_ok cs -> cell_at cs r c = Some e -> (r < 9)%nat /\ (c < 9)%nat.
Proof.
  intros [Hlen Hrows] He. unfold cell_at in He.
  destruct (cs !! r) as [row|] eqn:Hrow; [|discriminate]. simpl in He.
  split.
  - apply lookup_lt_Some in Hrow. lia.
  - rewrite Forall_forall in Hrows.
    rewrite <- (Hrows row) by (eapply list_elem_of_lookup_2, Hrow).
    eapply lookup_lt_Some, He.
Qed.

Lemma new_game_texts diff rnd t_grid t_timer st0 :
  sound st0 -> In diff order ->
  texts_plain (final (new_game diff rnd t_grid t_timer st0)).
Proof.
  intros Hs Hin.
  destruct (new_game_sound diff rnd t_grid t_timer st0 Hs Hin)
    as (st & Hrun & Hs' & _ & _ & _ & _ & _ & Hcells).
  rewrite Hrun. simpl. intros r c e He Hd.
  destruct (cell_at_bounds _ r c e (board_ok_grid _ (proj1 Hs')) He) as [Hr Hc].
  destruct (Hcells r c Hr Hc) as (v & _ & He').
  rewrite He in He'. injection He' as ->.
  unfold populated in *. by destruct (negb (v =? 0)).
Qed.

Lemma select_difficulty_texts d rnd t_grid t_timer st :
  sound st -> texts_plain st ->
  texts_plain (final (select_difficulty d rnd t_grid t_timer st)).
Proof.
  intros Hs Ht. pose proof Hs as (_ & _ & _ & _ & Hu & _).
  unfold select_difficulty, on_diff_change, show. run_steps. simpl.
  destruct (str_in d (unlocked (state_data st))) eqn:Hin; simpl.
  - apply str_in_In in Hin. apply new_game_texts.
    + by apply sound_current_diff.
    + eapply in_unlocked_order; eauto.
  - destruct (unlocked_ok_last _ Hu) as (fb & Hlast & _).
    run_steps. rewrite bind_orelse with (a := fb) by (simpl; exact Hlast).
    exact Ht.
Qed.

Lemma new_game_button_texts rnd t_grid t_timer st :
  sound st -> texts_plain (final (new_game_button rnd t_grid t_timer st)).
Proof.
  intros Hs. pose proof Hs as (_ & _ & _ & _ & Hu & Hd & _).
  unfold new_game_button. rewrite bind_get.
  apply new_game_texts; [exact Hs | eapply in_unlocked_order; eauto].
Qed.

Lemma callback_texts (a : action) (st : app) :
  plain a = true -> sound st -> texts_plain st -> texts_plain (final (callback a st)).
Proof.
  unfold plain. intros Hp Hs Ht. apply andb_true_iff in Hp as [_ Hp].
  destruct a; simpl.
  - exact Ht.
  - by apply entry_typed_texts.
  - by apply check_selected_texts.
  - by apply clear_selected_texts.
  - by apply give_hint_texts.
  - by apply new_game_button_texts.
  - by apply select_difficulty_texts.
  - by apply shop_click_texts.
Qed.

Lemma plain_valid (a : action) : plain a = true -> valid a = true.
Proof. unfold plain. intros H. by apply andb_true_iff in H as [H _]. Qed.

(** With plain texts in the entries a callback returns. *)
Lemma callback_plain (a : action) (st : app) :
  plain a = true -> sound st -> texts_plain st ->
  exists st', callback a st = Ok tt st' /\ sound st' /\ texts_plain st'.
Proof.
  intros Hp Hs Ht. pose proof (callback_texts a st Hp Hs Ht) as Ht'.
  destruct (callback_sound a st (plain_valid a Hp) Hs)
    as [(st' & Hrun & Hs')|(now & t & _ & Htext & Hd & Hint & Hmask & _)].
  - exists st'. rewrite Hrun in Ht'. auto.
  - exfalso. unfold selected_text, selected_index in *.
    pose proof Hs as (_ & Hw & Hr & Hc & _).
    destruct (selected st) as [r c]. simpl in Hr, Hc, Hmask.
    destruct (cell_at (cells st) r c) as [e|] eqn:He; [|discriminate].
    injection Htext as <-.
    assert (Hen : disabled e = false).
    { pose proof (Hw r c e Hr Hc He) as Hg. congruence. }
    destruct (plain_int (strip (text e))) as [g Hg]; [|exact Hd|congruence].
    apply strip_plain. eapply Ht; eauto.
Qed.

Lemma run_plain (acts : list action) (st : app) :
  forallb plain acts = true -> sound st -> texts_plain st ->
  run_strict acts st = Ok tt (run acts st) /\ sound (run acts st).
Proof.
  revert st. induction acts as [|a acts IH]; intros st Hv Hs Ht; [by split|].
  simpl in Hv. apply andb_true_iff in Hv as [Ha Hv].
  destruct (callback_plain a st Ha Hs Ht) as (st' & Hrun & Hs' & Ht').
  simpl. rewrite Hrun. simpl. by apply IH.
Qed.

(** X6. From a save with its invariants, the application starts and, under
    any sequence of actions the widgets can send in which the texts typed
    in the entries are plain (ASCII characters, at most 4300 of them), no
    callback raises. The board keeps 81 cells in its three lists and the
    grid 9 rows of 9. *)
Theorem application_never_raises
    (sd : save) (rnd : nat) (t_grid t_timer : Q) (acts : list action) :
  save_ok sd -> forallb plain acts = true ->
  exists st,
    init sd rnd t_grid t_timer = Ok tt st /\
    run_strict acts st = Ok tt (run acts st) /\
    board_ok (run acts st) /\
    ((selected (run acts st)).1 < 9)%nat /\ ((selected (run acts st)).2 < 9)%nat.
Proof.
  intros Hsd Hv. destruct (init_sound sd rnd t_grid t_timer Hsd) as (st & Hrun & Hs).
  exists st. split; [exact Hrun|].
  assert (Ht : texts_plain st).
  { pose proof Hsd as (_ & _ & _ & Hsk).
    assert (Hst : st = final (init sd rnd t_grid t_timer)) by (by rewrite Hrun).
    rewrite Hst. unfold init. rewrite (proj2 (str_in_In _ _) Hsk).
    apply new_game_texts; [by apply init_fields_sound | simpl; auto]. }
  destruct (run_plain acts st Hv Hs Ht) as (Hstrict & Hb & _ & Hr & Hc & _). auto.
Qed.

Lemma sample_session_plain :
  forallb plain [Select 0 2; Type_ 0 2 "7"; Check 101; Type_ 0 2 "4"; Check 102;
                 Hint 5; Difficulty "Hard" 0 103 103; Shop "Ocean" (Buy 60);
                 Shop "Classic" Activate; NewGame 1 104 104; Clear] = true.
Proof. vm_compute. reflexivity. Qed.

Lemma application_never_raises_witness :
  exists st,
    init fresh_save 0 100 100 = Ok tt st /\
    exists st',
      run_strict [Select 0 2; Type_ 0 2 "7"; Check 101; Type_ 0 2 "4"; Check 102;
                  Hint 5; Difficulty "Hard" 0 103 103; Shop "Ocean" (Buy 60);
                  Shop "Classic" Activate; NewGame 1 104 104; Clear] st = Ok tt st' /\
      board_ok st'.
Proof.
  destruct (application_never_raises fresh_save 0 100 100 _ fresh_save_ok sample_session_plain)
    as (st & Hinit & Hrun & Hb & _).
  exists st. split; [exact Hinit|]. eexists. split; [exact Hrun | exact Hb].
Defined.
